(** * App Store Reviews Viewer: a shallow embedding of the front end

    The development follows the three source files of the repository:
    the service module ([apiRequest], [getApps], [getReviews]), the plain
    [App] component and the [App] component with the custom id form and
    the day filter.  The JavaScript values the code manipulates are
    embedded first: strings, Numbers restricted to the integer values the
    program can produce, [parseInt], template-literal formatting and the
    one regular expression of the program. *)

From Stdlib Require Import ZArith String Ascii List Bool Lia.
From stdpp Require Import base decidable option gmap.
Import ListNotations.

#[local] Arguments String.append !s1 s2 : simpl nomatch.

Local Open Scope Z_scope.

(** ** JavaScript values *)

Module JS.

(** Strings are sequences of code units; a Rocq character stands for the
    code unit of the same number (U+0000 to U+00FF). *)

Local Open Scope string_scope.
Local Open Scope Z_scope.

(** A Number of the program is an integer-valued double, NaN or an
    infinity.  [Fin z] is meant for an integer [z] that a double
    represents; the program produces Numbers through [parseInt] and
    [roundToDouble], which only yield such values.  Minus zero is
    identified with zero. *)
Inductive number : Type :=
| Fin (z : Z)
| NaN
| Inf (negative : bool).

#[global] Instance number_eq_dec : EqDecision number.
Proof. solve_decision. Defined.

(** [ToBoolean] on a Number: zero and NaN are falsy. *)
Definition truthy (x : number) : bool :=
  match x with
  | Fin z => negb (z =? 0)
  | NaN => false
  | Inf _ => true
  end.

(** [ToBoolean] on [number | null]. *)
Definition truthy_opt (x : option number) : bool :=
  match x with
  | Some n => truthy n
  | None => false
  end.

(** Strict equality [===] of two Numbers: NaN differs from itself. *)
Definition strict_eq (x y : number) : bool :=
  match x, y with
  | Fin a, Fin b => a =? b
  | Inf a, Inf b => Bool.eqb a b
  | _, _ => false
  end.

(** [x > 0] on Numbers. *)
Definition gt_zero (x : number) : bool :=
  match x with
  | Fin z => 0 <? z
  | NaN => false
  | Inf negative => negb negative
  end.

Definition isNaN (x : number) : bool :=
  match x with
  | NaN => true
  | _ => false
  end.

Definition MAX_SAFE_INTEGER : Z := 2 ^ 53 - 1.

Definition is_safe (z : Z) : Prop := - MAX_SAFE_INTEGER <= z <= MAX_SAFE_INTEGER.

(** *** Rounding an integer to the nearest double

    Round-to-nearest, ties to even, on a non-negative integer: the 53
    leading bits are kept, and a result of 2^1024 or more is infinite. *)
Definition roundToDouble (m : Z) : number :=
  let b := Z.log2 m + 1 in
  if b <=? 53 then Fin m
  else
    let sh := b - 53 in
    let q := Z.shiftr m sh in
    let r := m - Z.shiftl q sh in
    let half := 2 ^ (sh - 1) in
    let q' := if (half <? r) || ((r =? half) && Z.odd q) then q + 1 else q in
    let v := Z.shiftl q' sh in
    if 2 ^ 1024 <=? v then Inf false else Fin v.

(** The non-negative integers that are doubles. *)
Definition representable (z : Z) : Prop := roundToDouble z = Fin z.

Definition negate (x : number) : number :=
  match x with
  | Fin z => Fin (- z)
  | NaN => NaN
  | Inf negative => Inf (negb negative)
  end.

(** *** Decimal digits *)

Definition is_digit (c : ascii) : bool :=
  let n := N_of_ascii c in ((48 <=? n) && (n <=? 57))%N.

Definition digit_value (c : ascii) : Z := Z.of_N (N_of_ascii c) - 48.

Definition digit_char (d : Z) : ascii := ascii_of_N (Z.to_N (d + 48)).

(** The value of a run of digits read from the left, starting from [acc]. *)
Fixpoint digits_value (acc : Z) (s : string) : Z :=
  match s with
  | EmptyString => acc
  | String c s' => digits_value (10 * acc + digit_value c) s'
  end.

Fixpoint all_digits (s : string) : bool :=
  match s with
  | EmptyString => true
  | String c s' => is_digit c && all_digits s'
  end.

(** The longest prefix of digits of [s], and what follows it. *)
Fixpoint span_digits (s : string) : string * string :=
  match s with
  | EmptyString => (EmptyString, EmptyString)
  | String c s' =>
      if is_digit c then
        let '(ds, rest) := span_digits s' in (String c ds, rest)
      else (EmptyString, s)
  end.

Fixpoint decimal_aux (fuel : nat) (n : Z) (acc : string) : string :=
  match fuel with
  | O => acc
  | S fuel' =>
      let acc' := String (digit_char (n mod 10)) acc in
      if n <? 10 then acc' else decimal_aux fuel' (n / 10) acc'
  end.

(** The decimal digits of a non-negative integer, without leading zeros. *)
Definition decimal (n : Z) : string :=
  decimal_aux (S (Z.to_nat (Z.log2 n))) n EmptyString.

Fixpoint zeros (n : nat) : string :=
  match n with
  | O => EmptyString
  | S n' => String "0" (zeros n')
  end.

(** *** parseInt(string, 10) *)

(** The code units below U+0100 that [parseInt] skips as white space. *)
Definition is_whitespace (c : ascii) : bool :=
  let n := N_of_ascii c in
  ((9 <=? n) && (n <=? 13) || (n =? 32) || (n =? 160))%N.

Fixpoint trim_start (s : string) : string :=
  match s with
  | String c s' => if is_whitespace c then trim_start s' else s
  | EmptyString => EmptyString
  end.

(** [parseInt(s, 10)]: leading white space is skipped, one sign is read,
    then the longest run of decimal digits; no digit gives NaN.  With the
    radix given as 10 no [0x] prefix is recognised. *)
Definition parseInt (s : string) : number :=
  let s1 := trim_start s in
  let '(negative, s2) :=
    match s1 with
    | String c s' =>
        if Ascii.eqb c "-" then (true, s')
        else if Ascii.eqb c "+" then (false, s')
        else (false, s1)
    | EmptyString => (false, s1)
    end in
  let '(ds, _) := span_digits s2 in
  match ds with
  | EmptyString => NaN
  | _ =>
      let v := roundToDouble (digits_value 0 ds) in
      if negative then negate v else v
  end.

(** *** Number::toString, radix 10 *)

Fixpoint num_digits_aux (fuel : nat) (n : Z) : Z :=
  match fuel with
  | O => 1
  | S fuel' => if n <? 10 then 1 else 1 + num_digits_aux fuel' (n / 10)
  end.

(** How many decimal digits a positive integer has. *)
Definition num_digits (n : Z) : Z :=
  num_digits_aux (S (Z.to_nat (Z.log2 n))) n.

(** Does the integer [m] round to the double [x]? *)
Definition rounds_to (m x : Z) : bool :=
  bool_decide (roundToDouble m = Fin x).

(** The digits [s] of [k] decimal places, if any, for which
    [s * 10^(d-k)] rounds to [x]; of two candidates the one nearer to
    [x] is taken, and the even one when they are equally near. *)
Definition candidate (x d k : Z) : option Z :=
  let p := 10 ^ (d - k) in
  let lo := x / p in
  let hi := lo + 1 in
  let ok_lo := rounds_to (lo * p) x in
  let ok_hi := (hi <? 10 ^ k) && rounds_to (hi * p) x in
  match ok_lo, ok_hi with
  | true, true =>
      let dl := x - lo * p in
      let dh := hi * p - x in
      if dl <? dh then Some lo
      else if dh <? dl then Some hi
      else if Z.even lo then Some lo else Some hi
  | true, false => Some lo
  | false, true => Some hi
  | false, false => None
  end.

(** The search for the shortest digits: [k] grows from its first value
    until a candidate exists; the exact digits of [x] end the search. *)
Fixpoint shortest_from (fuel : nat) (x d k : Z) : Z * Z :=
  match fuel with
  | O => (x, d)
  | S fuel' =>
      match candidate x d k with
      | Some s => (s, k)
      | None => shortest_from fuel' x d (k + 1)
      end
  end.

(** The triple [(s, k, n)] of Number::toString for a positive integer
    [x]: [k] digits [s] with [s * 10^(n-k)] rounding to [x], [k] as
    small as possible. *)
Definition shortest (x : Z) : Z * Z * Z :=
  let d := num_digits x in
  if rounds_to (10 ^ d) x then (1, 1, d + 1)
  else
    let '(s, k) := shortest_from (Z.to_nat (d - 1)) x d 1 in
    (s, k, d).

(** The text of a positive integer-valued Number: plain digits up to 21
    places, exponent notation beyond. *)
Definition toString_pos (x : Z) : string :=
  let '(s, k, n) := shortest x in
  if n <=? 21 then decimal s ++ zeros (Z.to_nat (n - k))
  else
    match decimal s with
    | String c EmptyString => String c ("e+" ++ decimal (n - 1))
    | String c ds => String c ("." ++ ds ++ "e+" ++ decimal (n - 1))
    | EmptyString => EmptyString
    end.

(** [Number::toString(x)], which is what a template literal and
    [x.toString()] produce. *)
Definition Number_toString (x : number) : string :=
  match x with
  | NaN => "NaN"
  | Inf false => "Infinity"
  | Inf true => "-Infinity"
  | Fin z =>
      if z =? 0 then "0"
      else if z <? 0 then String "-" (toString_pos (- z))
      else toString_pos z
  end.

(** *** Promises and exceptions *)

(** A thrown value: an instance of [Error] with its message, or any
    other value. *)
Inductive thrown : Type :=
| Error (message : string)
| NotAnError.

(** How an awaited promise settles. *)
Inductive outcome (T : Type) : Type :=
| Fulfilled (value : T)
| Rejected (reason : thrown).

Arguments Fulfilled {T} value.
Arguments Rejected {T} reason.

(** [Array.prototype.join] on strings. *)
Fixpoint join (sep : string) (l : list string) : string :=
  match l with
  | [] => ""
  | [x] => x
  | x :: l' => x ++ sep ++ join sep l'
  end.

End JS.

Import JS.
Local Open Scope string_scope.
Local Open Scope Z_scope.

(** ** The browser: location and session history *)

Module Browser.

(** [pathname] is [window.location.pathname]; [pushed] lists the paths
    given to [history.pushState], the latest first. *)
Record browser : Type := mkBrowser {
  pathname : string;
  pushed : list string
}.

(** [window.history.pushState({}, "", newPath)]. *)
Definition pushState (newPath : string) (b : browser) : browser :=
  {| pathname := newPath; pushed := newPath :: pushed b |}.

(** The user moves to another entry of the session history; the
    [popstate] event follows. *)
Definition traverse (path : string) (b : browser) : browser :=
  {| pathname := path; pushed := pushed b |}.

Fixpoint strip_prefix (p s : string) : option string :=
  match p, s with
  | EmptyString, _ => Some s
  | String a p', String b s' => if Ascii.eqb a b then strip_prefix p' s' else None
  | String _ _, EmptyString => None
  end.

(** The pattern [\/app\/(\d+)] tried at the start of [s]: the capture
    group when it matches there. *)
Definition match_here (s : string) : option string :=
  match strip_prefix "/app/" s with
  | Some rest =>
      match fst (span_digits rest) with
      | EmptyString => None
      | ds => Some ds
      end
  | None => None
  end.

(** [path.match(/\/app\/(\d+)/)]: the pattern is tried at every index
    from the left; the result is capture group 1 of the first match. *)
Fixpoint match_app (path : string) : option string :=
  match match_here path with
  | Some ds => Some ds
  | None =>
      match path with
      | EmptyString => None
      | String _ rest => match_app rest
      end
  end.

(** [s] does not begin with a digit. *)
Definition no_leading_digit (s : string) : bool :=
  match s with
  | String c _ => negb (is_digit c)
  | EmptyString => true
  end.

(** In words: at index [i] of [path] stands ["/app/"] followed by at
    least one digit. *)
Definition occurs_at (path : string) (i : nat) : Prop :=
  exists pre c rest,
    path = pre ++ "/app/" ++ String c rest /\
    String.length pre = i /\ is_digit c = true.

(** [getAppIdFromUrl], the same in both components. *)
Definition getAppIdFromUrl (b : browser) : option number :=
  match match_app (pathname b) with
  | Some ds => Some (parseInt ds)
  | None => None
  end.

(** [updateUrl], the same in both components. *)
Definition updateUrl (appId : option number) (b : browser) : browser :=
  let newPath :=
    match appId with
    | Some n => if truthy n then "/app/" ++ Number_toString n else "/"
    | None => "/"
    end in
  pushState newPath b.

(** What the browser does with an event on its own, whether or not a
    component listens to it: a move in the session history changes the
    location; the settlement of a promise and an event of the page's own
    elements do not touch it. *)
Class Navigation (E : Type) : Type := browser_move : E -> browser -> browser.

End Browser.

Import Browser.

(** ** The service module *)

Module Service.

Record App : Type := mkApp { App_id : number }.

Record Review : Type := mkReview {
  Review_id : string;
  appId : number;
  title : string;
  content : string;
  author : string;
  score : number;
  updated : string
}.

Record GetAppsResponse : Type := mkGetAppsResponse { apps_items : list App }.

Record GetReviewsResponse : Type := mkGetReviewsResponse { reviews_items : list Review }.

(** The [loc] of a validation error is not used by the program and is
    left out. *)
Record ValidationError : Type := mkValidationError {
  msg : string;
  type : string
}.

Record HTTPValidationError : Type := mkHTTPValidationError {
  detail : list ValidationError
}.

(** What [fetch] resolves to.  [json] is [await response.json()] read at
    the type [T] the caller gave to [apiRequest]; [errorData] is the same
    call read at the type [HTTPValidationError], as the code does for
    status 422. *)
Record Response (T : Type) : Type := mkResponse {
  ok : bool;
  status : Z;
  json : outcome T;
  errorData : outcome HTTPValidationError
}.

Arguments ok {T} _.
Arguments status {T} _.
Arguments json {T} _.
Arguments errorData {T} _.

Section Requests.

(** [import.meta.env.VITE_API_URL], as the template literal renders it. *)
Variable API_BASE_URL : string.

Definition request_url (endpoint : string) : string := API_BASE_URL ++ endpoint.

Section ApiRequest.

Context {T : Type}.

(** The network: what [fetch(url)] settles to. *)
Variable fetch : string -> outcome (Response T).

(** The body of the [try] block of [apiRequest]. *)
Definition apiRequest_try (endpoint : string) : outcome T :=
  let url := request_url endpoint in
  match fetch url with
  | Rejected e => Rejected e
  | Fulfilled response =>
      if negb (ok response) then
        if status response =? 422 then
          match errorData response with
          | Rejected e => Rejected e
          | Fulfilled data =>
              Rejected (Error ("Validation Error: " ++ join ", " (map msg (detail data))))
          end
        else
          Rejected (Error ("HTTP error! status: " ++ Number_toString (Fin (status response))))
      else json response
  end.

(** [apiRequest]: the [catch] clause rethrows an [Error] and replaces
    anything else. *)
Definition apiRequest (endpoint : string) : outcome T :=
  match apiRequest_try endpoint with
  | Fulfilled v => Fulfilled v
  | Rejected (Error m) => Rejected (Error m)
  | Rejected NotAnError => Rejected (Error "An unexpected error occurred")
  end.

End ApiRequest.

Definition apps_endpoint : string := "/api/apps".

Definition reviews_endpoint (appId : number) : string :=
  "/api/reviews/" ++ Number_toString appId.

Definition getApps (fetch : string -> outcome (Response GetAppsResponse))
  : outcome GetAppsResponse :=
  apiRequest fetch apps_endpoint.

Definition getReviews (fetch : string -> outcome (Response GetReviewsResponse))
  (appId : number) : outcome GetReviewsResponse :=
  apiRequest fetch (reviews_endpoint appId).

End Requests.

End Service.

Definition REFRESH_INTERVAL : Z := 2000.

(** What a [catch] clause of the components stores in [error]. *)
Definition error_text (fallback : string) (err : thrown) : string :=
  match err with
  | Error message => message
  | NotAnError => fallback
  end.

(** ** The plain component *)

Module Plain.

Import Service.

(** The [useState] cells of [App]. *)
Record state : Type := mkState {
  apps : list App;
  selectedAppId : option number;
  reviews : list Review;
  loadingApps : bool;
  loadingReviews : bool;
  error : option string
}.

Definition initial : state :=
  {| apps := []; selectedAppId := None; reviews := [];
     loadingApps := false; loadingReviews := false; error := None |}.

Definition setApps (v : list App) (st : state) : state :=
  {| apps := v; selectedAppId := selectedAppId st; reviews := reviews st;
     loadingApps := loadingApps st; loadingReviews := loadingReviews st;
     error := error st |}.

Definition setSelectedAppId (v : option number) (st : state) : state :=
  {| apps := apps st; selectedAppId := v; reviews := reviews st;
     loadingApps := loadingApps st; loadingReviews := loadingReviews st;
     error := error st |}.

Definition setReviews (v : list Review) (st : state) : state :=
  {| apps := apps st; selectedAppId := selectedAppId st; reviews := v;
     loadingApps := loadingApps st; loadingReviews := loadingReviews st;
     error := error st |}.

Definition setLoadingApps (v : bool) (st : state) : state :=
  {| apps := apps st; selectedAppId := selectedAppId st; reviews := reviews st;
     loadingApps := v; loadingReviews := loadingReviews st;
     error := error st |}.

Definition setLoadingReviews (v : bool) (st : state) : state :=
  {| apps := apps st; selectedAppId := selectedAppId st; reviews := reviews st;
     loadingApps := loadingApps st; loadingReviews := v;
     error := error st |}.

Definition setError (v : option string) (st : state) : state :=
  {| apps := apps st; selectedAppId := selectedAppId st; reviews := reviews st;
     loadingApps := loadingApps st; loadingReviews := loadingReviews st;
     error := v |}.

(** [fetchApps] up to [await getApps()]. *)
Definition fetchApps_begin (st : state) : state :=
  setError None (setLoadingApps true st).

(** [fetchApps] from the point where [getApps()] has settled. *)
Definition fetchApps_resume (r : outcome GetAppsResponse) (b : browser)
  (st : state) : state :=
  let st1 :=
    match r with
    | Fulfilled response =>
        let st' := setApps (apps_items response) st in
        let urlAppId := getAppIdFromUrl b in
        if truthy_opt urlAppId then setSelectedAppId urlAppId st' else st'
    | Rejected err => setError (Some (error_text "Failed to fetch apps" err)) st
    end in
  setLoadingApps false st1.

Definition handlePopState (b : browser) (st : state) : state :=
  let urlAppId := getAppIdFromUrl b in
  setSelectedAppId urlAppId st.

(** [fetchReviews] up to [await getReviews(appId)]. *)
Definition fetchReviews_begin (st : state) : state :=
  setError None (setLoadingReviews true st).

(** [fetchReviews] from the point where [getReviews(appId)] has settled. *)
Definition fetchReviews_resume (r : outcome GetReviewsResponse) (st : state)
  : state :=
  let st1 :=
    match r with
    | Fulfilled response => setReviews (reviews_items response) st
    | Rejected err => setError (Some (error_text "Failed to fetch reviews" err)) st
    end in
  setLoadingReviews false st1.

Definition handleAppSelect (appId : number) (st : state) (b : browser)
  : state * browser :=
  (setSelectedAppId (Some appId) st, updateUrl (Some appId) b).

Section Calls.

Variable API_BASE_URL : string.
Variable fetchA : string -> outcome (Response GetAppsResponse).
Variable fetchR : string -> outcome (Response GetReviewsResponse).

(** The whole of [fetchApps] against a given network. *)
Definition fetchApps (b : browser) (st : state) : state :=
  fetchApps_resume (getApps API_BASE_URL fetchA) b (fetchApps_begin st).

(** The whole of [fetchReviews] against a given network. *)
Definition fetchReviews (appId : number) (st : state) : state :=
  fetchReviews_resume (getReviews API_BASE_URL fetchR appId) (fetchReviews_begin st).

(** The URLs [fetchReviews(appId)] requests. *)
Definition fetchReviews_requests (appId : number) : list string :=
  [request_url API_BASE_URL (reviews_endpoint appId)].

End Calls.

(** The events of the page: promise settlements and user actions. *)
Inductive event : Type :=
| AppsSettled (r : outcome GetAppsResponse)
| ReviewsSettled (r : outcome GetReviewsResponse)
| PopState (path : string)
| SelectApp (appId : number).

Definition handle (e : event) (st : state) (b : browser) : state * browser :=
  match e with
  | AppsSettled r => (fetchApps_resume r b st, b)
  | ReviewsSettled r => (fetchReviews_resume r st, b)
  | PopState path => let b' := traverse path b in (handlePopState b' st, b')
  | SelectApp appId => handleAppSelect appId st b
  end.

(** Of these events the browser itself acts on the navigation only. *)
#[global] Instance navigation : Navigation event :=
  fun e b =>
    match e with
    | PopState path => traverse path b
    | _ => b
    end.

End Plain.

(** ** The component with the custom id form and the day filter *)

Module Filter.

Import Service.

Record state : Type := mkState {
  apps : list App;
  selectedAppId : option number;
  customAppId : string;
  reviews : list Review;
  loadingApps : bool;
  loadingReviews : bool;
  error : option string;
  reviewFilterDays : number
}.

Definition initial : state :=
  {| apps := []; selectedAppId := None; customAppId := ""; reviews := [];
     loadingApps := false; loadingReviews := false; error := None;
     reviewFilterDays := Fin 10 |}.

Definition setApps (v : list App) (st : state) : state :=
  {| apps := v; selectedAppId := selectedAppId st; customAppId := customAppId st;
     reviews := reviews st; loadingApps := loadingApps st;
     loadingReviews := loadingReviews st; error := error st;
     reviewFilterDays := reviewFilterDays st |}.

Definition setSelectedAppId (v : option number) (st : state) : state :=
  {| apps := apps st; selectedAppId := v; customAppId := customAppId st;
     reviews := reviews st; loadingApps := loadingApps st;
     loadingReviews := loadingReviews st; error := error st;
     reviewFilterDays := reviewFilterDays st |}.

Definition setCustomAppId (v : string) (st : state) : state :=
  {| apps := apps st; selectedAppId := selectedAppId st; customAppId := v;
     reviews := reviews st; loadingApps := loadingApps st;
     loadingReviews := loadingReviews st; error := error st;
     reviewFilterDays := reviewFilterDays st |}.

Definition setReviews (v : list Review) (st : state) : state :=
  {| apps := apps st; selectedAppId := selectedAppId st; customAppId := customAppId st;
     reviews := v; loadingApps := loadingApps st;
     loadingReviews := loadingReviews st; error := error st;
     reviewFilterDays := reviewFilterDays st |}.

Definition setLoadingApps (v : bool) (st : state) : state :=
  {| apps := apps st; selectedAppId := selectedAppId st; customAppId := customAppId st;
     reviews := reviews st; loadingApps := v;
     loadingReviews := loadingReviews st; error := error st;
     reviewFilterDays := reviewFilterDays st |}.

Definition setLoadingReviews (v : bool) (st : state) : state :=
  {| apps := apps st; selectedAppId := selectedAppId st; customAppId := customAppId st;
     reviews := reviews st; loadingApps := loadingApps st;
     loadingReviews := v; error := error st;
     reviewFilterDays := reviewFilterDays st |}.

Definition setError (v : option string) (st : state) : state :=
  {| apps := apps st; selectedAppId := selectedAppId st; customAppId := customAppId st;
     reviews := reviews st; loadingApps := loadingApps st;
     loadingReviews := loadingReviews st; error := v;
     reviewFilterDays := reviewFilterDays st |}.

Definition setReviewFilterDays (v : number) (st : state) : state :=
  {| apps := apps st; selectedAppId := selectedAppId st; customAppId := customAppId st;
     reviews := reviews st; loadingApps := loadingApps st;
     loadingReviews := loadingReviews st; error := error st;
     reviewFilterDays := v |}.

(** [items.some((app) => app.id === urlAppId)]. *)
Definition appExists (items : list App) (urlAppId : number) : bool :=
  existsb (fun app => strict_eq (App_id app) urlAppId) items.

(** [fetchApps] up to [await getApps()]. *)
Definition fetchApps_begin (st : state) : state := setLoadingApps true st.

(** [fetchApps] from the point where [getApps()] has settled. *)
Definition fetchApps_resume (r : outcome GetAppsResponse) (b : browser)
  (st : state) : state :=
  let st1 :=
    match r with
    | Fulfilled response =>
        let st' := setApps (apps_items response) (setError None st) in
        match getAppIdFromUrl b with
        | Some urlAppId =>
            if truthy urlAppId then
              if appExists (apps_items response) urlAppId
              then setSelectedAppId (Some urlAppId) st'
              else setCustomAppId (Number_toString urlAppId) st'
            else st'
        | None => st'
        end
    | Rejected err => setError (Some (error_text "Failed to fetch apps" err)) st
    end in
  setLoadingApps false st1.

(** [handlePopState]; the listener is installed again whenever [apps]
    changes, so the list it reads is the current one. *)
Definition handlePopState (b : browser) (st : state) : state :=
  match getAppIdFromUrl b with
  | Some urlAppId =>
      if truthy urlAppId then
        if appExists (apps st) urlAppId
        then setCustomAppId "" (setSelectedAppId (Some urlAppId) st)
        else setSelectedAppId None (setCustomAppId (Number_toString urlAppId) st)
      else setCustomAppId "" (setSelectedAppId None st)
  | None => setCustomAppId "" (setSelectedAppId None st)
  end.

(** *** The cut-off date of [fetchReviews] *)

Definition msPerDay : Z := 86400000.

(** The largest time value of a [Date], in milliseconds from the epoch. *)
Definition MAX_TIME : Z := 8640000000000000.

Definition TimeClip (t : Z) : option Z :=
  if Z.abs t <=? MAX_TIME then Some t else None.

(** The message of the [RangeError] of [toISOString] on an invalid date
    (the text differs between engines). *)
Definition invalid_time_message : string := "Invalid time value".

Section Dates.

(** The offset of local time, as ECMAScript's [LocalTZA(t, isUTC)]. *)
Variable LocalTZA : Z -> bool -> Z.

(** The time value of [date] after
    [date.setDate(date.getDate() - reviewFilterDays)], where [date] is
    [new Date()] at time [now]: the day of the local time moves back
    by the given number of days, the time within the day is kept, and
    the result is clipped.  [None] is the invalid date. *)
Definition setDate_back (now : Z) (days : number) : option Z :=
  match days with
  | Fin d =>
      let t := now + LocalTZA now true in
      let newDate := t - d * msPerDay in
      TimeClip (newDate - LocalTZA newDate false)
  | NaN => None
  | Inf _ => None
  end.

(** [fetchReviews] up to [await getReviews(appId, updatedMin)];
    [reviewFilterDays] is the value the callback captured.  The
    boolean tells whether the call of [getReviews] was reached:
    [date.toISOString()] throws on an invalid date, and the [catch]
    and [finally] clauses then run at once. *)
Definition fetchReviews_begin (days : number) (now : Z) (st : state)
  : state * bool :=
  let st1 := setLoadingReviews true st in
  match setDate_back now days with
  | Some updatedMin => (st1, true)
  | None =>
      (setLoadingReviews false
         (setError (Some (error_text "Failed to fetch reviews"
                            (Error invalid_time_message))) st1), false)
  end.

End Dates.

(** [fetchReviews] from the point where [getReviews] has settled. *)
Definition fetchReviews_resume (r : outcome GetReviewsResponse) (st : state)
  : state :=
  let st1 :=
    match r with
    | Fulfilled response => setReviews (reviews_items response) (setError None st)
    | Rejected err => setError (Some (error_text "Failed to fetch reviews" err)) st
    end in
  setLoadingReviews false st1.

Definition handleAppSelect (appId : number) (st : state) (b : browser)
  : state * browser :=
  (setCustomAppId "" (setSelectedAppId (Some appId) st), updateUrl (Some appId) b).

Definition invalid_app_id_message : string :=
  "Please enter a valid app ID (positive number)".

Definition handleCustomAppIdSubmit (st : state) (b : browser) : state * browser :=
  let appId := parseInt (customAppId st) in
  if negb (isNaN appId) && gt_zero appId then
    (setCustomAppId "" (setSelectedAppId (Some appId) st),
     updateUrl (Some appId) b)
  else
    (setError (Some invalid_app_id_message) st, b).

Section Calls.

Variable API_BASE_URL : string.
Variable LocalTZA : Z -> bool -> Z.
Variable fetchA : string -> outcome (Response GetAppsResponse).
Variable fetchR : string -> outcome (Response GetReviewsResponse).

(** The whole of [fetchApps] against a given network. *)
Definition fetchApps (b : browser) (st : state) : state :=
  fetchApps_resume (getApps API_BASE_URL fetchA) b (fetchApps_begin st).

(** The whole of [fetchReviews] against a given network.  The call
    [getReviews(appId, updatedMin)] passes two arguments to a function
    of one parameter: the second is dropped. *)
Definition fetchReviews (days : number) (now : Z) (appId : number)
  (st : state) : state :=
  match fetchReviews_begin LocalTZA days now st with
  | (st1, true) => fetchReviews_resume (getReviews API_BASE_URL fetchR appId) st1
  | (st1, false) => st1
  end.

(** The URLs [fetchReviews(appId)] requests. *)
Definition fetchReviews_requests (days : number) (now : Z) (appId : number)
  : list string :=
  match setDate_back LocalTZA now days with
  | Some _ => [request_url API_BASE_URL (reviews_endpoint appId)]
  | None => []
  end.

End Calls.

(** The events of the page.  [ChangeDays] carries
    [parseInt(e.target.value)] of the filter input. *)
Inductive event : Type :=
| AppsSettled (r : outcome GetAppsResponse)
| ReviewsSettled (r : outcome GetReviewsResponse)
| PopState (path : string)
| SelectApp (appId : number)
| ChangeCustom (value : string)
| SubmitCustom
| ChangeDays (parsed : number)
| ResetDays.

Definition handle (e : event) (st : state) (b : browser) : state * browser :=
  match e with
  | AppsSettled r => (fetchApps_resume r b st, b)
  | ReviewsSettled r => (fetchReviews_resume r st, b)
  | PopState path => let b' := traverse path b in (handlePopState b' st, b')
  | SelectApp appId => handleAppSelect appId st b
  | ChangeCustom value => (setCustomAppId value st, b)
  | SubmitCustom => handleCustomAppIdSubmit st b
  | ChangeDays parsed =>
      (setReviewFilterDays (if truthy parsed then parsed else Fin 1) st, b)
  | ResetDays => (setReviewFilterDays (Fin 10) st, b)
  end.

(** Of these events the browser itself acts on the navigation only. *)
#[global] Instance navigation : Navigation event :=
  fun e b =>
    match e with
    | PopState path => traverse path b
    | _ => b
    end.

End Filter.

(** ** The page at run time: rendering, effects and timers

    Both components end with the same polling effect.  The machine below
    is the part of React and of the browser that the effect relies on:
    after every event the component renders and an effect whose
    dependencies changed runs its clean-up and then its body; interval
    timers live in the browser's timer table.  Time is counted in
    milliseconds, one [Tick] each. *)

Module Runtime.

(** An entry of the timer table: when it fires next, and what the
    callback [() => fetchReviews(selectedAppId)] captured. *)
Record timer (K : Type) : Type := mkTimer {
  due : Z;
  cb_appId : number;
  cb_fetch : K
}.

Arguments mkTimer {K} due cb_appId cb_fetch.
Arguments due {K} _.
Arguments cb_appId {K} _.
Arguments cb_fetch {K} _.

Section Machine.

(** [S]: the [useState] cells; [E]: the events, with what the browser
    does with each of them on its own; [K]: the dependencies of
    [useCallback], which decide the identity of [fetchReviews]. *)
Context {S E K : Type} `{EqDecision K} `{Navigation E}.

Variable selected : S -> option number.
Variable fetchKey : S -> K.

(** [fetchReviews] up to its first [await]: the new state and the
    URLs requested. *)
Variable begin_fetch : K -> Z -> number -> S -> S * list string.

Variable handle : E -> S -> browser -> S * browser.

(** The state and the requests once the mount effect has called
    [fetchApps()]. *)
Variable mount_state : S.
Variable mount_requests : list string.

(** The page between two events: the state of the component, the
    location, the clock, the timer table with the next free id, the
    clean-up and the dependencies that the last run of the polling
    effect left, the calls of [fetchReviews] and the requests made so
    far, each with its time, and whether the component is mounted. *)
Record world : Type := mkWorld {
  comp : S;
  loc : browser;
  now : Z;
  timers : gmap nat (timer K);
  next_timer : nat;
  cleanup : option nat;
  deps : option (option number * K);
  calls : list (Z * number);
  requests : list (Z * string);
  mounted : bool
}.

(** A call [fetchReviews(appId)] of the callback made from key [k]. *)
Definition callFetchReviews (k : K) (appId : number) (w : world) : world :=
  let '(st, urls) := begin_fetch k (now w) appId (comp w) in
  {| comp := st; loc := loc w; now := now w; timers := timers w;
     next_timer := next_timer w; cleanup := cleanup w; deps := deps w;
     calls := calls w ++ [(now w, appId)];
     requests := requests w ++ map (pair (now w)) urls;
     mounted := mounted w |}.

(** [setInterval(callback, REFRESH_INTERVAL)]. *)
Definition setInterval (appId : number) (k : K) (w : world) : nat * world :=
  let tid := next_timer w in
  (tid,
   {| comp := comp w; loc := loc w; now := now w;
      timers := <[tid := mkTimer (now w + REFRESH_INTERVAL) appId k]> (timers w);
      next_timer := Datatypes.S tid; cleanup := cleanup w; deps := deps w;
      calls := calls w; requests := requests w; mounted := mounted w |}).

Definition clearInterval (tid : nat) (w : world) : world :=
  {| comp := comp w; loc := loc w; now := now w;
     timers := delete tid (timers w);
     next_timer := next_timer w; cleanup := cleanup w; deps := deps w;
     calls := calls w; requests := requests w; mounted := mounted w |}.

Definition set_cleanup (c : option nat) (w : world) : world :=
  {| comp := comp w; loc := loc w; now := now w; timers := timers w;
     next_timer := next_timer w; cleanup := c; deps := deps w;
     calls := calls w; requests := requests w; mounted := mounted w |}.

Definition set_deps (d : option (option number * K)) (w : world) : world :=
  {| comp := comp w; loc := loc w; now := now w; timers := timers w;
     next_timer := next_timer w; cleanup := cleanup w; deps := d;
     calls := calls w; requests := requests w; mounted := mounted w |}.

(** The body of the polling effect, as rendered from the state of [w];
    what it returns is stored as the clean-up. *)
Definition pollingEffect (w : world) : world :=
  match selected (comp w) with
  | None => set_cleanup None w
  | Some selectedAppId =>
      let fetchReviews := fetchKey (comp w) in
      let w1 := callFetchReviews fetchReviews selectedAppId w in
      let '(interval, w2) := setInterval selectedAppId fetchReviews w1 in
      set_cleanup (Some interval) w2
  end.

(** The clean-up of the previous run of the effect, if it returned one. *)
Definition runCleanup (w : world) : world :=
  match cleanup w with
  | Some interval => set_cleanup None (clearInterval interval w)
  | None => w
  end.

(** The dependency array [[selectedAppId, fetchReviews]] of a render. *)
Definition current_deps (w : world) : option number * K :=
  (selected (comp w), fetchKey (comp w)).

(** Render and commit of a mounted component: the effect runs again
    when its dependencies differ from those of its last run.  The
    state that the effect sets leads to one more render, which finds
    the dependencies unchanged ([commit_idle] below). *)
Definition commit (w : world) : world :=
  if mounted w then
    if decide (deps w = Some (current_deps w)) then w
    else set_deps (Some (current_deps w)) (pollingEffect (runCleanup w))
  else w.

Definition set_page (st : S) (b : browser) (w : world) : world :=
  {| comp := st; loc := b; now := now w; timers := timers w;
     next_timer := next_timer w; cleanup := cleanup w; deps := deps w;
     calls := calls w; requests := requests w; mounted := mounted w |}.

Definition set_loc (b : browser) (w : world) : world :=
  {| comp := comp w; loc := b; now := now w; timers := timers w;
     next_timer := next_timer w; cleanup := cleanup w; deps := deps w;
     calls := calls w; requests := requests w; mounted := mounted w |}.

(** An event reaches its handler while the component is mounted.  Once
    it is unmounted its listeners are removed and its state is no longer
    rendered; the browser still moves the location on a navigation. *)
Definition dispatch (e : E) (w : world) : world :=
  if mounted w then
    let '(st, b) := handle e (comp w) (loc w) in
    commit (set_page st b w)
  else set_loc (browser_move e (loc w)) w.

(** A timer that is due runs its callback and is scheduled again. *)
Definition fire (tid : nat) (t : timer K) (w : world) : world :=
  if due t =? now w then
    let w1 := callFetchReviews (cb_fetch t) (cb_appId t) w in
    {| comp := comp w1; loc := loc w1; now := now w1;
       timers := alter (fun t' => mkTimer (due t' + REFRESH_INTERVAL)
                                    (cb_appId t') (cb_fetch t')) tid (timers w1);
       next_timer := next_timer w1; cleanup := cleanup w1; deps := deps w1;
       calls := calls w1; requests := requests w1; mounted := mounted w1 |}
  else w.

Definition set_now (t : Z) (w : world) : world :=
  {| comp := comp w; loc := loc w; now := t; timers := timers w;
     next_timer := next_timer w; cleanup := cleanup w; deps := deps w;
     calls := calls w; requests := requests w; mounted := mounted w |}.

(** One millisecond passes. *)
Definition tick (w : world) : world :=
  let w1 := set_now (now w + 1) w in
  commit (map_fold fire w1 (timers w1)).

(** The component is removed: every effect runs its clean-up. *)
Definition unmount (w : world) : world :=
  if mounted w then
    let w1 := runCleanup w in
    {| comp := comp w1; loc := loc w1; now := now w1; timers := timers w1;
       next_timer := next_timer w1; cleanup := cleanup w1; deps := None;
       calls := calls w1; requests := requests w1; mounted := false |}
  else w.

Inductive input : Type :=
| Dispatch (e : E)
| Tick
| Unmount.

Definition step (w : world) (i : input) : world :=
  match i with
  | Dispatch e => dispatch e w
  | Tick => tick w
  | Unmount => unmount w
  end.

(** The first render at time [t0] on location [b0]. *)
Definition mount (t0 : Z) (b0 : browser) : world :=
  commit {| comp := mount_state; loc := b0; now := t0; timers := ∅;
            next_timer := 1; cleanup := None; deps := None; calls := [];
            requests := map (pair t0) mount_requests; mounted := true |}.

Definition run (t0 : Z) (b0 : browser) (inputs : list input) : world :=
  fold_left step inputs (mount t0 b0).

(** The times of the first [n] firings of an interval started at [t]. *)
Definition firings (t : Z) (appId : number) (n : nat) : list (Z * number) :=
  map (fun j => (t + REFRESH_INTERVAL * Z.of_nat j, appId)) (seq 1 n).

(** The worlds passed through, one after each input. *)
Fixpoint trace (w : world) (inputs : list input) : list world :=
  match inputs with
  | [] => []
  | i :: rest => step w i :: trace (step w i) rest
  end.

(** During [inputs] the component stays mounted and the dependencies
    of the polling effect stay equal to [d]. *)
Definition steady (d : option number * K) (w : world) (inputs : list input)
  : bool :=
  forallb (fun w' => mounted w' && bool_decide (current_deps w' = d))
    (trace w inputs).

(** The state of the polling effect between two events: a clean-up
    is stored exactly when an app is selected, and it then owns the
    only timer of the table. *)
Definition settled (w : world) : Prop :=
  (mounted w = true -> deps w = Some (current_deps w)) /\
  match cleanup w with
  | Some interval =>
      mounted w = true /\ (interval < next_timer w)%nat /\
      exists appId d,
        selected (comp w) = Some appId /\
        timers w = {[ interval := mkTimer d appId (fetchKey (comp w)) ]} /\
        now w < d <= now w + REFRESH_INTERVAL
  | None =>
      timers w = ∅ /\ (mounted w = true -> selected (comp w) = None)
  end.

(** How many milliseconds pass during a list of inputs. *)
Fixpoint count_ticks (inputs : list input) : nat :=
  match inputs with
  | [] => O
  | Tick :: rest => Datatypes.S (count_ticks rest)
  | _ :: rest => count_ticks rest
  end.

End Machine.

End Runtime.

(** ** The two pages *)

Module PlainPage.

Section Page.

Variable API_BASE_URL : string.

(** [useCallback(..., [])]: [fetchReviews] is the same function in
    every render. *)
Definition fetchKey (st : Plain.state) : unit := tt.

Definition begin_fetch (k : unit) (now : Z) (appId : number) (st : Plain.state)
  : Plain.state * list string :=
  (Plain.fetchReviews_begin st, Plain.fetchReviews_requests API_BASE_URL appId).

Definition mount_state : Plain.state := Plain.fetchApps_begin Plain.initial.

Definition mount_requests : list string :=
  [Service.request_url API_BASE_URL Service.apps_endpoint].

(** One input on the plain page. *)
Definition step :=
  Runtime.step Plain.selectedAppId fetchKey begin_fetch Plain.handle.

(** The plain page from its first render through a list of inputs. *)
Definition run :=
  Runtime.run Plain.selectedAppId fetchKey begin_fetch Plain.handle
    mount_state mount_requests.

End Page.

End PlainPage.

Module FilterPage.

Section Page.

Variable API_BASE_URL : string.
Variable LocalTZA : Z -> bool -> Z.

(** [useCallback(..., [reviewFilterDays])]: [fetchReviews] is a new
    function whenever [reviewFilterDays] changes. *)
Definition fetchKey (st : Filter.state) : number := Filter.reviewFilterDays st.

Definition begin_fetch (days : number) (now : Z) (appId : number)
  (st : Filter.state) : Filter.state * list string :=
  (fst (Filter.fetchReviews_begin LocalTZA days now st),
   Filter.fetchReviews_requests API_BASE_URL LocalTZA days now appId).

Definition mount_state : Filter.state := Filter.fetchApps_begin Filter.initial.

Definition mount_requests : list string :=
  [Service.request_url API_BASE_URL Service.apps_endpoint].

(** One input on the page with the day filter. *)
Definition step :=
  Runtime.step Filter.selectedAppId fetchKey begin_fetch Filter.handle.

(** That page from its first render through a list of inputs. *)
Definition run :=
  Runtime.run Filter.selectedAppId fetchKey begin_fetch Filter.handle
    mount_state mount_requests.

End Page.

(** *** Pages that differ only in the value of the filter *)

(** A state with the value of [reviewFilterDays] put aside. *)
Definition forget_days (st : Filter.state) : Filter.state :=
  Filter.setReviewFilterDays (Fin 10) st.

(** A timer without the [fetchReviews] that its callback captured. *)
Definition timer_shape (t : Runtime.timer number) : Z * number :=
  (Runtime.due t, Runtime.cb_appId t).

(** Two pages that are alike in everything but the value of
    [reviewFilterDays], in the state and in what depends on it (the
    function held by the timer and the dependencies of the effect). *)
Definition alike_but_days (w1 w2 : @Runtime.world Filter.state number) : Prop :=
  forget_days (Runtime.comp w1) = forget_days (Runtime.comp w2) /\
  Runtime.loc w1 = Runtime.loc w2 /\
  Runtime.now w1 = Runtime.now w2 /\
  Runtime.next_timer w1 = Runtime.next_timer w2 /\
  Runtime.cleanup w1 = Runtime.cleanup w2 /\
  Runtime.calls w1 = Runtime.calls w2 /\
  Runtime.requests w1 = Runtime.requests w2 /\
  Runtime.mounted w1 = Runtime.mounted w2 /\
  timer_shape <$> Runtime.timers w1 = timer_shape <$> Runtime.timers w2.

(** The inputs that do not write [reviewFilterDays]. *)
Definition keeps_filter (i : @Runtime.input Filter.event) : bool :=
  match i with
  | Runtime.Dispatch (Filter.ChangeDays _) => false
  | Runtime.Dispatch Filter.ResetDays => false
  | _ => true
  end.

End FilterPage.

Definition UTC : Z -> bool -> Z := fun _ _ => 0.


(** ** Sample data for the examples *)

Module Samples.

Import Service.

Definition base : string := "http://localhost:8000".

Definition origin : browser := mkBrowser "/" [].

Definition UTC : Z -> bool -> Z := fun _ _ => 0.

Definition review1 : Review :=
  mkReview "r1" (Fin 5) "Great" "Works well" "ann" (Fin 5) "2025-01-01T00:00:00Z".

Definition ok_reviews : Response GetReviewsResponse :=
  mkResponse _ true 200 (Fulfilled (mkGetReviewsResponse [review1]))
    (Rejected NotAnError).

Definition invalid_422 : Response GetReviewsResponse :=
  mkResponse _ false 422 (Rejected NotAnError)
    (Fulfilled (mkHTTPValidationError
                  [mkValidationError "too small" "value_error";
                   mkValidationError "not a number" "type_error"])).

Definition apps_loaded : GetAppsResponse := mkGetAppsResponse [mkApp (Fin 5); mkApp (Fin 7)].

(** A network that answers one URL and fails on every other. *)
Definition only (url : string) {T : Type} (r : Response T)
  : string -> outcome (Response T) :=
  fun u => if String.eqb u url then Fulfilled r else Rejected (Error "Failed to fetch").

End Samples.

(** ** The change handlers written inline *)

Module Inputs.

(** The value of a hexadecimal digit. *)
Definition hex_digit_value (c : ascii) : option Z :=
  let n := N_of_ascii c in
  if ((48 <=? n) && (n <=? 57))%N then Some (Z.of_N n - 48)
  else if ((97 <=? n) && (n <=? 102))%N then Some (Z.of_N n - 87)
  else if ((65 <=? n) && (n <=? 70))%N then Some (Z.of_N n - 55)
  else None.

(** The value of the longest prefix of hexadecimal digits of [s], read
    from the left starting from [acc]; [None] when [s] begins with no
    such digit and [seen] is false. *)
Fixpoint hex_prefix_value (seen : bool) (acc : Z) (s : string) : option Z :=
  match s with
  | String c s' =>
      match hex_digit_value c with
      | Some d => hex_prefix_value true (16 * acc + d) s'
      | None => if seen then Some acc else None
      end
  | EmptyString => if seen then Some acc else None
  end.

(** [parseInt(s)] with no radix: as with radix 10, except that a
    prefix [0x] or [0X] after the sign switches to radix 16. *)
Definition parseInt_auto (s : string) : number :=
  let s1 := trim_start s in
  let '(negative, s2) :=
    match s1 with
    | String c s' =>
        if Ascii.eqb c "-" then (true, s')
        else if Ascii.eqb c "+" then (false, s')
        else (false, s1)
    | EmptyString => (false, s1)
    end in
  let magnitude :=
    match s2 with
    | String "0" (String x s3) =>
        if Ascii.eqb x "x" || Ascii.eqb x "X" then
          match hex_prefix_value false 0 s3 with
          | Some v => roundToDouble v
          | None => NaN
          end
        else
          match fst (span_digits s2) with
          | EmptyString => NaN
          | ds => roundToDouble (digits_value 0 ds)
          end
    | _ =>
        match fst (span_digits s2) with
        | EmptyString => NaN
        | ds => roundToDouble (digits_value 0 ds)
        end
    end in
  if negative then negate magnitude else magnitude.

(** The [onChange] of the filter input:
    [setReviewFilterDays(parseInt(e.target.value) || 1)]. *)
Definition onDaysChange (value : string) (st : Filter.state) : Filter.state :=
  let parsed := parseInt_auto value in
  Filter.setReviewFilterDays (if truthy parsed then parsed else Fin 1) st.

(** The [onClick] of the reset button: [setReviewFilterDays(10)]. *)
Definition onDaysReset (st : Filter.state) : Filter.state :=
  Filter.setReviewFilterDays (Fin 10) st.

(** The text of an integer as the filter input holds it: the decimal
    digits, after a minus sign when negative. *)
Definition integer_text (z : Z) : string :=
  if z <? 0 then String "-" (decimal (- z)) else decimal z.

End Inputs.

(** ** What the components render

    The element trees are kept down to what depends on the state: which
    parts are present and the texts and values they hold.  Style
    attributes and fixed labels of the form are left out.  An expression
    [x && <element>] renders nothing when [x] is null, false or the
    empty string, and the number itself when [x] is 0 or NaN. *)

Module View.

Import Service.

(** What [{x && <element>}] leaves in the tree. *)
Inductive slot (A : Type) : Type :=
| Absent
| Bare (text : string)
| Shown (a : A).

Arguments Absent {A}.
Arguments Bare {A} text.
Arguments Shown {A} a.

(** An [<option>]: its [value] attribute and its text. *)
Record option_view : Type := mkOption {
  opt_value : string;
  opt_label : string
}.

(** The [<select>]: its [value] attribute and its options. *)
Record select_view : Type := mkSelect {
  sel_value : string;
  sel_options : list option_view
}.

(** The card of one review.  [card_updated] is the argument of
    [new Date(...)], whose [toLocaleString()] depends on the locale. *)
Record card : Type := mkCard {
  card_key : string;
  card_title : string;
  card_score : string;
  card_content : string;
  card_author : string;
  card_updated : string
}.

Inductive reviews_body : Type :=
| NoReviews (message : string)
| Found (count_line : string) (cards : list card).

Record section : Type := mkSection {
  heading : string;
  refresh_line : string;
  body : reviews_body
}.

(** [ToBoolean] on [string | null]: null and the empty string are
    falsy. *)
Definition truthy_text (x : option string) : bool :=
  match x with
  | Some s => negb (String.eqb s "")
  | None => false
  end.

(** [selectedAppId || ""] as the [value] attribute. *)
Definition select_value (selectedAppId : option number) : string :=
  match selectedAppId with
  | Some n => if truthy n then Number_toString n else ""
  | None => ""
  end.

(** The [<select>] with its placeholder and one option for each app. *)
Definition app_select (selectedAppId : option number) (apps : list App)
  : select_view :=
  {| sel_value := select_value selectedAppId;
     sel_options :=
       mkOption "" "Choose an app..."
       :: map (fun app =>
                 mkOption (Number_toString (App_id app))
                   ("App ID: " ++ Number_toString (App_id app))) apps |}.

Definition review_card (review : Review) : card :=
  {| card_key := Review_id review;
     card_title := title review;
     card_score := "Score: " ++ Number_toString (score review);
     card_content := content review;
     card_author := author review;
     card_updated := updated review |}.

(** The block [{selectedAppId && (...)}], with the message shown when
    there are no reviews. *)
Definition reviews_slot (empty_message : string) (selectedAppId : option number)
  (reviews : list Review) : slot section :=
  match selectedAppId with
  | None => Absent
  | Some n =>
      if truthy n then
        Shown
          {| heading := "Reviews for App ID: " ++ Number_toString n;
             refresh_line :=
               "Reviews are automatically refreshed every "
               ++ Number_toString (Fin (REFRESH_INTERVAL / 1000)) ++ " seconds";
             body :=
               match reviews with
               | [] => NoReviews empty_message
               | _ =>
                   Found ("Found "
                          ++ Number_toString (Fin (Z.of_nat (List.length reviews)))
                          ++ " reviews:")
                     (map review_card reviews)
               end |}
      else Bare (Number_toString n)
  end.

(** The plain component. *)
Record plain_page : Type := mkPlainPage {
  error_line : slot string;
  loading_line : bool;
  chooser : option select_view;
  reviews_section : slot section
}.

Definition render_plain (st : Plain.state) : plain_page :=
  {| error_line :=
       match Plain.error st with
       | Some e => if truthy_text (Some e) then Shown ("Error: " ++ e) else Absent
       | None => Absent
       end;
     loading_line := Plain.loadingApps st;
     chooser :=
       if negb (Plain.loadingApps st) && (0 <? List.length (Plain.apps st))%nat
       then Some (app_select (Plain.selectedAppId st) (Plain.apps st))
       else None;
     reviews_section :=
       reviews_slot "No reviews found for this app."
         (Plain.selectedAppId st) (Plain.reviews st) |}.

(** The controls of the component with the custom id form: the select
    when there are apps, the custom input and the filter input. *)
Record controls : Type := mkControls {
  ctl_chooser : option select_view;
  ctl_custom : string;
  ctl_days : string
}.

Inductive filter_page : Type :=
| ErrorOnly (text : string)
| Page (loading : bool) (form : option controls) (reviews : slot section).

(** The component with the custom id form returns the error alone when
    [error] is truthy. *)
Definition render_filter (st : Filter.state) : filter_page :=
  if truthy_text (Filter.error st) then
    ErrorOnly ("Error: " ++ match Filter.error st with Some e => e | None => "" end)
  else
    Page (Filter.loadingApps st)
      (if negb (Filter.loadingApps st) then
         Some {| ctl_chooser :=
                   if (0 <? List.length (Filter.apps st))%nat
                   then Some (app_select (Filter.selectedAppId st) (Filter.apps st))
                   else None;
                 ctl_custom := Filter.customAppId st;
                 ctl_days := Number_toString (Filter.reviewFilterDays st) |}
       else None)
      (reviews_slot
         "No reviews found for this app. Try to increase the filter hours or another App ID."
         (Filter.selectedAppId st) (Filter.reviews st)).

End View.

(** * Properties *)

(** ** Digits, parsing and printing *)

Section DigitFacts.

Lemma append_assoc (s1 s2 s3 : string) : (s1 ++ s2) ++ s3 = s1 ++ (s2 ++ s3).
Proof. induction s1 as [| c s1 IH]; simpl; [reflexivity | rewrite IH; reflexivity]. Qed.

Lemma append_nil_r (s : string) : s ++ "" = s.
Proof. induction s as [| c s IH]; simpl; [reflexivity | rewrite IH; reflexivity]. Qed.

Lemma digit_char_spec (d : Z) :
  0 <= d < 10 ->
  is_digit (digit_char d) = true /\ digit_value (digit_char d) = d.
Proof.
  intros Hd.
  assert (Hc : d = 0 \/ d = 1 \/ d = 2 \/ d = 3 \/ d = 4 \/ d = 5 \/ d = 6
               \/ d = 7 \/ d = 8 \/ d = 9) by lia.
  repeat (destruct Hc as [-> | Hc]; [split; reflexivity |]).
  subst d; split; reflexivity.
Qed.

Lemma is_digit_plain (c : ascii) :
  is_digit c = true ->
  is_whitespace c = false /\ Ascii.eqb c "-" = false /\ Ascii.eqb c "+" = false.
Proof.
  destruct c as [[] [] [] [] [] [] [] []]; cbv; intros H;
    try discriminate H; repeat split.
Qed.

Lemma digits_value_app (s1 s2 : string) (a : Z) :
  digits_value a (s1 ++ s2) = digits_value (digits_value a s1) s2.
Proof.
  revert a; induction s1 as [| c s1 IH]; intros a; simpl; [reflexivity | apply IH].
Qed.

Lemma all_digits_app (s1 s2 : string) :
  all_digits (s1 ++ s2) = all_digits s1 && all_digits s2.
Proof.
  induction s1 as [| c s1 IH]; simpl; [reflexivity |].
  rewrite IH, andb_assoc; reflexivity.
Qed.

Lemma decimal_aux_acc (fuel : nat) (n : Z) (acc : string) :
  decimal_aux fuel n acc = decimal_aux fuel n "" ++ acc.
Proof.
  revert n acc; induction fuel as [| fuel IH]; intros n acc; simpl; [reflexivity |].
  destruct (n <? 10); [reflexivity |].
  rewrite (IH _ (String _ acc)), (IH _ (String _ "")).
  rewrite append_assoc; reflexivity.
Qed.

Lemma div10_fuel (fuel : nat) (n : Z) :
  10 <= n -> n < 2 ^ Z.of_nat (S fuel) ->
  0 < n / 10 /\ n / 10 < 2 ^ Z.of_nat fuel /\ (0 < fuel)%nat.
Proof.
  intros Hn Hlt.
  rewrite Nat2Z.inj_succ, Z.pow_succ_r in Hlt by lia.
  assert (H1 : 0 < n / 10) by (apply Z.div_str_pos; lia).
  assert (H2 : n / 10 < 2 ^ Z.of_nat fuel)
    by (apply Z.div_lt_upper_bound; lia).
  repeat split; try assumption.
  destruct fuel; [simpl in H2; lia | lia].
Qed.

Lemma decimal_aux_fuel (f1 f2 : nat) (n : Z) (acc : string) :
  0 <= n -> (0 < f1)%nat -> (0 < f2)%nat ->
  n < 2 ^ Z.of_nat f1 -> n < 2 ^ Z.of_nat f2 ->
  decimal_aux f1 n acc = decimal_aux f2 n acc.
Proof.
  revert f2 n acc; induction f1 as [| f1 IH]; intros f2 n acc Hn H1 H2 B1 B2; [lia |].
  destruct f2 as [| f2]; [lia |]. simpl.
  destruct (Z.ltb_spec n 10) as [Hs | Hb]; [reflexivity |].
  destruct (div10_fuel f1 n Hb B1) as (? & ? & ?).
  destruct (div10_fuel f2 n Hb B2) as (? & ? & ?).
  apply IH; lia.
Qed.

Lemma decimal_fuel_ok (n : Z) :
  0 <= n -> n < 2 ^ Z.of_nat (S (Z.to_nat (Z.log2 n))).
Proof.
  intros Hn. rewrite Nat2Z.inj_succ, Z2Nat.id by apply Z.log2_nonneg.
  destruct (Z.eq_dec n 0) as [-> | Hz]; [reflexivity |].
  apply Z.log2_spec; lia.
Qed.

Lemma decimal_small (n : Z) :
  0 <= n < 10 -> decimal n = String (digit_char n) "".
Proof.
  intros Hn. unfold decimal. simpl.
  destruct (Z.ltb_spec n 10); [| lia].
  rewrite Z.mod_small by lia. reflexivity.
Qed.

Lemma decimal_step (n : Z) :
  10 <= n -> decimal n = decimal (n / 10) ++ String (digit_char (n mod 10)) "".
Proof.
  intros Hn. unfold decimal at 1. simpl.
  destruct (Z.ltb_spec n 10); [lia |].
  rewrite decimal_aux_acc. f_equal.
  pose proof (decimal_fuel_ok n ltac:(lia)) as B.
  destruct (div10_fuel _ n Hn B) as (? & ? & ?).
  apply decimal_aux_fuel; try lia.
  apply decimal_fuel_ok; lia.
Qed.

(** Induction on a non-negative integer through its decimal digits. *)
Lemma decimal_ind (P : Z -> Prop) :
  (forall n, 0 <= n < 10 -> P n) ->
  (forall n, 10 <= n -> P (n / 10) -> P n) ->
  forall n, 0 <= n -> P n.
Proof.
  intros Hs Hb n. induction n as [m IH] using (well_founded_induction (Z.lt_wf 0)).
  intros Hm. destruct (Z_lt_le_dec m 10) as [Hlt | Hge].
  - apply Hs; lia.
  - apply Hb; [assumption |].
    assert (0 <= m / 10 < m) by (split; [apply Z.div_pos; lia | apply Z.div_lt; lia]).
    apply IH; lia.
Qed.

Lemma decimal_digits (n : Z) : 0 <= n -> all_digits (decimal n) = true.
Proof.
  revert n; apply decimal_ind; intros n Hn.
  - rewrite decimal_small by assumption. simpl.
    rewrite (proj1 (digit_char_spec n Hn)). reflexivity.
  - intros IH. rewrite decimal_step, all_digits_app, IH by assumption. simpl.
    rewrite (proj1 (digit_char_spec (n mod 10) ltac:(apply Z.mod_pos_bound; lia))).
    reflexivity.
Qed.

Lemma decimal_value (n : Z) : 0 <= n -> digits_value 0 (decimal n) = n.
Proof.
  revert n; apply decimal_ind; intros n Hn.
  - rewrite decimal_small by assumption. simpl.
    rewrite (proj2 (digit_char_spec n Hn)). lia.
  - intros IH. rewrite decimal_step, digits_value_app, IH by assumption. simpl.
    rewrite (proj2 (digit_char_spec (n mod 10) ltac:(apply Z.mod_pos_bound; lia))).
    pose proof (Z.div_mod n 10 ltac:(lia)). lia.
Qed.

Lemma decimal_nonempty (n : Z) : decimal n <> "".
Proof.
  unfold decimal. simpl. destruct (n <? 10); [discriminate |].
  rewrite decimal_aux_acc. destruct (decimal_aux _ _ ""); discriminate.
Qed.

Lemma zeros_snoc (j : nat) : zeros (S j) = zeros j ++ "0".
Proof. induction j as [| j IH]; [reflexivity |]. simpl in *. rewrite IH at 1. reflexivity. Qed.

Lemma decimal_times_pow10 (s : Z) (j : nat) :
  0 < s -> decimal (s * 10 ^ Z.of_nat j) = decimal s ++ zeros j.
Proof.
  intros Hs. induction j as [| j IH].
  - simpl. rewrite Z.mul_1_r, append_nil_r. reflexivity.
  - rewrite zeros_snoc, <- append_assoc, <- IH.
    rewrite Nat2Z.inj_succ, Z.pow_succ_r by lia.
    assert (Hp : 0 < 10 ^ Z.of_nat j) by (apply Z.pow_pos_nonneg; lia).
    rewrite decimal_step by nia.
    replace (s * (10 * 10 ^ Z.of_nat j)) with (s * 10 ^ Z.of_nat j * 10) by lia.
    rewrite Z.div_mul, Z.mod_mul by lia. reflexivity.
Qed.

End DigitFacts.

(** ** Doubles and the text of a Number *)

Section NumberFacts.

Lemma roundToDouble_safe (m : Z) :
  0 <= m <= MAX_SAFE_INTEGER -> roundToDouble m = Fin m.
Proof.
  intros [H0 H1]. unfold roundToDouble, MAX_SAFE_INTEGER in *.
  destruct (Z.leb_spec (Z.log2 m + 1) 53) as [_ | Hb]; [reflexivity |].
  exfalso. destruct (Z.eq_dec m 0) as [-> | Hz]; [simpl in Hb; lia |].
  assert (Z.log2 m < 53) by (apply Z.log2_lt_pow2; lia). lia.
Qed.

(** Only a safe integer itself rounds to a safe integer. *)
Lemma roundToDouble_inv (m x : Z) :
  0 <= m -> roundToDouble m = Fin x -> x < 2 ^ 53 -> m = x.
Proof.
  intros Hm Hr Hx. unfold roundToDouble in Hr.
  destruct (Z.leb_spec (Z.log2 m + 1) 53) as [_ | Hb]; [congruence |].
  exfalso.
  set (sh := Z.log2 m + 1 - 53) in *.
  assert (Hsh : 1 <= sh) by (unfold sh; lia).
  assert (Hpos : 0 < m) by (destruct (Z.eq_dec m 0) as [-> | ]; [simpl in Hb |]; lia).
  pose proof (Z.log2_spec m Hpos) as [Hlo _].
  replace (Z.log2 m) with (52 + sh) in Hlo by (unfold sh; lia).
  rewrite Z.pow_add_r in Hlo by lia.
  assert (Hp : 0 < 2 ^ sh) by (apply Z.pow_pos_nonneg; lia).
  assert (Hq : 2 ^ 52 <= Z.shiftr m sh).
  { rewrite Z.shiftr_div_pow2 by lia. apply Z.div_le_lower_bound; lia. }
  assert (H2 : 2 <= 2 ^ sh).
  { change 2 with (2 ^ 1) at 1. apply Z.pow_le_mono_r; lia. }
  set (q := Z.shiftr m sh) in *.
  destruct ((2 ^ (sh - 1) <? m - Z.shiftl q sh)
            || ((m - Z.shiftl q sh =? 2 ^ (sh - 1)) && Z.odd q));
    destruct (2 ^ 1024 <=? _); try discriminate Hr;
    injection Hr as <-; rewrite Z.shiftl_mul_pow2 in Hx by lia;
    change (2 ^ 53) with (2 ^ 52 * 2) in Hx; nia.
Qed.

Lemma num_digits_aux_spec (fuel : nat) (n : Z) :
  0 < n -> n < 2 ^ Z.of_nat fuel ->
  let d := num_digits_aux fuel n in
  1 <= d /\ 10 ^ (d - 1) <= n < 10 ^ d.
Proof.
  revert n; induction fuel as [| fuel IH]; intros n Hn Hf; [simpl in Hf; lia |].
  simpl. destruct (Z.ltb_spec n 10) as [Hs | Hb]; [simpl; lia |].
  destruct (div10_fuel fuel n Hb Hf) as (H1 & H2 & _).
  specialize (IH _ H1 H2). simpl in IH. destruct IH as (Hd & Hlo & Hhi).
  set (d := num_digits_aux fuel (n / 10)) in *.
  replace (1 + d - 1) with (Z.succ (d - 1)) by lia.
  replace (1 + d) with (Z.succ d) by lia.
  rewrite !Z.pow_succ_r by lia.
  pose proof (Z.div_mod n 10 ltac:(lia)).
  pose proof (Z.mod_pos_bound n 10 ltac:(lia)). lia.
Qed.

Lemma num_digits_spec (n : Z) :
  0 < n -> 1 <= num_digits n /\ 10 ^ (num_digits n - 1) <= n < 10 ^ num_digits n.
Proof.
  intros Hn. apply num_digits_aux_spec; [assumption |].
  apply decimal_fuel_ok; lia.
Qed.

Lemma rounds_to_safe (m x : Z) :
  0 <= m -> x < 2 ^ 53 -> rounds_to m x = true -> m = x.
Proof.
  intros Hm Hx Hr. unfold rounds_to in Hr.
  apply bool_decide_eq_true in Hr. eapply roundToDouble_inv; eassumption.
Qed.

(** For a safe [x] a candidate is an exact divisor of [x]. *)
Lemma candidate_safe (x d k s : Z) :
  0 < x < 2 ^ 53 -> 0 <= d - k ->
  candidate x d k = Some s -> s * 10 ^ (d - k) = x.
Proof.
  intros Hx Hk. unfold candidate.
  set (p := 10 ^ (d - k)).
  assert (Hp : 0 < p) by (apply Z.pow_pos_nonneg; lia).
  pose proof (Z.div_mod x p ltac:(lia)) as Hdm.
  pose proof (Z.mod_pos_bound x p Hp) as Hmod.
  assert (Hlo : 0 <= x / p) by (apply Z.div_pos; lia).
  destruct (rounds_to (x / p * p) x) eqn:Elo.
  - apply rounds_to_safe in Elo; [| nia | lia].
    destruct ((x / p + 1 <? 10 ^ k) && rounds_to ((x / p + 1) * p) x) eqn:Ehi.
    + apply andb_true_iff in Ehi as [_ Ehi].
      apply rounds_to_safe in Ehi; [| nia | lia]. nia.
    + intros [= <-]. assumption.
  - destruct ((x / p + 1 <? 10 ^ k) && rounds_to ((x / p + 1) * p) x) eqn:Ehi;
      [| discriminate].
    apply andb_true_iff in Ehi as [_ Ehi].
    apply rounds_to_safe in Ehi; [| nia | lia]. nia.
Qed.

Lemma shortest_from_safe (fuel : nat) (x d k : Z) :
  0 < x < 2 ^ 53 -> k + Z.of_nat fuel = d ->
  let '(s, k') := shortest_from fuel x d k in
  s * 10 ^ (d - k') = x /\ k <= k' <= d.
Proof.
  intros Hx. revert k; induction fuel as [| fuel IH]; intros k Hk; simpl.
  - replace (d - d) with 0 by lia. lia.
  - destruct (candidate x d k) as [s |] eqn:Ec.
    + apply candidate_safe in Ec; [| assumption | lia]. lia.
    + specialize (IH (k + 1) ltac:(lia)).
      destruct (shortest_from fuel x d (k + 1)) as [s k']. lia.
Qed.

(** A positive safe integer prints as its decimal digits. *)
Lemma toString_pos_safe (x : Z) :
  0 < x <= MAX_SAFE_INTEGER -> toString_pos x = decimal x.
Proof.
  unfold MAX_SAFE_INTEGER. intros Hx.
  assert (Hx' : 0 < x < 2 ^ 53) by lia.
  destruct (num_digits_spec x ltac:(lia)) as (Hd & Hlo & Hhi).
  unfold toString_pos, shortest.
  set (d := num_digits x) in *.
  destruct (rounds_to (10 ^ d) x) eqn:Er.
  { apply rounds_to_safe in Er; lia. }
  pose proof (shortest_from_safe (Z.to_nat (d - 1)) x d 1 Hx' ltac:(lia)) as Hs.
  destruct (shortest_from (Z.to_nat (d - 1)) x d 1) as [s k].
  destruct Hs as [Hs Hk].
  assert (Hd21 : d <= 21).
  { destruct (Z_le_gt_dec d 21) as [| Hgt]; [assumption | exfalso].
    assert (10 ^ 21 <= 10 ^ (d - 1)) by (apply Z.pow_le_mono_r; lia).
    assert (2 ^ 53 < 10 ^ 21) by reflexivity. lia. }
  destruct (Z.leb_spec d 21); [| lia].
  assert (Hs0 : 0 < s).
  { assert (0 < 10 ^ (d - k)) by (apply Z.pow_pos_nonneg; lia). nia. }
  rewrite <- decimal_times_pow10 by assumption.
  rewrite Z2Nat.id by lia. rewrite Hs. reflexivity.
Qed.

Lemma Number_toString_safe (z : Z) :
  0 <= z <= MAX_SAFE_INTEGER -> Number_toString (Fin z) = decimal z.
Proof.
  intros Hz. unfold Number_toString.
  destruct (Z.eqb_spec z 0) as [-> | Hne]; [reflexivity |].
  destruct (Z.ltb_spec z 0); [lia |].
  apply toString_pos_safe; lia.
Qed.

(** The digits that [shortest] returns do round to [x]. *)
Lemma candidate_rounds (x d k s : Z) :
  0 < x -> 0 <= d - k -> 10 ^ (d - 1) <= x -> 1 <= k ->
  candidate x d k = Some s ->
  0 < s /\ rounds_to (s * 10 ^ (d - k)) x = true.
Proof.
  intros Hx Hk Hd Hk1. unfold candidate.
  set (p := 10 ^ (d - k)).
  assert (Hp : 0 < p) by (apply Z.pow_pos_nonneg; lia).
  assert (Hpx : p <= x).
  { transitivity (10 ^ (d - 1)); [apply Z.pow_le_mono_r; lia | assumption]. }
  assert (Hlo : 1 <= x / p) by (apply Z.div_le_lower_bound; lia).
  destruct (rounds_to (x / p * p) x) eqn:Elo;
    destruct ((x / p + 1 <? 10 ^ k) && rounds_to ((x / p + 1) * p) x) eqn:Ehi;
    try discriminate.
  - apply andb_true_iff in Ehi as [_ Ehi].
    destruct (x - x / p * p <? (x / p + 1) * p - x);
      [| destruct ((x / p + 1) * p - x <? x - x / p * p);
         [| destruct (Z.even (x / p))]];
      intros [= <-]; split; (lia || assumption).
  - intros [= <-]. split; [lia | assumption].
  - apply andb_true_iff in Ehi as [_ Ehi].
    intros [= <-]. split; [lia | assumption].
Qed.

Lemma shortest_from_rounds (fuel : nat) (x d k : Z) :
  0 < x -> representable x -> 10 ^ (d - 1) <= x -> 1 <= k ->
  k + Z.of_nat fuel = d ->
  let '(s, k') := shortest_from fuel x d k in
  0 < s /\ k <= k' <= d /\ rounds_to (s * 10 ^ (d - k')) x = true.
Proof.
  intros Hx Hr Hd. revert k; induction fuel as [| fuel IH]; intros k Hk1 Hk; simpl.
  - replace (d - d) with 0 by lia. rewrite Z.mul_1_r.
    split; [assumption |]. split; [lia |].
    unfold rounds_to. apply bool_decide_eq_true. exact Hr.
  - destruct (candidate x d k) as [s |] eqn:Ec.
    + apply candidate_rounds in Ec; try lia. destruct Ec. repeat split; (lia || assumption).
    + specialize (IH (k + 1) ltac:(lia) ltac:(lia)).
      destruct (shortest_from fuel x d (k + 1)) as [s k'].
      destruct IH as (? & ? & ?). repeat split; (lia || assumption).
Qed.

(** Below 10^21 the text of a double is a run of digits, and reading
    it back gives the double. *)
Lemma toString_pos_reads_back (x : Z) :
  0 < x < 10 ^ 21 -> representable x ->
  toString_pos x <> "" /\ all_digits (toString_pos x) = true /\
  roundToDouble (digits_value 0 (toString_pos x)) = Fin x.
Proof.
  intros Hx Hr.
  destruct (num_digits_spec x ltac:(lia)) as (Hd & Hlo & Hhi).
  assert (Hd21 : num_digits x <= 21).
  { destruct (Z_le_gt_dec (num_digits x) 21) as [| Hgt]; [assumption | exfalso].
    assert (10 ^ 21 <= 10 ^ (num_digits x - 1)) by (apply Z.pow_le_mono_r; lia). lia. }
  assert (Hgen : forall s k n,
             0 < s -> 1 <= k <= n -> n <= 21 -> rounds_to (s * 10 ^ (n - k)) x = true ->
             let text := decimal s ++ zeros (Z.to_nat (n - k)) in
             text <> "" /\ all_digits text = true /\
             roundToDouble (digits_value 0 text) = Fin x).
  { intros s k n Hs Hk Hn Hrt. cbv zeta.
    rewrite <- decimal_times_pow10 by assumption. rewrite Z2Nat.id by lia.
    assert (0 < 10 ^ (n - k)) by (apply Z.pow_pos_nonneg; lia).
    split; [apply decimal_nonempty |]. split; [apply decimal_digits; nia |].
    rewrite decimal_value by nia.
    unfold rounds_to in Hrt. apply bool_decide_eq_true in Hrt. exact Hrt. }
  unfold toString_pos, shortest.
  set (d := num_digits x) in *.
  destruct (rounds_to (10 ^ d) x) eqn:Er.
  - assert (Hd20 : d <= 20).
    { destruct (Z.eq_dec d 21) as [E21 | ]; [exfalso | lia].
      rewrite E21 in Er. unfold rounds_to in Er. apply bool_decide_eq_true in Er.
      assert (Hc : roundToDouble (10 ^ 21) = Fin (10 ^ 21)) by (vm_compute; reflexivity).
      rewrite Hc in Er. injection Er as Er. lia. }
    destruct (Z.leb_spec (d + 1) 21); [| lia].
    apply (Hgen 1 1 (d + 1)); try lia.
    replace (d + 1 - 1) with d by lia. rewrite Z.mul_1_l. exact Er.
  - pose proof (shortest_from_rounds (Z.to_nat (d - 1)) x d 1
                  ltac:(lia) Hr Hlo ltac:(lia) ltac:(lia)) as Hs.
    destruct (shortest_from (Z.to_nat (d - 1)) x d 1) as [s k].
    destruct Hs as (Hs & Hk & Hrt).
    destruct (Z.leb_spec d 21); [| lia].
    apply (Hgen s k d); (lia || assumption).
Qed.

Lemma span_digits_all (s : string) :
  all_digits s = true -> span_digits s = (s, "").
Proof.
  induction s as [| c s IH]; simpl; [reflexivity |].
  intros H. apply andb_true_iff in H as [Hc Hs].
  rewrite Hc, (IH Hs). reflexivity.
Qed.

(** [parseInt] on a non-empty run of digits. *)
Lemma parseInt_digits (ds : string) :
  ds <> "" -> all_digits ds = true ->
  parseInt ds = roundToDouble (digits_value 0 ds).
Proof.
  intros Hne Hd. unfold parseInt.
  destruct ds as [| c ds]; [congruence |].
  simpl in Hd. apply andb_true_iff in Hd as [Hc Hds].
  destruct (is_digit_plain c Hc) as (Hw & Hm & Hp).
  simpl trim_start. rewrite Hw, Hm, Hp.
  rewrite span_digits_all by (simpl; rewrite Hc, Hds; reflexivity).
  reflexivity.
Qed.

Lemma parseInt_decimal (z : Z) :
  0 <= z <= MAX_SAFE_INTEGER -> parseInt (decimal z) = Fin z.
Proof.
  intros Hz. rewrite parseInt_digits.
  - rewrite decimal_value by lia. apply roundToDouble_safe; assumption.
  - apply decimal_nonempty.
  - apply decimal_digits; lia.
Qed.

End NumberFacts.

(** ** The pattern of the URL *)

Section PatternFacts.

Lemma strip_prefix_spec (p s r : string) :
  strip_prefix p s = Some r <-> s = p ++ r.
Proof.
  revert s; induction p as [| a p IH]; intros s; simpl.
  - split; congruence.
  - destruct s as [| b s]; [split; discriminate |].
    destruct (Ascii.eqb_spec a b) as [<- | Hne].
    + rewrite IH. split; congruence.
    + split; [discriminate | congruence].
Qed.

Lemma span_digits_spec (s : string) :
  s = fst (span_digits s) ++ snd (span_digits s) /\
  all_digits (fst (span_digits s)) = true /\
  no_leading_digit (snd (span_digits s)) = true.
Proof.
  induction s as [| c s IH]; simpl; [auto |].
  destruct (is_digit c) eqn:Ec.
  - destruct (span_digits s) as [ds rest]. simpl in *.
    destruct IH as (-> & Hd & Hr). rewrite Ec. auto.
  - simpl. rewrite Ec. auto.
Qed.

Lemma span_digits_unique (ds rest : string) :
  all_digits ds = true -> no_leading_digit rest = true ->
  span_digits (ds ++ rest) = (ds, rest).
Proof.
  intros Hd Hr. induction ds as [| c ds IH]; simpl.
  - destruct rest as [| c rest]; [reflexivity |]. simpl in *.
    apply negb_true_iff in Hr. rewrite Hr. reflexivity.
  - simpl in Hd. apply andb_true_iff in Hd as [Hc Hd].
    rewrite Hc, (IH Hd). reflexivity.
Qed.

Lemma match_here_found (ds post : string) :
  ds <> "" -> all_digits ds = true -> no_leading_digit post = true ->
  match_here ("/app/" ++ ds ++ post) = Some ds.
Proof.
  intros Hne Hd Hp. unfold match_here.
  replace (strip_prefix "/app/" ("/app/" ++ ds ++ post)) with (Some (ds ++ post))
    by (symmetry; apply strip_prefix_spec; reflexivity).
  rewrite span_digits_unique by assumption. simpl.
  destruct ds; congruence.
Qed.

Lemma match_here_occurs (s : string) :
  match_here s = None <-> ~ occurs_at s 0.
Proof.
  unfold match_here, occurs_at. split.
  - intros Hm (pre & c & rest & -> & Hlen & Hc).
    destruct pre; [| discriminate]. simpl append at 1 in Hm.
    replace (strip_prefix "/app/" ("/app/" ++ String c rest))
      with (Some (String c rest)) in Hm
      by (symmetry; apply strip_prefix_spec; reflexivity).
    simpl in Hm. rewrite Hc in Hm.
    destruct (span_digits rest); discriminate.
  - intros Hno. destruct (strip_prefix "/app/" s) as [r |] eqn:Es; [| reflexivity].
    apply strip_prefix_spec in Es.
    destruct r as [| c r]; [reflexivity |]. simpl.
    destruct (is_digit c) eqn:Ec; [| reflexivity].
    exfalso. apply Hno. exists "", c, r. auto.
Qed.

Lemma match_here_some (s ds : string) :
  match_here s = Some ds -> occurs_at s 0.
Proof.
  unfold match_here. intros Hm.
  destruct (strip_prefix "/app/" s) as [r |] eqn:Es; [| discriminate].
  apply strip_prefix_spec in Es.
  destruct r as [| c r]; [discriminate |]. simpl in Hm.
  destruct (is_digit c) eqn:Ec; [| discriminate].
  exists "", c, r. auto.
Qed.

Lemma occurs_at_shift (c : ascii) (s : string) (i : nat) :
  occurs_at (String c s) (S i) <-> occurs_at s i.
Proof.
  unfold occurs_at. split.
  - intros (pre & d & rest & Heq & Hlen & Hd).
    destruct pre as [| a pre]; [discriminate |].
    injection Heq as -> ->. injection Hlen as Hlen.
    exists pre, d, rest. auto.
  - intros (pre & d & rest & -> & Hlen & Hd).
    exists (String c pre), d, rest. simpl. auto.
Qed.

Lemma match_app_unfold (c : ascii) (s : string) :
  match_app (String c s) =
  match match_here (String c s) with
  | Some ds => Some ds
  | None => match_app s
  end.
Proof. reflexivity. Qed.

Lemma match_app_here (s ds : string) :
  match_here s = Some ds -> match_app s = Some ds.
Proof.
  intros Hm. destruct s as [| c s]; [discriminate Hm |].
  rewrite match_app_unfold, Hm. reflexivity.
Qed.

Lemma match_app_none (s : string) :
  match_app s = None <-> forall i, ~ occurs_at s i.
Proof.
  induction s as [| c s IH].
  - split; [| reflexivity].
    intros _ i (pre & d & rest & Heq & _). destruct pre; discriminate.
  - rewrite match_app_unfold.
    destruct (match_here (String c s)) as [ds |] eqn:Em.
    + split; [discriminate |]. intros Hall. exfalso.
      apply (Hall O). eapply match_here_some; eassumption.
    + rewrite IH. split.
      * intros Hall [| i]; [apply match_here_occurs; assumption |].
        rewrite occurs_at_shift. apply Hall.
      * intros Hall i. rewrite <- (occurs_at_shift c). apply Hall.
Qed.

Lemma match_app_first (pre ds post : string) :
  ds <> "" -> all_digits ds = true -> no_leading_digit post = true ->
  (forall i, (i < String.length pre)%nat ->
             ~ occurs_at (pre ++ "/app/" ++ ds ++ post) i) ->
  match_app (pre ++ "/app/" ++ ds ++ post) = Some ds.
Proof.
  intros Hne Hd Hp. induction pre as [| c pre IH]; intros Hfirst.
  - apply match_app_here, match_here_found; assumption.
  - set (tail := "/app/" ++ ds ++ post) in *.
    change (String c pre ++ tail) with (String c (pre ++ tail)) in *.
    rewrite match_app_unfold.
    assert (H0 : match_here (String c (pre ++ tail)) = None).
    { apply match_here_occurs. apply (Hfirst O). simpl. lia. }
    rewrite H0. apply IH. intros i Hi.
    rewrite <- (occurs_at_shift c). apply Hfirst. simpl. lia.
Qed.

End PatternFacts.

(** ** Reading and writing the URL *)

Section UrlFacts.

Lemma digit_value_range (c : ascii) :
  is_digit c = true -> 0 <= digit_value c <= 9.
Proof.
  unfold is_digit, digit_value. intros H.
  apply andb_true_iff in H as [H1 H2].
  apply N.leb_le in H1, H2. lia.
Qed.

Lemma digits_value_nonneg (ds : string) (a : Z) :
  all_digits ds = true -> 0 <= a -> 0 <= digits_value a ds.
Proof.
  revert a; induction ds as [| c ds IH]; intros a Hd Ha; simpl; [assumption |].
  simpl in Hd. apply andb_true_iff in Hd as [Hc Hd].
  pose proof (digit_value_range c Hc). apply IH; [assumption | lia].
Qed.

Lemma match_app_decimal (z : Z) :
  0 <= z -> match_app ("/app/" ++ decimal z) = Some (decimal z).
Proof.
  intros Hz. apply match_app_here.
  rewrite <- (append_nil_r (decimal z)) at 1.
  apply match_here_found;
    [apply decimal_nonempty | apply decimal_digits; assumption | reflexivity].
Qed.

Lemma updateUrl_safe (z : Z) (b : browser) :
  0 < z <= MAX_SAFE_INTEGER ->
  updateUrl (Some (Fin z)) b = pushState ("/app/" ++ decimal z) b.
Proof.
  intros Hz. unfold updateUrl, truthy.
  destruct (Z.eqb_spec z 0); [lia |]. simpl negb. cbv iota.
  rewrite Number_toString_safe by lia. reflexivity.
Qed.

Lemma updateUrl_positive (z : Z) (b : browser) :
  0 < z ->
  updateUrl (Some (Fin z)) b = pushState ("/app/" ++ Number_toString (Fin z)) b.
Proof.
  intros Hz. unfold updateUrl, truthy.
  destruct (Z.eqb_spec z 0); [lia | reflexivity].
Qed.

Lemma submit_positive (st : Filter.state) (b : browser) (z : Z) :
  parseInt (Filter.customAppId st) = Fin z -> 0 < z ->
  Filter.handleCustomAppIdSubmit st b =
  (Filter.setCustomAppId "" (Filter.setSelectedAppId (Some (Fin z)) st),
   pushState ("/app/" ++ Number_toString (Fin z)) b).
Proof.
  intros Hp Hz. unfold Filter.handleCustomAppIdSubmit. rewrite Hp.
  cbn [isNaN gt_zero negb andb].
  destruct (Z.ltb_spec 0 z); [| lia].
  rewrite updateUrl_positive by assumption. reflexivity.
Qed.

Lemma getAppIdFromUrl_decimal (z : Z) (l : list string) :
  0 <= z <= MAX_SAFE_INTEGER ->
  getAppIdFromUrl (mkBrowser ("/app/" ++ decimal z) l) = Some (Fin z).
Proof.
  intros Hz. unfold getAppIdFromUrl. cbn [pathname].
  rewrite match_app_decimal by lia. rewrite parseInt_decimal by assumption.
  reflexivity.
Qed.

Lemma getAppIdFromUrl_reads_back (z : Z) (b : browser) :
  0 < z < 10 ^ 21 -> representable z ->
  getAppIdFromUrl (updateUrl (Some (Fin z)) b) = Some (Fin z).
Proof.
  intros Hz Hr. rewrite updateUrl_positive by lia.
  unfold getAppIdFromUrl, pushState. cbn [pathname].
  assert (Hs : Number_toString (Fin z) = toString_pos z).
  { unfold Number_toString. destruct (Z.eqb_spec z 0); [lia |].
    destruct (Z.ltb_spec z 0); [lia | reflexivity]. }
  rewrite Hs. destruct (toString_pos_reads_back z Hz Hr) as (Hne & Hd & Hv).
  rewrite (match_app_here ("/app/" ++ toString_pos z) (toString_pos z)).
  - rewrite parseInt_digits by assumption. rewrite Hv. reflexivity.
  - rewrite <- (append_nil_r (toString_pos z)) at 1.
    apply match_here_found; [assumption | assumption | reflexivity].
Qed.

End UrlFacts.

(** C10, as amended.  [getAppIdFromUrl] is a total function of the path.
    It returns null exactly when ["/app/"] followed by a digit occurs
    nowhere in the path.  Otherwise it takes the first such occurrence,
    wherever it stands in the path, reads the whole run of digits after
    ["/app/"], and returns the double nearest to their base-10 value;
    that is the value itself whenever it does not exceed 2^53 - 1. *)
Theorem getAppIdFromUrl_first_occurrence :
  (forall b, getAppIdFromUrl b = None <-> forall i, ~ occurs_at (pathname b) i) /\
  (forall b pre ds post,
      pathname b = pre ++ "/app/" ++ ds ++ post ->
      ds <> "" -> all_digits ds = true -> no_leading_digit post = true ->
      (forall i, (i < String.length pre)%nat -> ~ occurs_at (pathname b) i) ->
      getAppIdFromUrl b = Some (roundToDouble (digits_value 0 ds)) /\
      (digits_value 0 ds <= MAX_SAFE_INTEGER ->
       getAppIdFromUrl b = Some (Fin (digits_value 0 ds)))).
Proof.
  split.
  - intros b. unfold getAppIdFromUrl. rewrite <- match_app_none.
    destruct (match_app (pathname b)); split; congruence.
  - intros b pre ds post Hpath Hne Hd Hp Hfirst.
    assert (Hr : getAppIdFromUrl b = Some (roundToDouble (digits_value 0 ds))).
    { unfold getAppIdFromUrl. rewrite Hpath in *.
      rewrite match_app_first by assumption.
      rewrite parseInt_digits by assumption. reflexivity. }
    split; [assumption |]. intros Hsafe.
    rewrite Hr, roundToDouble_safe; [reflexivity |].
    split; [apply digits_value_nonneg; [assumption | lia] | assumption].
Qed.

Lemma getAppIdFromUrl_first_occurrence_witness :
  getAppIdFromUrl (mkBrowser "/x/app/12/y" []) = Some (Fin 12).
Proof.
  refine (proj2 (proj2 getAppIdFromUrl_first_occurrence
                   (mkBrowser "/x/app/12/y" []) "/x" "12" "/y"
                   eq_refl _ eq_refl eq_refl _) _).
  - discriminate.
  - intros i Hi (pre & c & rest & Heq & Hlen & Hc). simpl in Hi, Heq.
    destruct pre as [| a [| a' pre]]; simpl in Hlen; try discriminate Heq; lia.
  - vm_compute. discriminate.
Defined.

(** C10 as stated fails on a long run of digits: the value read is a
    double, not the base-10 value of the digits. *)
Lemma getAppIdFromUrl_rounds :
  let b := mkBrowser "/app/9007199254740993" [] in
  pathname b = "" ++ "/app/" ++ "9007199254740993" ++ "" /\
  digits_value 0 "9007199254740993" = 9007199254740993 /\
  getAppIdFromUrl b = Some (Fin 9007199254740992) /\
  getAppIdFromUrl b <> Some (Fin (digits_value 0 "9007199254740993")).
Proof. vm_compute. repeat split; discriminate. Qed.

(** C2, as amended.  For every positive integer [appId] below 10^21
    that is a Number, [getAppIdFromUrl] on the path that
    [updateUrl(appId)] pushes returns [appId]; up to 2^53 - 1 that path
    is ["/app/"] followed by the decimal digits of [appId];
    [updateUrl(null)] pushes ["/"], on which [getAppIdFromUrl] returns
    null. *)
Theorem updateUrl_round_trip (b : browser) :
  (forall appId, 0 < appId < 10 ^ 21 -> representable appId ->
     getAppIdFromUrl (updateUrl (Some (Fin appId)) b) = Some (Fin appId)) /\
  (forall appId, 0 < appId <= MAX_SAFE_INTEGER ->
     let b' := updateUrl (Some (Fin appId)) b in
     pathname b' = "/app/" ++ decimal appId /\
     pushed b' = ("/app/" ++ decimal appId) :: pushed b /\
     getAppIdFromUrl b' = Some (Fin appId)) /\
  (let b' := updateUrl None b in
   pathname b' = "/" /\ pushed b' = "/" :: pushed b /\ getAppIdFromUrl b' = None).
Proof.
  split; [| split].
  - intros appId Hz Hr. apply getAppIdFromUrl_reads_back; assumption.
  - intros appId Hz. cbv zeta. rewrite updateUrl_safe by assumption.
    unfold pushState. cbn [pathname pushed].
    repeat split. apply getAppIdFromUrl_decimal. lia.
  - repeat split.
Qed.

Lemma updateUrl_round_trip_witness :
  pathname (updateUrl (Some (Fin 42)) (mkBrowser "/" [])) = "/app/42" /\
  getAppIdFromUrl (updateUrl (Some (Fin 42)) (mkBrowser "/" [])) = Some (Fin 42) /\
  getAppIdFromUrl (updateUrl (Some (Fin (2 ^ 60))) (mkBrowser "/" [])) = Some (Fin (2 ^ 60)).
Proof.
  destruct (proj1 (proj2 (updateUrl_round_trip (mkBrowser "/" []))) 42) as (H1 & _ & H3).
  - unfold MAX_SAFE_INTEGER. lia.
  - split; [exact H1 |]. split; [exact H3 |].
    apply (proj1 (updateUrl_round_trip (mkBrowser "/" [])) (2 ^ 60)).
    + split; reflexivity.
    + vm_compute. reflexivity.
Defined.

(** C2 as stated fails at 10^21, which a template literal renders in
    exponent notation. *)
Lemma updateUrl_exponent_notation :
  let b' := updateUrl (Some (Fin (10 ^ 21))) (mkBrowser "/" []) in
  roundToDouble (10 ^ 21) = Fin (10 ^ 21) /\
  pathname b' = "/app/1e+21" /\
  getAppIdFromUrl b' = Some (Fin 1) /\
  getAppIdFromUrl b' <> Some (Fin (10 ^ 21)).
Proof. vm_compute. repeat split; discriminate. Qed.

(** ** Submitting a custom app id *)

(** C9.  In the component with the custom id form, submitting an input
    that [parseInt] reads as NaN or as a number that is not strictly
    positive sets [error] to the message about a valid app id and leaves
    [selectedAppId], [customAppId] and the URL as they were; submitting
    an input that reads as a positive integer selects that id, empties
    the input and pushes ["/app/"] followed by the id as the template
    literal renders it (its decimal digits up to 2^53 - 1). *)
Theorem handleCustomAppIdSubmit_spec (st : Filter.state) (b : browser) :
  let appId := parseInt (Filter.customAppId st) in
  let st' := fst (Filter.handleCustomAppIdSubmit st b) in
  let b' := snd (Filter.handleCustomAppIdSubmit st b) in
  (appId = NaN \/ gt_zero appId = false ->
   Filter.error st' = Some "Please enter a valid app ID (positive number)" /\
   Filter.selectedAppId st' = Filter.selectedAppId st /\
   Filter.customAppId st' = Filter.customAppId st /\
   b' = b) /\
  (forall z, appId = Fin z -> 0 < z ->
   Filter.selectedAppId st' = Some (Fin z) /\
   Filter.customAppId st' = "" /\
   pathname b' = "/app/" ++ Number_toString (Fin z) /\
   pushed b' = ("/app/" ++ Number_toString (Fin z)) :: pushed b /\
   (z <= MAX_SAFE_INTEGER -> pathname b' = "/app/" ++ decimal z)).
Proof.
  cbv zeta. split.
  - intros Hbad. unfold Filter.handleCustomAppIdSubmit.
    assert (Hc : negb (isNaN (parseInt (Filter.customAppId st)))
                 && gt_zero (parseInt (Filter.customAppId st)) = false).
    { destruct Hbad as [-> | ->]; [reflexivity | apply andb_false_r]. }
    rewrite Hc. simpl. auto.
  - intros z Hz Hpos. rewrite (submit_positive st b z Hz Hpos).
    cbn [fst snd]. repeat split.
    intros Hs. rewrite Number_toString_safe by lia. reflexivity.
Qed.

Lemma handleCustomAppIdSubmit_spec_witness :
  let st := Filter.setCustomAppId "123456789" Filter.initial in
  let b := mkBrowser "/" [] in
  Filter.selectedAppId (fst (Filter.handleCustomAppIdSubmit st b)) = Some (Fin 123456789) /\
  pathname (snd (Filter.handleCustomAppIdSubmit st b)) = "/app/123456789" /\
  Filter.error (fst (Filter.handleCustomAppIdSubmit
                       (Filter.setCustomAppId "-4" Filter.initial) b))
  = Some "Please enter a valid app ID (positive number)".
Proof.
  cbv zeta.
  pose proof (proj2 (handleCustomAppIdSubmit_spec
                       (Filter.setCustomAppId "123456789" Filter.initial)
                       (mkBrowser "/" [])) 123456789 eq_refl eq_refl) as (H1 & _ & H3 & _).
  pose proof (proj1 (handleCustomAppIdSubmit_spec
                       (Filter.setCustomAppId "-4" Filter.initial)
                       (mkBrowser "/" [])) (or_intror eq_refl)) as (H4 & _).
  exact (conj H1 (conj H3 H4)).
Defined.

(** ** The URL and the selection *)

(** C1, as amended.  [selectedAppId] follows the URL in these cases, and
    [getAppIdFromUrl] is null exactly when the path has no ["/app/"]
    followed by a digit (C10).  In the plain component: after every
    [popstate], [selectedAppId] is the id read from the URL; after a
    load of the app list that succeeds, it is the id read from the URL
    when that id is neither absent nor zero.  In the component with the
    custom id form: a [popstate], and likewise a successful load, select
    the id read from the URL only when it is not zero and is the id of
    an app of the list; otherwise a [popstate] sets [selectedAppId] to
    null and a load leaves it as it was.  On a [popstate] the custom
    input receives the digits of an id that is not zero and not in the
    list, and is emptied in every other case.  In both components,
    selecting from the dropdown a positive integer below 10^21 that is
    a Number, or submitting one in the custom form, leaves
    [selectedAppId] equal to the id read from the pushed URL. *)
Theorem selection_follows_url :
  (forall st path b,
      let b' := traverse path b in
      Plain.selectedAppId (Plain.handlePopState b' st) = getAppIdFromUrl b') /\
  (forall st b response n,
      getAppIdFromUrl b = Some n -> truthy n = true ->
      Plain.selectedAppId (Plain.fetchApps_resume (Fulfilled response) b st)
      = getAppIdFromUrl b) /\
  (forall st path b,
      let b' := traverse path b in
      Filter.selectedAppId (Filter.handlePopState b' st) =
      match getAppIdFromUrl b' with
      | Some n => if truthy n && Filter.appExists (Filter.apps st) n
                  then Some n else None
      | None => None
      end) /\
  (forall st b response,
      Filter.selectedAppId (Filter.fetchApps_resume (Fulfilled response) b st) =
      match getAppIdFromUrl b with
      | Some n => if truthy n && Filter.appExists (Service.apps_items response) n
                  then Some n else Filter.selectedAppId st
      | None => Filter.selectedAppId st
      end) /\
  (forall st b z,
      0 < z < 10 ^ 21 -> representable z ->
      let '(st', b') := Plain.handleAppSelect (Fin z) st b in
      Plain.selectedAppId st' = getAppIdFromUrl b' /\
      getAppIdFromUrl b' = Some (Fin z)) /\
  (forall st b z,
      0 < z < 10 ^ 21 -> representable z ->
      let '(st', b') := Filter.handleAppSelect (Fin z) st b in
      Filter.selectedAppId st' = getAppIdFromUrl b' /\
      getAppIdFromUrl b' = Some (Fin z)) /\
  (forall st b z,
      parseInt (Filter.customAppId st) = Fin z ->
      0 < z < 10 ^ 21 -> representable z ->
      let '(st', b') := Filter.handleCustomAppIdSubmit st b in
      Filter.selectedAppId st' = getAppIdFromUrl b' /\
      getAppIdFromUrl b' = Some (Fin z)) /\
  (forall st path b,
      let b' := traverse path b in
      Filter.customAppId (Filter.handlePopState b' st) =
      match getAppIdFromUrl b' with
      | Some n => if truthy n && negb (Filter.appExists (Filter.apps st) n)
                  then Number_toString n else ""
      | None => ""
      end).
Proof.
  repeat apply conj.
  - reflexivity.
  - intros st b response n Hn Ht. unfold Plain.fetchApps_resume.
    rewrite Hn. simpl. rewrite Ht. reflexivity.
  - intros st path b. cbv zeta. unfold Filter.handlePopState.
    destruct (getAppIdFromUrl (traverse path b)) as [n |]; [| reflexivity].
    destruct (truthy n); [| reflexivity]. simpl.
    destruct (Filter.appExists (Filter.apps st) n); reflexivity.
  - intros st b response. unfold Filter.fetchApps_resume.
    destruct (getAppIdFromUrl b) as [n |]; [| reflexivity].
    destruct (truthy n); [| reflexivity]. simpl.
    destruct (Filter.appExists (Service.apps_items response) n); reflexivity.
  - intros st b z Hz Hr. unfold Plain.handleAppSelect.
    rewrite getAppIdFromUrl_reads_back by assumption. auto.
  - intros st b z Hz Hr. unfold Filter.handleAppSelect.
    rewrite getAppIdFromUrl_reads_back by assumption. auto.
  - intros st b z Hp Hz Hr. rewrite (submit_positive st b z Hp) by lia.
    rewrite <- updateUrl_positive by lia.
    rewrite getAppIdFromUrl_reads_back by assumption. auto.
  - intros st path b. cbv zeta. unfold Filter.handlePopState.
    destruct (getAppIdFromUrl (traverse path b)) as [n |]; [| reflexivity].
    destruct (truthy n); [| reflexivity]. simpl.
    destruct (Filter.appExists (Filter.apps st) n); reflexivity.
Qed.

Lemma selection_follows_url_witness :
  Plain.selectedAppId
    (Plain.fetchApps_resume (Fulfilled (Service.mkGetAppsResponse []))
       (mkBrowser "/app/7" []) Plain.initial) = Some (Fin 7) /\
  Plain.selectedAppId (fst (Plain.handleAppSelect (Fin 7) Plain.initial (mkBrowser "/" [])))
  = getAppIdFromUrl (snd (Plain.handleAppSelect (Fin 7) Plain.initial (mkBrowser "/" []))).
Proof.
  destruct selection_follows_url as (_ & Hload & _ & _ & Hsel & _).
  split.
  - exact (Hload Plain.initial (mkBrowser "/app/7" []) (Service.mkGetAppsResponse [])
             (Fin 7) eq_refl eq_refl).
  - specialize (Hsel Plain.initial (mkBrowser "/" []) 7).
    destruct (Plain.handleAppSelect (Fin 7) Plain.initial (mkBrowser "/" [])) as [st' b'].
    apply Hsel; [vm_compute; split; reflexivity | vm_compute; reflexivity].
Defined.

(** C1 as stated fails in the component with the custom id form: on a
    [popstate] to the path of an app that is not in the list the id goes
    to the input field, and [selectedAppId] is null while the URL holds
    an id. *)
Lemma popstate_unknown_app :
  let st := Filter.fetchApps_resume (Fulfilled Samples.apps_loaded) Samples.origin
              (Filter.fetchApps_begin Filter.initial) in
  let b' := traverse "/app/9" Samples.origin in
  let st' := Filter.handlePopState b' st in
  getAppIdFromUrl b' = Some (Fin 9) /\
  Filter.selectedAppId st' = None /\
  Filter.customAppId st' = "9" /\
  Filter.selectedAppId st' <> getAppIdFromUrl b'.
Proof. vm_compute. repeat split; discriminate. Qed.

(** ** The service *)

(** C6.  [apiRequest] on a response that is ok returns the decoded body;
    on status 422 it throws an [Error] whose message is
    ["Validation Error: "] followed by the [msg] fields of [detail]
    joined with a comma and a space; on any other status that is not ok
    it throws an [Error] with ["HTTP error! status: "] and the status;
    an [Error] thrown on the way is thrown again as it is, and any
    other thrown value becomes an [Error] with the message
    ["An unexpected error occurred"]. *)
Theorem apiRequest_spec (T : Type) (API_BASE_URL : string)
  (fetch : string -> outcome (Service.Response T)) (endpoint : string) :
  let result := Service.apiRequest API_BASE_URL fetch endpoint in
  (forall response,
      fetch (API_BASE_URL ++ endpoint) = Fulfilled response ->
      (Service.ok response = true ->
       forall v, Service.json response = Fulfilled v -> result = Fulfilled v) /\
      (Service.ok response = false -> Service.status response = 422 ->
       forall data, Service.errorData response = Fulfilled data ->
       result = Rejected (Error ("Validation Error: "
                                   ++ join ", " (map Service.msg (Service.detail data))))) /\
      (Service.ok response = false -> Service.status response <> 422 ->
       result = Rejected (Error ("HTTP error! status: "
                                   ++ Number_toString (Fin (Service.status response)))) /\
       (0 <= Service.status response <= MAX_SAFE_INTEGER ->
        result = Rejected (Error ("HTTP error! status: "
                                    ++ decimal (Service.status response)))))) /\
  (forall m, Service.apiRequest_try API_BASE_URL fetch endpoint = Rejected (Error m) ->
             result = Rejected (Error m)) /\
  (Service.apiRequest_try API_BASE_URL fetch endpoint = Rejected NotAnError ->
   result = Rejected (Error "An unexpected error occurred")) /\
  result <> Rejected NotAnError.
Proof.
  cbv zeta. unfold Service.apiRequest. repeat apply conj.
  - intros response Hf. unfold Service.apiRequest_try, Service.request_url.
    rewrite Hf. repeat apply conj.
    + intros Hok v Hv. rewrite Hok, Hv. reflexivity.
    + intros Hok Hs data Hd. rewrite Hok, Hs, Hd. reflexivity.
    + intros Hok Hs. rewrite Hok. cbn [negb].
      destruct (Z.eqb_spec (Service.status response) 422); [contradiction |].
      split; [reflexivity |]. intros Hr.
      rewrite Number_toString_safe by assumption. reflexivity.
  - intros m ->. reflexivity.
  - intros ->. reflexivity.
  - destruct (Service.apiRequest_try API_BASE_URL fetch endpoint) as [v | [m |]];
      discriminate.
Qed.

Lemma apiRequest_spec_witness :
  Service.apiRequest Samples.base (fun _ => Fulfilled Samples.invalid_422) "/api/reviews/0"
  = Rejected (Error "Validation Error: too small, not a number").
Proof.
  exact (proj1 (proj2 (proj1 (apiRequest_spec _ Samples.base
                                (fun _ => Fulfilled Samples.invalid_422) "/api/reviews/0")
                         Samples.invalid_422 eq_refl))
           eq_refl eq_refl _ eq_refl).
Defined.

(** C7, as amended.  [getApps] sends its request to [API_BASE_URL]
    followed by ["/api/apps"], and [getReviews(appId)] to [API_BASE_URL]
    followed by ["/api/reviews/"] and the text of [appId], which is its
    decimal digits for every integer [appId] from 0 to 2^53 - 1: the
    result depends on the network through that URL alone; either
    function returns the decoded body of a response that is ok. *)
Theorem endpoint_mapping (API_BASE_URL : string) :
  (forall fetch fetch',
      fetch (API_BASE_URL ++ "/api/apps") = fetch' (API_BASE_URL ++ "/api/apps") ->
      Service.getApps API_BASE_URL fetch = Service.getApps API_BASE_URL fetch') /\
  (forall fetch response v,
      fetch (API_BASE_URL ++ "/api/apps") = Fulfilled response ->
      Service.ok response = true -> Service.json response = Fulfilled v ->
      Service.getApps API_BASE_URL fetch = Fulfilled v) /\
  (forall appId, 0 <= appId <= MAX_SAFE_INTEGER ->
      let url := API_BASE_URL ++ "/api/reviews/" ++ decimal appId in
      (forall fetch fetch',
          fetch url = fetch' url ->
          Service.getReviews API_BASE_URL fetch (Fin appId)
          = Service.getReviews API_BASE_URL fetch' (Fin appId)) /\
      (forall fetch response v,
          fetch url = Fulfilled response ->
          Service.ok response = true -> Service.json response = Fulfilled v ->
          Service.getReviews API_BASE_URL fetch (Fin appId) = Fulfilled v)).
Proof.
  unfold Service.getApps, Service.getReviews, Service.apiRequest,
    Service.apiRequest_try, Service.request_url, Service.apps_endpoint,
    Service.reviews_endpoint.
  split; [| split; [| intros appId Hz; cbv zeta; split]].
  - intros fetch fetch' ->. reflexivity.
  - intros fetch response v -> -> ->. reflexivity.
  - intros fetch fetch'. rewrite Number_toString_safe by assumption.
    intros ->. reflexivity.
  - intros fetch response v. rewrite Number_toString_safe by assumption.
    intros -> -> ->. reflexivity.
Qed.

Lemma endpoint_mapping_witness :
  Service.getReviews Samples.base
    (Samples.only "http://localhost:8000/api/reviews/595068606" Samples.ok_reviews)
    (Fin 595068606)
  = Fulfilled (Service.mkGetReviewsResponse [Samples.review1]).
Proof.
  refine (proj2 (proj2 (proj2 (endpoint_mapping Samples.base)) 595068606 _)
            (Samples.only "http://localhost:8000/api/reviews/595068606" Samples.ok_reviews)
            Samples.ok_reviews _ eq_refl eq_refl eq_refl).
  unfold MAX_SAFE_INTEGER. lia.
Defined.

(** C7 as stated fails at 10^21: the request goes to a URL that ends in
    exponent notation, not in the decimal digits of the id. *)
Lemma getReviews_exponent_notation :
  decimal (10 ^ 21) = "1000000000000000000000" /\
  Service.request_url Samples.base (Service.reviews_endpoint (Fin (10 ^ 21)))
  = "http://localhost:8000/api/reviews/1e+21" /\
  Service.request_url Samples.base (Service.reviews_endpoint (Fin (10 ^ 21)))
  <> Samples.base ++ "/api/reviews/" ++ decimal (10 ^ 21) /\
  Service.getReviews Samples.base
    (Samples.only "http://localhost:8000/api/reviews/1e+21" Samples.ok_reviews)
    (Fin (10 ^ 21))
  = Fulfilled (Service.mkGetReviewsResponse [Samples.review1]).
Proof. vm_compute. repeat split; discriminate. Qed.

(** ** The polling effect *)

Section MachineFacts.

Context {S E K : Type} `{EqDecision K} `{Navigation E}.

Variable selected : S -> option number.
Variable fetchKey : S -> K.
Variable begin_fetch : K -> Z -> number -> S -> S * list string.
Variable handle : E -> S -> browser -> S * browser.

(** [fetchReviews] sets neither [selectedAppId] nor what its own
    identity depends on. *)
Hypothesis begin_selected :
  forall k t a st, selected (fst (begin_fetch k t a st)) = selected st.
Hypothesis begin_key :
  forall k t a st, fetchKey (fst (begin_fetch k t a st)) = fetchKey st.

Import Runtime.

Local Abbreviation world := (@Runtime.world S K).
Local Abbreviation input := (@Runtime.input E).
Local Abbreviation callFetchReviews := (Runtime.callFetchReviews begin_fetch).
Local Abbreviation pollingEffect := (Runtime.pollingEffect selected fetchKey begin_fetch).
Local Abbreviation commit := (Runtime.commit selected fetchKey begin_fetch).
Local Abbreviation dispatch := (Runtime.dispatch selected fetchKey begin_fetch handle).
Local Abbreviation tick := (Runtime.tick selected fetchKey begin_fetch).
Local Abbreviation step := (Runtime.step selected fetchKey begin_fetch handle).
Local Abbreviation settled := (Runtime.settled selected fetchKey).
Local Abbreviation current_deps := (Runtime.current_deps selected fetchKey).
Local Abbreviation steady := (Runtime.steady selected fetchKey begin_fetch handle).

Lemma call_comp k a (w : world) :
  comp (callFetchReviews k a w) = fst (begin_fetch k (now w) a (comp w)).
Proof. unfold Runtime.callFetchReviews. destruct (begin_fetch _ _ _ _); reflexivity. Qed.

Lemma call_calls k a (w : world) :
  calls (callFetchReviews k a w) = (calls w ++ [(now w, a)])%list.
Proof. unfold Runtime.callFetchReviews. destruct (begin_fetch _ _ _ _); reflexivity. Qed.

Lemma call_frame k a (w : world) :
  let w' := callFetchReviews k a w in
  loc w' = loc w /\ now w' = now w /\ timers w' = timers w /\
  next_timer w' = next_timer w /\ cleanup w' = cleanup w /\
  deps w' = deps w /\ mounted w' = mounted w.
Proof.
  unfold Runtime.callFetchReviews. destruct (begin_fetch _ _ _ _). simpl. tauto.
Qed.

Lemma call_deps k a (w : world) :
  current_deps (callFetchReviews k a w) = current_deps w.
Proof.
  unfold Runtime.current_deps. rewrite call_comp, begin_selected, begin_key.
  reflexivity.
Qed.

(** The effect, run on a world whose timer table is empty. *)
Lemma pollingEffect_fresh (w : world) :
  timers w = ∅ -> mounted w = true ->
  let w' := set_deps (Some (current_deps w)) (pollingEffect w) in
  settled w' /\ current_deps w' = current_deps w /\
  now w' = now w /\ mounted w' = true /\
  match selected (comp w) with
  | Some appId =>
      calls w' = (calls w ++ [(now w, appId)])%list /\
      timers w' = {[ next_timer w :=
                       mkTimer (now w + REFRESH_INTERVAL) appId (fetchKey (comp w)) ]} /\
      cleanup w' = Some (next_timer w)
  | None => calls w' = calls w /\ timers w' = ∅
  end.
Proof.
  intros Ht Hm. unfold Runtime.pollingEffect.
  destruct (selected (comp w)) as [appId |] eqn:Hsel.
  - pose proof (call_frame (fetchKey (comp w)) appId w) as Hf. cbv zeta in Hf.
    destruct Hf as (Hl & Hn & Htm & Hnx & Hc & Hd & Hmo).
    pose proof (call_deps (fetchKey (comp w)) appId w) as Hcd.
    pose proof (call_calls (fetchKey (comp w)) appId w) as Hcalls.
    set (w1 := callFetchReviews (fetchKey (comp w)) appId w) in *.
    unfold Runtime.current_deps in Hcd. injection Hcd as Hs Hk.
    cbv zeta. unfold Runtime.settled, Runtime.current_deps, REFRESH_INTERVAL.
    simpl. rewrite Hn, Htm, Hnx, Hmo, Hs, Hk, Hsel, Ht, Hcalls.
    change (<[next_timer w := ?t]> (∅ : gmap nat (timer K))) with ({[next_timer w := t]} : gmap nat (timer K)).
    split; [| auto 10].
    split; [reflexivity |]. split; [assumption |]. split; [lia |].
    exists appId, (now w + 2000). unfold REFRESH_INTERVAL. split; [reflexivity |].
    split; [reflexivity | lia].
  - cbv zeta. unfold Runtime.settled, Runtime.current_deps. simpl.
    rewrite Hsel, Ht. auto 10.
Qed.

Lemma runCleanup_clears (w : world) :
  match cleanup w with
  | Some interval => exists t, timers w = {[ interval := t ]}
  | None => timers w = ∅
  end ->
  let w' := runCleanup w in
  timers w' = ∅ /\ cleanup w' = None /\ comp w' = comp w /\ loc w' = loc w /\
  now w' = now w /\ next_timer w' = next_timer w /\ calls w' = calls w /\
  requests w' = requests w /\ mounted w' = mounted w /\ deps w' = deps w.
Proof.
  intros Hs. unfold Runtime.runCleanup. cbv zeta.
  destruct (cleanup w) as [tid |] eqn:Hc.
  - destruct Hs as (t & Ht). simpl.
    rewrite Ht, delete_singleton_eq. repeat split; reflexivity.
  - repeat split; try reflexivity; assumption.
Qed.

Lemma settled_owns (w : world) :
  settled w ->
  match cleanup w with
  | Some interval => exists t, timers w = {[ interval := t ]}
  | None => timers w = ∅
  end.
Proof.
  intros [_ Hs]. destruct (cleanup w).
  - destruct Hs as (_ & _ & a & d & _ & Ht & _). eauto.
  - tauto.
Qed.

(** What a render does after a handler has set the state to [st]. *)
Lemma commit_set_page (w : world) (st : S) (b : browser) :
  settled w -> mounted w = true ->
  let w1 := set_page st b w in
  let w' := commit w1 in
  settled w' /\ now w' = now w /\ mounted w' = true /\
  current_deps w' = current_deps w1 /\
  ((current_deps w1 = current_deps w /\ w' = w1) \/
   (current_deps w1 <> current_deps w /\
    match selected st with
    | Some appId =>
        calls w' = (calls w ++ [(now w, appId)])%list /\
        timers w' = {[ next_timer w :=
                         mkTimer (now w + REFRESH_INTERVAL) appId (fetchKey st) ]}
    | None => calls w' = calls w /\ timers w' = ∅
    end)).
Proof.
  intros Hs Hm. cbv zeta. unfold Runtime.commit.
  change (mounted (set_page st b w)) with (mounted w). rewrite Hm.
  change (deps (set_page st b w)) with (deps w).
  destruct Hs as [Hd Hs]. specialize (Hd Hm).
  destruct (decide (deps w = Some (current_deps (set_page st b w)))) as [He | Hne].
  - assert (Hcd : current_deps (set_page st b w) = current_deps w) by congruence.
    split; [| auto 10].
    unfold Runtime.current_deps in Hcd. simpl in Hcd. injection Hcd as Hsel Hkey.
    unfold Runtime.settled, Runtime.current_deps. simpl. rewrite Hsel, Hkey.
    split; [intros _; exact Hd | exact Hs].
  - assert (Hcd : current_deps (set_page st b w) <> current_deps w) by congruence.
    pose proof (runCleanup_clears (set_page st b w) (settled_owns w (conj (fun _ => Hd) Hs)))
      as Hc. cbv zeta in Hc.
    destruct Hc as (Ht & _ & Hcomp & _ & Hnow & Hnext & Hcalls & _ & Hmo & _).
    pose proof (pollingEffect_fresh (runCleanup (set_page st b w)) Ht
                  ltac:(rewrite Hmo; exact Hm)) as Hp.
    cbv zeta in Hp. unfold Runtime.current_deps in Hp.
    rewrite Hcomp, Hnow, Hnext, Hcalls in Hp. simpl in Hp.
    destruct Hp as (Hset & Hdeps & Hn & Hmt & Hrest).
    split; [exact Hset |]. split; [exact Hn |]. split; [exact Hmt |].
    split; [exact Hdeps |]. right. split; [exact Hcd |].
    destruct (selected st);
      [destruct Hrest as (? & ? & ?); split; assumption | exact Hrest].
Qed.

(** Between two events a further render changes nothing. *)
Lemma commit_idle (w : world) : settled w -> commit w = w.
Proof.
  intros [Hd _]. unfold Runtime.commit.
  destruct (mounted w); [| reflexivity].
  rewrite (Hd eq_refl).
  destruct (decide (Some (current_deps w) = Some (current_deps w)));
    [reflexivity | contradiction].
Qed.

Lemma dispatch_unmounted (e : E) (w : world) :
  mounted w = false -> dispatch e w = Runtime.set_loc (browser_move e (loc w)) w.
Proof. intros Hm. unfold Runtime.dispatch. rewrite Hm. reflexivity. Qed.

Lemma dispatch_mounted (e : E) (w : world) :
  mounted w = true ->
  dispatch e w =
  commit (set_page (fst (handle e (comp w) (loc w)))
            (snd (handle e (comp w) (loc w))) w).
Proof.
  intros Hm. unfold Runtime.dispatch. rewrite Hm.
  destruct (handle e (comp w) (loc w)); reflexivity.
Qed.

(** A millisecond on a settled world: the timer, if there is one and
    it is due, calls [fetchReviews] once and is scheduled again. *)
Lemma tick_spec (w : world) :
  settled w ->
  let w' := tick w in
  settled w' /\ now w' = now w + 1 /\ mounted w' = mounted w /\
  current_deps w' = current_deps w /\ cleanup w' = cleanup w /\
  match cleanup w with
  | Some interval =>
      exists appId d,
        selected (comp w) = Some appId /\
        timers w = {[ interval := mkTimer d appId (fetchKey (comp w)) ]} /\
        if d =? now w + 1 then
          calls w' = (calls w ++ [(now w + 1, appId)])%list /\
          timers w' = {[ interval :=
                           mkTimer (d + REFRESH_INTERVAL) appId (fetchKey (comp w)) ]}
        else calls w' = calls w /\ timers w' = timers w
  | None => calls w' = calls w /\ timers w' = ∅
  end.
Proof.
  intros [Hd Hs]. unfold Runtime.tick. cbv zeta.
  change (timers (set_now (now w + 1) w)) with (timers w).
  destruct (cleanup w) as [tid |] eqn:Hc.
  - destruct Hs as (Hm & Hlt & appId & d & Hsel & Ht & Hb).
    specialize (Hd Hm). rewrite Ht, map_fold_singleton.
    unfold Runtime.fire. cbn [due cb_appId cb_fetch].
    change (now (set_now (now w + 1) w)) with (now w + 1).
    destruct (Z.eqb_spec d (now w + 1)) as [-> | Hne].
    + pose proof (call_frame (fetchKey (comp w)) appId (set_now (now w + 1) w)) as Hf.
      cbv zeta in Hf. destruct Hf as (Hl & Hn & Htm & Hnx & Hcl & Hdp & Hmo).
      pose proof (call_deps (fetchKey (comp w)) appId (set_now (now w + 1) w)) as Hcd.
      pose proof (call_calls (fetchKey (comp w)) appId (set_now (now w + 1) w)) as Hcalls.
      remember (callFetchReviews (fetchKey (comp w)) appId (set_now (now w + 1) w))
        as w1 eqn:Ew1 in *. clear Ew1.
      simpl in Hn, Htm, Hnx, Hcl, Hdp, Hmo, Hcalls.
      change (current_deps (set_now (now w + 1) w)) with (current_deps w) in Hcd.
      unfold Runtime.commit. cbn [mounted deps]. rewrite Hmo, Hm, Hdp.
      match goal with |- context [decide ?P] => destruct (decide P) as [_ | Hn'] end.
      2:{ exfalso. apply Hn'. rewrite Hd. f_equal. symmetry. exact Hcd. }
      rewrite Htm, Ht, alter_singleton_eq. cbn [due cb_appId cb_fetch].
      assert (Hsel' : selected (comp w1) = Some appId).
      { unfold Runtime.current_deps in Hcd. injection Hcd as Hs1 _. congruence. }
      assert (Hkey' : fetchKey (comp w1) = fetchKey (comp w)).
      { unfold Runtime.current_deps in Hcd. injection Hcd as _ Hk1. exact Hk1. }
      split.
      { unfold Runtime.settled, Runtime.current_deps. cbn.
        rewrite ?Hdp, ?Hcl, ?Hmo, ?Hnx, ?Hn, Hc.
        split; [intros _; rewrite Hsel', Hkey', Hd; unfold Runtime.current_deps;
                rewrite Hsel; reflexivity |].
        split; [reflexivity |]. split; [assumption |].
        exists appId, (now w + 1 + REFRESH_INTERVAL). rewrite Hkey'.
        unfold REFRESH_INTERVAL.
        split; [assumption |]. split; [reflexivity | lia]. }
      cbn. rewrite ?Hn, ?Hmo, ?Hcl. split; [reflexivity |]. split; [reflexivity |].
      split; [exact Hcd |]. split; [exact Hc |].
      exists appId, (now w + 1). split; [assumption |]. split; [reflexivity |].
      rewrite Z.eqb_refl. split; [exact Hcalls | reflexivity].
    + unfold Runtime.commit. cbn [mounted deps set_now]. rewrite Hm.
      change (current_deps (set_now (now w + 1) w)) with (current_deps w).
      destruct (decide (deps w = Some (current_deps w))) as [_ | Hn']; [| contradiction].
      split.
      { unfold Runtime.settled. cbn. rewrite Hc.
        split; [intros _; exact Hd |]. split; [assumption |]. split; [assumption |].
        exists appId, d. repeat split; [assumption | assumption | lia | lia]. }
      cbn. rewrite ?Hm. split; [reflexivity |]. split; [reflexivity |].
      split; [reflexivity |]. split; [assumption |]. exists appId, d.
      destruct (Z.eqb_spec d (now w + 1)); [contradiction |]. auto.
  - destruct Hs as [Ht Hnone]. rewrite Ht, map_fold_empty.
    assert (Hcm : commit (set_now (now w + 1) w) = set_now (now w + 1) w).
    { unfold Runtime.commit. cbn [mounted deps set_now].
      destruct (mounted w) eqn:Hm; [| reflexivity].
      change (current_deps (set_now (now w + 1) w)) with (current_deps w).
      rewrite (Hd eq_refl).
      destruct (decide (Some (current_deps w) = Some (current_deps w)));
        [reflexivity | contradiction]. }
    rewrite Hcm. split.
    { unfold Runtime.settled. cbn. rewrite Hc. auto. }
    cbn. auto 10.
Qed.

Lemma unmount_spec (w : world) :
  settled w ->
  let w' := unmount w in
  settled w' /\ timers w' = ∅ /\ calls w' = calls w /\ now w' = now w /\
  mounted w' = false.
Proof.
  intros Hs. unfold Runtime.unmount. cbv zeta.
  destruct (mounted w) eqn:Hm.
  - pose proof (runCleanup_clears w (settled_owns w Hs)) as Hc. cbv zeta in Hc.
    destruct Hc as (Ht & Hcl & _ & _ & Hn & _ & Hcalls & _).
    unfold Runtime.settled. cbn. rewrite Ht, Hcl.
    repeat split; try assumption; try reflexivity; discriminate.
  - destruct Hs as [Hd Hs]. destruct (cleanup w) eqn:Hc.
    + destruct Hs as (Hm' & _). congruence.
    + destruct Hs as [Ht Hnone]. split; [| auto].
      unfold Runtime.settled. rewrite Hc.
      split; [intros Hm'; congruence | split; assumption].
Qed.

Lemma step_settled (w : world) (i : input) : settled w -> settled (step w i).
Proof.
  intros Hs. destruct i as [e | |]; simpl.
  - destruct (mounted w) eqn:Hm.
    + rewrite dispatch_mounted by assumption. apply commit_set_page; assumption.
    + rewrite dispatch_unmounted by assumption. assumption.
  - apply tick_spec; assumption.
  - apply unmount_spec; assumption.
Qed.

Lemma fold_settled (inputs : list input) (w : world) :
  settled w -> settled (fold_left step inputs w).
Proof.
  revert w; induction inputs as [| i inputs IH]; intros w Hs; simpl; [assumption |].
  apply IH, step_settled, Hs.
Qed.

Lemma mount_settled (st : S) (reqs : list string) (t0 : Z) (b0 : browser) :
  let w := Runtime.mount selected fetchKey begin_fetch st reqs t0 b0 in
  settled w /\ mounted w = true.
Proof.
  unfold Runtime.mount, Runtime.commit. cbn [mounted deps].
  match goal with |- context [decide ?P] => destruct (decide P) as [Heq | _] end;
    [discriminate Heq |].
  match goal with |- context [runCleanup ?w] =>
    change (runCleanup w) with w;
    pose proof (pollingEffect_fresh w eq_refl eq_refl) as Hp end.
  cbv zeta in Hp. destruct Hp as (Hs & _ & _ & Hm & _). split; assumption.
Qed.

Lemma run_settled (st : S) (reqs : list string) (t0 : Z) (b0 : browser)
  (inputs : list input) :
  settled (Runtime.run selected fetchKey begin_fetch handle st reqs t0 b0 inputs).
Proof. unfold Runtime.run. apply fold_settled, mount_settled. Qed.

(** At most one timer, and none without a selection. *)
Lemma settled_single_timer (w : world) :
  settled w ->
  (size (timers w) <= 1)%nat /\
  (selected (comp w) = None -> timers w = ∅) /\
  (mounted w = false -> timers w = ∅) /\
  (forall appId, mounted w = true -> selected (comp w) = Some appId ->
     exists interval t,
       cleanup w = Some interval /\ timers w = {[ interval := t ]} /\
       cb_appId t = appId /\ cb_fetch t = fetchKey (comp w) /\
       now w < due t <= now w + REFRESH_INTERVAL).
Proof.
  intros [_ Hs]. destruct (cleanup w) as [tid |].
  - destruct Hs as (Hm & _ & a & d & Hsel & Ht & Hb). rewrite Ht.
    rewrite map_size_singleton. split; [lia |].
    split; [congruence |]. split; [congruence |].
    intros appId _ Hsel'. eexists tid, _.
    split; [reflexivity |]. split; [reflexivity |]. cbn. split; [congruence | auto].
  - destruct Hs as [Ht Hnone]. rewrite Ht, map_size_empty.
    split; [lia |]. split; [reflexivity |]. split; [reflexivity |].
    intros appId Hm Hsel. rewrite (Hnone Hm) in Hsel. discriminate.
Qed.

(** A timer outlives a step only if the dependencies of the effect
    are unchanged by it. *)
Lemma timer_survives (w : world) (i : input) (interval : nat) :
  settled w ->
  is_Some (timers w !! interval) ->
  is_Some (timers (step w i) !! interval) ->
  current_deps (step w i) = current_deps w.
Proof.
  intros Hs Hin Hin'. destruct i as [e | |]; simpl in *.
  - destruct (mounted w) eqn:Hm.
    + rewrite dispatch_mounted in * by assumption.
      set (st := fst (handle e (comp w) (loc w))) in *.
      set (b := snd (handle e (comp w) (loc w))) in *.
      destruct (commit_set_page w st b Hs Hm) as (_ & _ & _ & Hcd & [[Hsame _] | [_ Hch]]).
      * congruence.
      * exfalso. destruct Hs as [_ Hs].
        destruct (cleanup w) as [tid |].
        -- destruct Hs as (_ & Hlt & a & d & _ & Ht & _).
           rewrite Ht in Hin. apply lookup_singleton_is_Some in Hin. subst interval.
           destruct (selected st); destruct Hch as [_ Ht'];
             rewrite Ht' in Hin'.
           ++ apply lookup_singleton_is_Some in Hin'. lia.
           ++ rewrite lookup_empty in Hin'. destruct Hin' as [? Hx]. discriminate Hx.
        -- destruct Hs as [Ht _]. rewrite Ht, lookup_empty in Hin.
           destruct Hin as [? Hx]. discriminate Hx.
    + rewrite dispatch_unmounted by assumption. reflexivity.
  - apply tick_spec. assumption.
  - exfalso. destruct (unmount_spec w Hs) as (_ & Ht & _).
    rewrite Ht, lookup_empty in Hin'. destruct Hin' as [? Hx]. discriminate Hx.
Qed.

(** Every call of [fetchReviews] is made for the id that is selected
    when the step ends, at the time of the step. *)
Lemma step_calls (w : world) (i : input) :
  settled w ->
  calls (step w i) = calls w \/
  exists appId,
    selected (comp (step w i)) = Some appId /\
    calls (step w i) = (calls w ++ [(now (step w i), appId)])%list.
Proof.
  intros Hs. destruct i as [e | |]; simpl.
  - destruct (mounted w) eqn:Hm.
    + rewrite dispatch_mounted by assumption.
      set (st := fst (handle e (comp w) (loc w))).
      set (b := snd (handle e (comp w) (loc w))).
      destruct (commit_set_page w st b Hs Hm)
        as (_ & Hn & _ & Hcd & [[_ Hsame] | [_ Hch]]).
      * left. rewrite Hsame. reflexivity.
      * unfold Runtime.current_deps in Hcd. cbn [comp set_page] in Hcd.
        injection Hcd as Hsel _.
        destruct (selected st) as [a |]; destruct Hch as [Hcalls _];
          [right | left; assumption].
        exists a. rewrite Hn. auto.
    + rewrite dispatch_unmounted by assumption. auto.
  - destruct (tick_spec w Hs) as (_ & Hn & _ & Hcd & _ & Hc).
    unfold Runtime.current_deps in Hcd. injection Hcd as Hsel _.
    destruct (cleanup w) as [tid |]; [| left; tauto].
    destruct Hc as (a & d & Ha & _ & Hif).
    destruct (d =? now w + 1); [| left; tauto].
    right. exists a. rewrite Hn, Hsel. tauto.
  - left. apply unmount_spec. assumption.
Qed.

Lemma steady_cons (d : option number * K) (w : world) (i : input)
  (rest : list input) :
  steady d w (i :: rest) = true ->
  mounted (step w i) = true /\ current_deps (step w i) = d /\
  steady d (step w i) rest = true.
Proof.
  unfold Runtime.steady. simpl. intros Hst.
  apply andb_true_iff in Hst as [Hst Hrest].
  apply andb_true_iff in Hst as [Hm Hd].
  apply bool_decide_eq_true in Hd. auto.
Qed.

(** While the dependencies stay the same, the timer fires every
    [REFRESH_INTERVAL] milliseconds and nothing else calls
    [fetchReviews]. *)
Lemma steady_calls (inputs : list input) :
  forall (w : world) (t : Z) (n : nat) (a : number),
    settled w -> mounted w = true -> selected (comp w) = Some a ->
    (forall interval T, timers w !! interval = Some T ->
                        due T = t + REFRESH_INTERVAL * (Z.of_nat n + 1)) ->
    t + REFRESH_INTERVAL * Z.of_nat n <= now w ->
    steady (current_deps w) w inputs = true ->
    let w' := fold_left step inputs w in
    exists n' : nat,
      (n <= n')%nat /\
      t + REFRESH_INTERVAL * Z.of_nat n' <= now w'
        < t + REFRESH_INTERVAL * (Z.of_nat n' + 1) /\
      now w' = now w + Z.of_nat (count_ticks inputs) /\
      calls w' =
      (calls w ++ map (fun j => (t + REFRESH_INTERVAL * Z.of_nat j, a))
                    (seq (Datatypes.S n) (n' - n)))%list.
Proof.
  induction inputs as [| i rest IH]; intros w t n a Hs Hm Hsel Hdue Hlo Hst.
  - simpl. exists n.
    destruct (settled_single_timer w Hs) as (_ & _ & _ & Hone).
    destruct (Hone a Hm Hsel) as (tid & T & _ & Ht & _ & _ & Hb).
    specialize (Hdue tid T ltac:(rewrite Ht; apply lookup_singleton_eq)).
    rewrite Nat.sub_diag. simpl. rewrite app_nil_r.
    repeat split; lia.
  - apply steady_cons in Hst as (Hm' & Hcd' & Hrest).
    pose proof (step_settled w i Hs) as Hs'.
    assert (Hsel' : selected (comp (step w i)) = Some a).
    { unfold Runtime.current_deps in Hcd'. injection Hcd' as Hx _. congruence. }
    rewrite <- Hcd' in Hrest.
    change (fold_left step (i :: rest) w) with (fold_left step rest (step w i)).
    destruct i as [e | |].
    + simpl in *. rewrite dispatch_mounted in * by assumption.
      set (st := fst (handle e (comp w) (loc w))) in *.
      set (b := snd (handle e (comp w) (loc w))) in *.
      destruct (commit_set_page w st b Hs Hm)
        as (_ & _ & _ & Hcd & [[_ Hsame] | [Hch _]]); [| congruence].
      rewrite Hsame in *.
      destruct (IH (set_page st b w) t n a Hs' Hm' Hsel' Hdue Hlo Hrest)
        as (n' & Hle & Hb & Hn & Hcalls).
      exists n'. auto.
    + simpl in *.
      destruct (tick_spec w Hs) as (_ & Hn1 & _ & _ & _ & Hc).
      destruct (settled_single_timer w Hs) as (_ & _ & _ & Hone).
      destruct (Hone a Hm Hsel) as (tid & T & Hcl & Ht & _ & _ & Hb).
      rewrite Hcl in Hc. destruct Hc as (a' & d & Ha' & Ht' & Hif).
      assert (a' = a) by congruence. subst a'.
      assert (Hd : d = t + REFRESH_INTERVAL * (Z.of_nat n + 1)).
      { apply (Hdue tid (mkTimer d a (fetchKey (comp w)))).
        rewrite Ht'. apply lookup_singleton_eq. }
      destruct (Z.eqb_spec d (now w + 1)) as [Hfire | Hwait];
        destruct Hif as [Hcalls Htm].
      * assert (Hdue' : forall interval T',
                   timers (tick w) !! interval = Some T' ->
                   due T' = t + REFRESH_INTERVAL * (Z.of_nat (Datatypes.S n) + 1)).
        { intros j T' Hj. rewrite Htm in Hj.
          apply lookup_singleton_Some in Hj as [_ <-]. cbn. lia. }
        destruct (IH (tick w) t (Datatypes.S n) a Hs' Hm' Hsel' Hdue'
                    ltac:(lia) Hrest) as (n' & Hle & Hb' & Hn & Hcalls').
        exists n'. split; [lia |]. split; [assumption |]. split; [lia |].
        rewrite Hcalls', Hcalls, <- app_assoc. f_equal.
        replace (n' - n)%nat with (Datatypes.S (n' - Datatypes.S n)) by lia.
        simpl. do 2 f_equal. lia.
      * assert (Hdue' : forall interval T',
                   timers (tick w) !! interval = Some T' ->
                   due T' = t + REFRESH_INTERVAL * (Z.of_nat n + 1)).
        { intros j T' Hj. rewrite Htm in Hj. eauto. }
        destruct (IH (tick w) t n a Hs' Hm' Hsel' Hdue' ltac:(lia) Hrest)
          as (n' & Hle & Hb' & Hn & Hcalls').
        exists n'. split; [lia |]. split; [assumption |]. split; [lia |].
        rewrite Hcalls', Hcalls. reflexivity.
    + exfalso. simpl in Hm'. destruct (unmount_spec w Hs) as (_ & _ & _ & _ & Hf).
      congruence.
Qed.

(** A step that changes the dependencies to a selected app starts the
    polling afresh: one call at once, then one every
    [REFRESH_INTERVAL] milliseconds for as long as the dependencies
    stay the same. *)
Lemma restart_calls (w0 : world) (e : E) (a : number) (inputs : list input) :
  settled w0 ->
  let w := step w0 (Dispatch e) in
  current_deps w <> current_deps w0 ->
  selected (comp w) = Some a ->
  steady (current_deps w) w inputs = true ->
  calls (fold_left step inputs w) =
  (calls w0 ++ (now w, a)
     :: firings (now w) a (Z.to_nat (Z.of_nat (count_ticks inputs) / REFRESH_INTERVAL)))%list.
Proof.
  intros Hs w Hch Hsel Hst. subst w. simpl in *.
  destruct (mounted w0) eqn:Hm;
    [| rewrite dispatch_unmounted in Hch by assumption; contradiction].
  rewrite dispatch_mounted in * by assumption.
  set (st := fst (handle e (comp w0) (loc w0))) in *.
  set (b := snd (handle e (comp w0) (loc w0))) in *.
  destruct (commit_set_page w0 st b Hs Hm)
    as (Hs' & Hn & Hm' & Hcd & [[Hsame _] | [_ Hrest]]); [congruence |].
  assert (Hst' : selected st = Some a).
  { unfold Runtime.current_deps in Hcd. cbn [comp set_page] in Hcd.
    injection Hcd as Hx _. congruence. }
  rewrite Hst' in Hrest. destruct Hrest as [Hcalls Htm].
  set (w := commit (set_page st b w0)) in *.
  assert (Hdue : forall interval T, timers w !! interval = Some T ->
                   due T = now w + REFRESH_INTERVAL * (Z.of_nat 0 + 1)).
  { intros j T Hj. rewrite Htm in Hj.
    apply lookup_singleton_Some in Hj as [_ <-]. cbn. lia. }
  assert (Hlo : now w + REFRESH_INTERVAL * Z.of_nat 0 <= now w).
  { change (Z.of_nat 0) with 0. rewrite Z.mul_0_r, Z.add_0_r. apply Z.le_refl. }
  destruct (steady_calls inputs w (now w) 0 a Hs' Hm' Hsel Hdue Hlo Hst)
    as (n' & _ & Hb & Hnow & Hc).
  rewrite Hc, Hcalls, Hn, <- app_assoc. simpl. do 2 f_equal.
  unfold firings. rewrite Nat.sub_0_r, <- Hn. f_equal.
  unfold REFRESH_INTERVAL in *.
  assert (Hq : Z.of_nat (count_ticks inputs) / 2000 = Z.of_nat n').
  { symmetry.
    apply (Z.div_unique _ _ _ (Z.of_nat (count_ticks inputs) - 2000 * Z.of_nat n')); lia. }
  rewrite Hq, Nat2Z.id. reflexivity.
Qed.

Lemma trace_app (l1 l2 : list input) (w : world) :
  Runtime.trace selected fetchKey begin_fetch handle w (l1 ++ l2) =
  (Runtime.trace selected fetchKey begin_fetch handle w l1
   ++ Runtime.trace selected fetchKey begin_fetch handle (fold_left step l1 w) l2)%list.
Proof.
  revert w; induction l1 as [| i l1 IH]; intros w; simpl; [reflexivity |].
  rewrite IH. reflexivity.
Qed.

Lemma count_ticks_repeat (n : nat) : count_ticks (repeat (@Tick E) n) = n.
Proof. induction n as [| n IH]; simpl; [reflexivity | rewrite IH; reflexivity]. Qed.

(** The passing of time alone changes neither the dependencies nor
    the mounting. *)
Lemma ticks_spec (n : nat) (w : world) :
  settled w ->
  let w' := fold_left step (repeat Tick n) w in
  settled w' /\ current_deps w' = current_deps w /\ mounted w' = mounted w /\
  now w' = now w + Z.of_nat n /\
  Forall (fun x => current_deps x = current_deps w /\ mounted x = mounted w)
    (Runtime.trace selected fetchKey begin_fetch handle w (repeat Tick n)).
Proof.
  revert w; induction n as [| n IH]; intros w Hs.
  - simpl. split; [assumption |]. split; [reflexivity |]. split; [reflexivity |].
    split; [lia | constructor].
  - cbn [repeat fold_left Runtime.trace].
    destruct (tick_spec w Hs) as (Hs1 & Hn1 & Hm1 & Hd1 & _).
    change (step w Tick) with (tick w).
    destruct (IH (tick w) Hs1) as (Hs' & Hd' & Hm' & Hn' & Hall).
    split; [assumption |]. split; [congruence |]. split; [congruence |].
    split; [lia |]. constructor; [split; assumption |].
    eapply Forall_impl; [exact Hall |]. intros x [Hx1 Hx2]. split; congruence.
Qed.

Lemma ticks_steady (n : nat) (w : world) (d : option number * K) :
  settled w -> mounted w = true -> current_deps w = d ->
  steady d w (repeat Tick n) = true.
Proof.
  intros Hs Hm <-. unfold Runtime.steady. apply forallb_forall.
  destruct (ticks_spec n w Hs) as (_ & _ & _ & _ & Hall).
  rewrite Forall_forall in Hall. intros x Hx. apply list_elem_of_In in Hx.
  destruct (Hall x Hx) as [Hd Hmx]. rewrite Hmx, Hm. simpl.
  apply bool_decide_eq_true. exact Hd.
Qed.

(** What a handled event leaves behind. *)
Lemma dispatch_frame (w : world) (e : E) :
  settled w -> mounted w = true ->
  let st := fst (handle e (comp w) (loc w)) in
  let w' := step w (Dispatch e) in
  settled w' /\ now w' = now w /\ mounted w' = true /\
  current_deps w' = (selected st, fetchKey st).
Proof.
  intros Hs Hm. cbv zeta. simpl. rewrite dispatch_mounted by assumption.
  destruct (commit_set_page w (fst (handle e (comp w) (loc w)))
              (snd (handle e (comp w) (loc w))) Hs Hm) as (H1 & H2 & H3 & H4 & _).
  auto.
Qed.

(** A restart followed by [n] milliseconds without any event. *)
Lemma restart_then_ticks (w : world) (e : E) (a : number) (n : nat) :
  settled w -> mounted w = true ->
  let w1 := step w (Dispatch e) in
  let w2 := fold_left step (repeat Tick n) w1 in
  current_deps w1 <> current_deps w ->
  selected (comp w1) = Some a ->
  calls w2 = (calls w ++ (now w, a)
                :: firings (now w) a (Z.to_nat (Z.of_nat n / REFRESH_INTERVAL)))%list /\
  now w2 = now w + Z.of_nat n /\ settled w2 /\ mounted w2 = true /\
  current_deps w2 = current_deps w1 /\
  Forall (fun x => current_deps x = current_deps w1)
    (w1 :: Runtime.trace selected fetchKey begin_fetch handle w1 (repeat Tick n)).
Proof.
  intros Hs Hm w1 w2 Hch Hsel.
  destruct (dispatch_frame w e Hs Hm) as (Hs1 & Hn1 & Hm1 & _). fold w1 in Hs1, Hn1, Hm1.
  destruct (ticks_spec n w1 Hs1) as (Hs2 & Hd2 & Hm2 & Hn2 & Hall). fold w2 in Hs2, Hd2, Hm2, Hn2.
  pose proof (restart_calls w e a (repeat Tick n) Hs Hch Hsel
                (ticks_steady n w1 _ Hs1 Hm1 eq_refl)) as Hc.
  fold w1 w2 in Hc. rewrite count_ticks_repeat, Hn1 in Hc.
  split; [exact Hc |]. split; [lia |]. split; [assumption |].
  split; [congruence |]. split; [assumption |].
  constructor; [reflexivity |].
  eapply Forall_impl; [exact Hall |]. intros x [Hx _]. exact Hx.
Qed.

(** A handler that leaves the dependencies alone causes no effect to
    run: the step only replaces the state and the location. *)
Lemma dispatch_same_deps (w : world) (e : E) :
  settled w -> mounted w = true ->
  let st := fst (handle e (comp w) (loc w)) in
  let b := snd (handle e (comp w) (loc w)) in
  selected st = selected (comp w) -> fetchKey st = fetchKey (comp w) ->
  step w (Dispatch e) = set_page st b w.
Proof.
  intros Hs Hm st b Hsel Hkey. simpl. rewrite dispatch_mounted by assumption.
  destruct (commit_set_page w st b Hs Hm) as (_ & _ & _ & _ & [[_ Hsame] | [Hch _]]).
  - exact Hsame.
  - exfalso. apply Hch. unfold Runtime.current_deps. cbn [comp set_page].
    rewrite Hsel, Hkey. reflexivity.
Qed.

End MachineFacts.

(** ** Every state of the two pages is settled *)

Section Pages.

Variable API_BASE_URL : string.
Variable LocalTZA : Z -> bool -> Z.

Lemma plain_begin_selected k t a st :
  Plain.selectedAppId (fst (PlainPage.begin_fetch API_BASE_URL k t a st))
  = Plain.selectedAppId st.
Proof. reflexivity. Qed.

Lemma plain_begin_key k t a st :
  PlainPage.fetchKey (fst (PlainPage.begin_fetch API_BASE_URL k t a st))
  = PlainPage.fetchKey st.
Proof. reflexivity. Qed.

Lemma filter_begin_selected k t a st :
  Filter.selectedAppId (fst (FilterPage.begin_fetch API_BASE_URL LocalTZA k t a st))
  = Filter.selectedAppId st.
Proof.
  unfold FilterPage.begin_fetch, Filter.fetchReviews_begin. cbn [fst].
  destruct (Filter.setDate_back LocalTZA t k); reflexivity.
Qed.

Lemma filter_begin_key k t a st :
  FilterPage.fetchKey (fst (FilterPage.begin_fetch API_BASE_URL LocalTZA k t a st))
  = FilterPage.fetchKey st.
Proof.
  unfold FilterPage.begin_fetch, Filter.fetchReviews_begin. cbn [fst].
  destruct (Filter.setDate_back LocalTZA t k); reflexivity.
Qed.

Lemma plain_settled t0 b0 inputs :
  Runtime.settled Plain.selectedAppId PlainPage.fetchKey
    (PlainPage.run API_BASE_URL t0 b0 inputs).
Proof. apply run_settled; [apply plain_begin_selected | apply plain_begin_key]. Qed.

Lemma filter_settled t0 b0 inputs :
  Runtime.settled Filter.selectedAppId FilterPage.fetchKey
    (FilterPage.run API_BASE_URL LocalTZA t0 b0 inputs).
Proof. apply run_settled; [apply filter_begin_selected | apply filter_begin_key]. Qed.

End Pages.

(** C3.  In either page, after every event, tick and unmount: the timer
    table holds at most one interval; it holds none while
    [selectedAppId] is null and none once the component is unmounted;
    while an app is selected it holds exactly the interval that the
    stored clean-up clears, whose callback fetches for the selected id;
    an interval is still in the table after a step only if the step
    changed neither [selectedAppId] nor [fetchReviews] (the clean-up of
    the old run removes it before the new run installs its own); and
    unmounting the component, from any state, leaves it unmounted with
    an empty timer table. *)
Theorem single_polling_timer (API_BASE_URL : string) (LocalTZA : Z -> bool -> Z)
  (t0 : Z) (b0 : browser) :
  (forall inputs,
      let w := PlainPage.run API_BASE_URL t0 b0 inputs in
      (size (Runtime.timers w) <= 1)%nat /\
      (Plain.selectedAppId (Runtime.comp w) = None -> Runtime.timers w = ∅) /\
      (Runtime.mounted w = false -> Runtime.timers w = ∅) /\
      (forall appId,
          Runtime.mounted w = true ->
          Plain.selectedAppId (Runtime.comp w) = Some appId ->
          exists interval t,
            Runtime.cleanup w = Some interval /\
            Runtime.timers w = {[ interval := t ]} /\
            Runtime.timers (Runtime.runCleanup w) = ∅ /\
            Runtime.cb_appId t = appId) /\
      (forall i interval,
          is_Some (Runtime.timers w !! interval) ->
          is_Some (Runtime.timers (PlainPage.step API_BASE_URL w i) !! interval) ->
          Plain.selectedAppId (Runtime.comp (PlainPage.step API_BASE_URL w i))
          = Plain.selectedAppId (Runtime.comp w)) /\
      Runtime.mounted (PlainPage.step API_BASE_URL w Runtime.Unmount) = false /\
      Runtime.timers (PlainPage.step API_BASE_URL w Runtime.Unmount) = ∅) /\
  (forall inputs,
      let w := FilterPage.run API_BASE_URL LocalTZA t0 b0 inputs in
      (size (Runtime.timers w) <= 1)%nat /\
      (Filter.selectedAppId (Runtime.comp w) = None -> Runtime.timers w = ∅) /\
      (Runtime.mounted w = false -> Runtime.timers w = ∅) /\
      (forall appId,
          Runtime.mounted w = true ->
          Filter.selectedAppId (Runtime.comp w) = Some appId ->
          exists interval t,
            Runtime.cleanup w = Some interval /\
            Runtime.timers w = {[ interval := t ]} /\
            Runtime.timers (Runtime.runCleanup w) = ∅ /\
            Runtime.cb_appId t = appId) /\
      (forall i interval,
          is_Some (Runtime.timers w !! interval) ->
          is_Some (Runtime.timers (FilterPage.step API_BASE_URL LocalTZA w i) !! interval) ->
          Filter.selectedAppId (Runtime.comp (FilterPage.step API_BASE_URL LocalTZA w i))
          = Filter.selectedAppId (Runtime.comp w) /\
          Filter.reviewFilterDays (Runtime.comp (FilterPage.step API_BASE_URL LocalTZA w i))
          = Filter.reviewFilterDays (Runtime.comp w)) /\
      Runtime.mounted (FilterPage.step API_BASE_URL LocalTZA w Runtime.Unmount) = false /\
      Runtime.timers (FilterPage.step API_BASE_URL LocalTZA w Runtime.Unmount) = ∅).
Proof.
  split; intros inputs w.
  - pose proof (plain_settled API_BASE_URL t0 b0 inputs) as Hs. fold w in Hs.
    destruct (settled_single_timer _ _ w Hs) as (H1 & H2 & H3 & H4).
    repeat apply conj; try assumption.
    + intros appId Hm Hsel. destruct (H4 appId Hm Hsel) as (j & t & Hc & Ht & Ha & _).
      exists j, t. repeat split; try assumption.
      apply (runCleanup_clears w (settled_owns _ _ w Hs)).
    + intros i j Hin Hin'.
      pose proof (timer_survives _ _ _ Plain.handle
                    (plain_begin_selected API_BASE_URL) (plain_begin_key API_BASE_URL)
                    w i j Hs Hin Hin') as Hd.
      unfold Runtime.current_deps in Hd. injection Hd as Hsel. exact Hsel.
    + apply (unmount_spec Plain.selectedAppId PlainPage.fetchKey w Hs).
    + apply (unmount_spec Plain.selectedAppId PlainPage.fetchKey w Hs).
  - pose proof (filter_settled API_BASE_URL LocalTZA t0 b0 inputs) as Hs. fold w in Hs.
    destruct (settled_single_timer _ _ w Hs) as (H1 & H2 & H3 & H4).
    repeat apply conj; try assumption.
    + intros appId Hm Hsel. destruct (H4 appId Hm Hsel) as (j & t & Hc & Ht & Ha & _).
      exists j, t. repeat split; try assumption.
      apply (runCleanup_clears w (settled_owns _ _ w Hs)).
    + intros i j Hin Hin'.
      pose proof (timer_survives _ _ _ Filter.handle
                    (filter_begin_selected API_BASE_URL LocalTZA)
                    (filter_begin_key API_BASE_URL LocalTZA)
                    w i j Hs Hin Hin') as Hd.
      unfold Runtime.current_deps in Hd. injection Hd as Hsel Hkey. split; assumption.
    + apply (unmount_spec Filter.selectedAppId FilterPage.fetchKey w Hs).
    + apply (unmount_spec Filter.selectedAppId FilterPage.fetchKey w Hs).
Qed.

Lemma single_polling_timer_witness :
  let w := PlainPage.run Samples.base 0 Samples.origin
             [Runtime.Dispatch (Plain.AppsSettled (Fulfilled Samples.apps_loaded));
              Runtime.Dispatch (Plain.SelectApp (Fin 5)); Runtime.Tick] in
  exists interval t,
    Runtime.cleanup w = Some interval /\
    Runtime.timers w = {[ interval := t ]} /\
    Runtime.timers (Runtime.runCleanup w) = ∅ /\
    Runtime.cb_appId t = Fin 5.
Proof.
  exact (proj1 (proj2 (proj2 (proj2
           (proj1 (single_polling_timer Samples.base Samples.UTC 0 Samples.origin)
              [Runtime.Dispatch (Plain.AppsSettled (Fulfilled Samples.apps_loaded));
               Runtime.Dispatch (Plain.SelectApp (Fin 5)); Runtime.Tick]))))
           (Fin 5) eq_refl eq_refl).
Defined.

(** C4, as amended.  In either page, a step that changes the
    dependencies of the polling effect while an app is selected - the
    selection of another id or, in the page with the day filter, a
    change of [reviewFilterDays] - calls [fetchReviews] with the
    selected id at once, and from then on once every
    REFRESH_INTERVAL = 2000 milliseconds, counted from that step, for as
    long as the component stays mounted and the dependencies stay the
    same; these are the only calls.  Every call of [fetchReviews] is
    made with the id selected at that moment, so none is made while
    [selectedAppId] is null. *)
Theorem polling_schedule (API_BASE_URL : string) (LocalTZA : Z -> bool -> Z)
  (t0 : Z) (b0 : browser) :
  (forall before e appId inputs,
      let w0 := PlainPage.run API_BASE_URL t0 b0 before in
      let w := PlainPage.step API_BASE_URL w0 (Runtime.Dispatch e) in
      Plain.selectedAppId (Runtime.comp w) <> Plain.selectedAppId (Runtime.comp w0) ->
      Plain.selectedAppId (Runtime.comp w) = Some appId ->
      Runtime.steady Plain.selectedAppId PlainPage.fetchKey
        (PlainPage.begin_fetch API_BASE_URL) Plain.handle
        (Some appId, tt) w inputs = true ->
      Runtime.calls (fold_left (PlainPage.step API_BASE_URL) inputs w) =
      (Runtime.calls w0 ++ (Runtime.now w, appId)
         :: Runtime.firings (Runtime.now w) appId
              (Z.to_nat (Z.of_nat (Runtime.count_ticks inputs) / REFRESH_INTERVAL)))%list) /\
  (forall before e appId inputs,
      let w0 := FilterPage.run API_BASE_URL LocalTZA t0 b0 before in
      let w := FilterPage.step API_BASE_URL LocalTZA w0 (Runtime.Dispatch e) in
      (Filter.selectedAppId (Runtime.comp w) <> Filter.selectedAppId (Runtime.comp w0) \/
       Filter.reviewFilterDays (Runtime.comp w) <> Filter.reviewFilterDays (Runtime.comp w0)) ->
      Filter.selectedAppId (Runtime.comp w) = Some appId ->
      Runtime.steady Filter.selectedAppId FilterPage.fetchKey
        (FilterPage.begin_fetch API_BASE_URL LocalTZA) Filter.handle
        (Some appId, Filter.reviewFilterDays (Runtime.comp w)) w inputs = true ->
      Runtime.calls (fold_left (FilterPage.step API_BASE_URL LocalTZA) inputs w) =
      (Runtime.calls w0 ++ (Runtime.now w, appId)
         :: Runtime.firings (Runtime.now w) appId
              (Z.to_nat (Z.of_nat (Runtime.count_ticks inputs) / REFRESH_INTERVAL)))%list) /\
  (forall before i,
      let w0 := PlainPage.run API_BASE_URL t0 b0 before in
      let w := PlainPage.step API_BASE_URL w0 i in
      Runtime.calls w = Runtime.calls w0 \/
      exists appId,
        Plain.selectedAppId (Runtime.comp w) = Some appId /\
        Runtime.calls w = (Runtime.calls w0 ++ [(Runtime.now w, appId)])%list) /\
  (forall before i,
      let w0 := FilterPage.run API_BASE_URL LocalTZA t0 b0 before in
      let w := FilterPage.step API_BASE_URL LocalTZA w0 i in
      Runtime.calls w = Runtime.calls w0 \/
      exists appId,
        Filter.selectedAppId (Runtime.comp w) = Some appId /\
        Runtime.calls w = (Runtime.calls w0 ++ [(Runtime.now w, appId)])%list).
Proof.
  repeat apply conj.
  - intros before e appId inputs w0 w Hch Hsel Hst.
    apply (restart_calls _ _ _ Plain.handle
             (plain_begin_selected API_BASE_URL) (plain_begin_key API_BASE_URL)
             w0 e appId inputs (plain_settled API_BASE_URL t0 b0 before)).
    + unfold Runtime.current_deps. intros Heq. injection Heq as H1. exact (Hch H1).
    + exact Hsel.
    + unfold Runtime.current_deps. change (Plain.selectedAppId (Runtime.comp w) = Some appId) in Hsel.
      unfold w, PlainPage.step in Hsel. rewrite Hsel. exact Hst.
  - intros before e appId inputs w0 w Hch Hsel Hst.
    apply (restart_calls _ _ _ Filter.handle
             (filter_begin_selected API_BASE_URL LocalTZA)
             (filter_begin_key API_BASE_URL LocalTZA)
             w0 e appId inputs (filter_settled API_BASE_URL LocalTZA t0 b0 before)).
    + unfold Runtime.current_deps. intros Heq. injection Heq as H1 H2.
      destruct Hch as [Hch | Hch]; [exact (Hch H1) | exact (Hch H2)].
    + exact Hsel.
    + unfold Runtime.current_deps.
      unfold w, FilterPage.step in Hsel. rewrite Hsel. exact Hst.
  - intros before i w0 w.
    apply (step_calls _ _ _ Plain.handle
             (plain_begin_selected API_BASE_URL) (plain_begin_key API_BASE_URL)
             w0 i (plain_settled API_BASE_URL t0 b0 before)).
  - intros before i w0 w.
    apply (step_calls _ _ _ Filter.handle
             (filter_begin_selected API_BASE_URL LocalTZA)
             (filter_begin_key API_BASE_URL LocalTZA)
             w0 i (filter_settled API_BASE_URL LocalTZA t0 b0 before)).
Qed.

Lemma polling_schedule_witness :
  let w0 := PlainPage.run Samples.base 0 Samples.origin
              [Runtime.Dispatch (Plain.AppsSettled (Fulfilled Samples.apps_loaded))] in
  let w := PlainPage.step Samples.base w0 (Runtime.Dispatch (Plain.SelectApp (Fin 5))) in
  Runtime.calls (fold_left (PlainPage.step Samples.base) (repeat Runtime.Tick 4000) w)
  = [(0, Fin 5); (2000, Fin 5); (4000, Fin 5)]%list.
Proof.
  pose proof (proj1 (polling_schedule Samples.base Samples.UTC 0 Samples.origin)
                [Runtime.Dispatch (Plain.AppsSettled (Fulfilled Samples.apps_loaded))]%list
                (Plain.SelectApp (Fin 5)) (Fin 5) (repeat Runtime.Tick 4000)) as H.
  cbv zeta in *. rewrite H.
  - rewrite count_ticks_repeat. vm_compute. reflexivity.
  - vm_compute. discriminate.
  - vm_compute. reflexivity.
  - refine (ticks_steady Plain.selectedAppId PlainPage.fetchKey
              (PlainPage.begin_fetch Samples.base) Plain.handle
              (plain_begin_selected Samples.base) (plain_begin_key Samples.base) 4000
              _ (Some (Fin 5), tt) _ _ _).
    + exact (plain_settled Samples.base 0 Samples.origin
               [Runtime.Dispatch (Plain.AppsSettled (Fulfilled Samples.apps_loaded));
                Runtime.Dispatch (Plain.SelectApp (Fin 5))]).
    + vm_compute. reflexivity.
    + vm_compute. reflexivity.
Defined.

(** C4 as stated fails in the page with the day filter: the apps are
    loaded and app 5 is selected at time 0 and stays selected; the
    filter is changed after 1000 ms, which restarts the effect; 2000 ms
    after the selection no call of [fetchReviews] is made, the calls
    being those of 0 ms and of 1000 ms. *)
Lemma filter_change_restarts_polling :
  let step := FilterPage.step Samples.base Samples.UTC in
  let trace := Runtime.trace Filter.selectedAppId FilterPage.fetchKey
                 (FilterPage.begin_fetch Samples.base Samples.UTC) Filter.handle in
  let w0 := FilterPage.run Samples.base Samples.UTC 0 Samples.origin
              [Runtime.Dispatch (Filter.AppsSettled (Fulfilled Samples.apps_loaded))] in
  let w1 := step w0 (Runtime.Dispatch (Filter.SelectApp (Fin 5))) in
  let w2 := fold_left step (repeat Runtime.Tick 1000) w1 in
  let w3 := step w2 (Runtime.Dispatch (Filter.ChangeDays (Fin 7))) in
  let w4 := fold_left step (repeat Runtime.Tick 1000) w3 in
  Forall (fun w' => Filter.selectedAppId (Runtime.comp w') = Some (Fin 5))
    (w1 :: trace w1 (repeat Runtime.Tick 1000)
     ++ w3 :: trace w3 (repeat Runtime.Tick 1000)) /\
  Runtime.now w1 = 0 /\
  Runtime.now w4 = 2000 /\
  Runtime.calls w4 = [(0, Fin 5); (1000, Fin 5)]%list /\
  ~ In (2000, Fin 5) (Runtime.calls w4).
Proof.
  intros step trace w0 w1 w2 w3 w4.
  pose proof (filter_begin_selected Samples.base Samples.UTC) as Hbs.
  pose proof (filter_begin_key Samples.base Samples.UTC) as Hbk.
  assert (Hs0 : Runtime.settled Filter.selectedAppId FilterPage.fetchKey w0)
    by apply filter_settled.
  assert (Hd1 : Runtime.current_deps Filter.selectedAppId FilterPage.fetchKey w1
                = (Some (Fin 5), Fin 10)) by (vm_compute; reflexivity).
  destruct (restart_then_ticks _ _ _ Filter.handle Hbs Hbk w0
              (Filter.SelectApp (Fin 5)) (Fin 5) 1000 Hs0 eq_refl)
    as (Hc2 & Hn2 & Hs2 & Hm2 & Hd2 & Hall2).
  { vm_compute. discriminate. }
  { vm_compute. reflexivity. }
  assert (Hc2' : Runtime.calls w2 = [(0, Fin 5)]%list)
    by (etransitivity; [exact Hc2 | vm_compute; reflexivity]).
  assert (Hn2' : Runtime.now w2 = 1000)
    by (etransitivity; [exact Hn2 | vm_compute; reflexivity]).
  assert (Hd2' : Runtime.current_deps Filter.selectedAppId FilterPage.fetchKey w2
                 = (Some (Fin 5), Fin 10)) by exact (eq_trans Hd2 Hd1).
  assert (Hs2' : Runtime.settled Filter.selectedAppId FilterPage.fetchKey w2)
    by exact Hs2.
  assert (Hm2' : Runtime.mounted w2 = true) by exact Hm2.
  clear Hc2 Hn2 Hd2 Hs2 Hm2. clearbody w2. clear Hs0.
  unfold Runtime.current_deps in Hd2'. injection Hd2' as Hsel2 Hkey2.
  assert (Hd3 : Runtime.current_deps Filter.selectedAppId FilterPage.fetchKey w3
                = (Some (Fin 5), Fin 7)).
  { destruct (dispatch_frame _ _ _ Filter.handle Hbs Hbk w2
                (Filter.ChangeDays (Fin 7)) Hs2' Hm2') as (_ & _ & _ & Hd3).
    etransitivity; [exact Hd3 |].
    cbn [Filter.handle fst truthy Z.eqb negb].
    change (FilterPage.fetchKey (Filter.setReviewFilterDays (Fin 7) (Runtime.comp w2)))
      with (Fin 7).
    change (Filter.selectedAppId (Filter.setReviewFilterDays (Fin 7) (Runtime.comp w2)))
      with (Filter.selectedAppId (Runtime.comp w2)).
    rewrite Hsel2. reflexivity. }
  destruct (restart_then_ticks _ _ _ Filter.handle Hbs Hbk w2
              (Filter.ChangeDays (Fin 7)) (Fin 5) 1000 Hs2' Hm2')
    as (Hc4 & Hn4 & _ & _ & _ & Hall4).
  { intros Heq. pose proof (eq_trans (eq_sym Hd3) Heq) as Hx.
    unfold Runtime.current_deps in Hx. rewrite Hsel2, Hkey2 in Hx. discriminate Hx. }
  { unfold Runtime.current_deps in Hd3. injection Hd3 as Hx _. exact Hx. }
  assert (Hc4' : Runtime.calls w4 = [(0, Fin 5); (1000, Fin 5)]%list).
  { etransitivity; [exact Hc4 |]. rewrite Hc2', Hn2'. vm_compute. reflexivity. }
  assert (Hn4' : Runtime.now w4 = 2000).
  { etransitivity; [exact Hn4 |]. rewrite Hn2'. reflexivity. }
  split; [| split; [vm_compute; reflexivity | split; [exact Hn4' |
           split; [exact Hc4' |]]]].
  - change (Forall (fun w' => Filter.selectedAppId (Runtime.comp w') = Some (Fin 5))
              ((w1 :: trace w1 (repeat Runtime.Tick 1000))
               ++ (w3 :: trace w3 (repeat Runtime.Tick 1000)))).
    apply Forall_app. split.
    + eapply Forall_impl; [exact Hall2 |]. intros x Hx.
      pose proof (eq_trans Hx Hd1) as Hy.
      unfold Runtime.current_deps in Hy. injection Hy as Hy _. exact Hy.
    + eapply Forall_impl; [exact Hall4 |]. intros x Hx.
      pose proof (eq_trans Hx Hd3) as Hy.
      unfold Runtime.current_deps in Hy. injection Hy as Hy _. exact Hy.
  - rewrite Hc4'. intros [H | [H | []]]; discriminate H.
Qed.

(** ** Failures *)

Section Failures.

Variable API_BASE_URL : string.
Variable LocalTZA : Z -> bool -> Z.

Lemma plain_rejection_quiet (w : Runtime.world) (e : Plain.event) :
  Runtime.settled Plain.selectedAppId PlainPage.fetchKey w ->
  (exists err, e = Plain.AppsSettled (Rejected err)
               \/ e = Plain.ReviewsSettled (Rejected err)) ->
  let w' := PlainPage.step API_BASE_URL w (Runtime.Dispatch e) in
  Runtime.requests w' = Runtime.requests w /\
  Runtime.calls w' = Runtime.calls w /\
  Runtime.timers w' = Runtime.timers w.
Proof.
  intros Hs (err & He). cbv zeta. unfold PlainPage.step.
  destruct (Runtime.mounted w) eqn:Hm.
  - rewrite (dispatch_same_deps _ _ _ Plain.handle
               (plain_begin_selected API_BASE_URL) (plain_begin_key API_BASE_URL)
               w e Hs Hm).
    + auto.
    + destruct He as [-> | ->]; reflexivity.
    + reflexivity.
  - simpl. unfold Runtime.dispatch. rewrite Hm. auto.
Qed.

Lemma filter_rejection_quiet (w : Runtime.world) (e : Filter.event) :
  Runtime.settled Filter.selectedAppId FilterPage.fetchKey w ->
  (exists err, e = Filter.AppsSettled (Rejected err)
               \/ e = Filter.ReviewsSettled (Rejected err)) ->
  let w' := FilterPage.step API_BASE_URL LocalTZA w (Runtime.Dispatch e) in
  Runtime.requests w' = Runtime.requests w /\
  Runtime.calls w' = Runtime.calls w /\
  Runtime.timers w' = Runtime.timers w.
Proof.
  intros Hs (err & He). cbv zeta. unfold FilterPage.step.
  destruct (Runtime.mounted w) eqn:Hm.
  - rewrite (dispatch_same_deps _ _ _ Filter.handle
               (filter_begin_selected API_BASE_URL LocalTZA)
               (filter_begin_key API_BASE_URL LocalTZA)
               w e Hs Hm).
    + auto.
    + destruct He as [-> | ->]; reflexivity.
    + destruct He as [-> | ->]; reflexivity.
  - simpl. unfold Runtime.dispatch. rewrite Hm. auto.
Qed.

End Failures.

(** C5.  When [getApps] or [getReviews] rejects, the component stores
    in [error] the message of the thrown [Error], or
    ["Failed to fetch apps"] / ["Failed to fetch reviews"] when the
    thrown value is not an [Error]; it clears the loading flag of that
    call; it leaves [apps], [reviews] and [selectedAppId] as they were
    before the call; and it does not try again: the rejection causes no
    request, no call of [fetchReviews] and no change of the timer
    table.  This holds in both components.  The first four parts are
    about the [catch] and [finally] clauses, for every value thrown and
    every state at that moment; the next four about the whole call. *)
Theorem failure_is_surfaced (API_BASE_URL : string) (LocalTZA : Z -> bool -> Z) :
  (forall b st err,
      let st' := Plain.fetchApps_resume (Rejected err) b st in
      Plain.error st' = Some (match err with
                              | Error message => message
                              | NotAnError => "Failed to fetch apps"
                              end) /\
      Plain.loadingApps st' = false /\
      Plain.apps st' = Plain.apps st /\ Plain.reviews st' = Plain.reviews st /\
      Plain.selectedAppId st' = Plain.selectedAppId st) /\
  (forall st err,
      let st' := Plain.fetchReviews_resume (Rejected err) st in
      Plain.error st' = Some (match err with
                              | Error message => message
                              | NotAnError => "Failed to fetch reviews"
                              end) /\
      Plain.loadingReviews st' = false /\
      Plain.apps st' = Plain.apps st /\ Plain.reviews st' = Plain.reviews st /\
      Plain.selectedAppId st' = Plain.selectedAppId st) /\
  (forall b st err,
      let st' := Filter.fetchApps_resume (Rejected err) b st in
      Filter.error st' = Some (match err with
                               | Error message => message
                               | NotAnError => "Failed to fetch apps"
                               end) /\
      Filter.loadingApps st' = false /\
      Filter.apps st' = Filter.apps st /\ Filter.reviews st' = Filter.reviews st /\
      Filter.selectedAppId st' = Filter.selectedAppId st) /\
  (forall st err,
      let st' := Filter.fetchReviews_resume (Rejected err) st in
      Filter.error st' = Some (match err with
                               | Error message => message
                               | NotAnError => "Failed to fetch reviews"
                               end) /\
      Filter.loadingReviews st' = false /\
      Filter.apps st' = Filter.apps st /\ Filter.reviews st' = Filter.reviews st /\
      Filter.selectedAppId st' = Filter.selectedAppId st) /\
  (forall fetchA b st err,
      Service.getApps API_BASE_URL fetchA = Rejected err ->
      let st' := Plain.fetchApps API_BASE_URL fetchA b st in
      Plain.error st' = Some (match err with
                              | Error message => message
                              | NotAnError => "Failed to fetch apps"
                              end) /\
      Plain.loadingApps st' = false /\
      Plain.apps st' = Plain.apps st /\ Plain.reviews st' = Plain.reviews st /\
      Plain.selectedAppId st' = Plain.selectedAppId st) /\
  (forall fetchR appId st err,
      Service.getReviews API_BASE_URL fetchR appId = Rejected err ->
      let st' := Plain.fetchReviews API_BASE_URL fetchR appId st in
      Plain.error st' = Some (match err with
                              | Error message => message
                              | NotAnError => "Failed to fetch reviews"
                              end) /\
      Plain.loadingReviews st' = false /\
      Plain.apps st' = Plain.apps st /\ Plain.reviews st' = Plain.reviews st /\
      Plain.selectedAppId st' = Plain.selectedAppId st) /\
  (forall fetchA b st err,
      Service.getApps API_BASE_URL fetchA = Rejected err ->
      let st' := Filter.fetchApps API_BASE_URL fetchA b st in
      Filter.error st' = Some (match err with
                               | Error message => message
                               | NotAnError => "Failed to fetch apps"
                               end) /\
      Filter.loadingApps st' = false /\
      Filter.apps st' = Filter.apps st /\ Filter.reviews st' = Filter.reviews st /\
      Filter.selectedAppId st' = Filter.selectedAppId st) /\
  (forall fetchR days now appId st err,
      Filter.setDate_back LocalTZA now days <> None ->
      Service.getReviews API_BASE_URL fetchR appId = Rejected err ->
      let st' := Filter.fetchReviews API_BASE_URL LocalTZA fetchR days now appId st in
      Filter.error st' = Some (match err with
                               | Error message => message
                               | NotAnError => "Failed to fetch reviews"
                               end) /\
      Filter.loadingReviews st' = false /\
      Filter.apps st' = Filter.apps st /\ Filter.reviews st' = Filter.reviews st /\
      Filter.selectedAppId st' = Filter.selectedAppId st) /\
  (forall t0 b0 inputs err,
      let w := PlainPage.run API_BASE_URL t0 b0 inputs in
      forall e, e = Plain.AppsSettled (Rejected err) \/ e = Plain.ReviewsSettled (Rejected err) ->
      let w' := PlainPage.step API_BASE_URL w (Runtime.Dispatch e) in
      Runtime.requests w' = Runtime.requests w /\
      Runtime.calls w' = Runtime.calls w /\
      Runtime.timers w' = Runtime.timers w) /\
  (forall t0 b0 inputs err,
      let w := FilterPage.run API_BASE_URL LocalTZA t0 b0 inputs in
      forall e, e = Filter.AppsSettled (Rejected err) \/ e = Filter.ReviewsSettled (Rejected err) ->
      let w' := FilterPage.step API_BASE_URL LocalTZA w (Runtime.Dispatch e) in
      Runtime.requests w' = Runtime.requests w /\
      Runtime.calls w' = Runtime.calls w /\
      Runtime.timers w' = Runtime.timers w).
Proof.
  repeat apply conj.
  - intros b st err. cbv zeta. destruct err; repeat split.
  - intros st err. cbv zeta. destruct err; repeat split.
  - intros b st err. cbv zeta. destruct err; repeat split.
  - intros st err. cbv zeta. destruct err; repeat split.
  - intros fetchA b st err Hr. cbv zeta. unfold Plain.fetchApps. rewrite Hr.
    destruct err; repeat split.
  - intros fetchR appId st err Hr. cbv zeta. unfold Plain.fetchReviews. rewrite Hr.
    destruct err; repeat split.
  - intros fetchA b st err Hr. cbv zeta. unfold Filter.fetchApps. rewrite Hr.
    destruct err; repeat split.
  - intros fetchR days now appId st err Hv Hr. cbv zeta.
    unfold Filter.fetchReviews, Filter.fetchReviews_begin.
    destruct (Filter.setDate_back LocalTZA now days); [| contradiction].
    rewrite Hr. destruct err; repeat split.
  - intros t0 b0 inputs err w e He.
    apply plain_rejection_quiet; [apply plain_settled | eauto].
  - intros t0 b0 inputs err w e He.
    apply filter_rejection_quiet; [apply filter_settled | eauto].
Qed.

Lemma failure_is_surfaced_witness :
  let fetchR := fun _ : string => Fulfilled Samples.invalid_422 in
  let st := Plain.setReviews [Samples.review1] Plain.initial in
  let st' := Plain.fetchReviews Samples.base fetchR (Fin 5) st in
  let st2 := Plain.fetchReviews_resume (Rejected NotAnError)
               (Plain.fetchReviews_begin st) in
  (Plain.error st' = Some "Validation Error: too small, not a number" /\
   Plain.loadingReviews st' = false /\
   Plain.reviews st' = [Samples.review1]%list) /\
  (Plain.error st2 = Some "Failed to fetch reviews" /\
   Plain.loadingReviews st2 = false /\
   Plain.reviews st2 = [Samples.review1]%list).
Proof.
  cbv zeta.
  destruct (failure_is_surfaced Samples.base Samples.UTC)
    as (_ & Hresume & _ & _ & _ & Hcall & _).
  destruct (Hcall (fun _ : string => Fulfilled Samples.invalid_422) (Fin 5)
              (Plain.setReviews [Samples.review1] Plain.initial)
              (Error "Validation Error: too small, not a number") eq_refl)
    as (H1 & H2 & _ & H4 & _).
  destruct (Hresume (Plain.fetchReviews_begin
                       (Plain.setReviews [Samples.review1] Plain.initial)) NotAnError)
    as (G1 & G2 & _ & G4 & _).
  exact (conj (conj H1 (conj H2 H4)) (conj G1 (conj G2 G4))).
Defined.

(** ** Predicates that every step of the machine keeps *)

Section MachineFrame.

Context {S E K : Type} `{EqDecision K} `{Navigation E}.

Variable selected : S -> option number.
Variable fetchKey : S -> K.
Variable begin_fetch : K -> Z -> number -> S -> S * list string.
Variable handle : E -> S -> browser -> S * browser.

Import Runtime.

Local Abbreviation world := (@Runtime.world S K).

(** [W] only looks at the state of the component and at the two logs,
    and a call of [fetchReviews] keeps it. *)
Variable W : world -> Prop.

Hypothesis W_frame :
  forall w w' : world,
    comp w' = comp w -> calls w' = calls w -> requests w' = requests w ->
    W w -> W w'.

Hypothesis W_call :
  forall k a (w : world), W w -> W (Runtime.callFetchReviews begin_fetch k a w).

Lemma frame_pollingEffect (w : world) :
  W w -> W (Runtime.pollingEffect selected fetchKey begin_fetch w).
Proof.
  intros Hw. unfold Runtime.pollingEffect.
  destruct (selected (comp w)) as [a |].
  - eapply W_frame; [| | | apply (W_call (fetchKey (comp w)) a w Hw)]; reflexivity.
  - eapply W_frame; [| | | exact Hw]; reflexivity.
Qed.

Lemma frame_runCleanup (w : world) : W w -> W (runCleanup w).
Proof.
  intros Hw. unfold Runtime.runCleanup. destruct (cleanup w); [| assumption].
  eapply W_frame; [| | | exact Hw]; reflexivity.
Qed.

Lemma frame_commit (w : world) :
  W w -> W (Runtime.commit selected fetchKey begin_fetch w).
Proof.
  intros Hw. unfold Runtime.commit. destruct (mounted w); [| assumption].
  destruct (decide _); [assumption |].
  eapply W_frame; [| | | apply frame_pollingEffect, frame_runCleanup, Hw]; reflexivity.
Qed.

Lemma frame_fire (tid : nat) (t : timer K) (w : world) :
  W w -> W (Runtime.fire begin_fetch tid t w).
Proof.
  intros Hw. unfold Runtime.fire. destruct (due t =? now w); [| assumption].
  eapply W_frame; [| | | apply (W_call (cb_fetch t) (cb_appId t) w Hw)]; reflexivity.
Qed.

Lemma frame_tick (w : world) :
  W w -> W (Runtime.tick selected fetchKey begin_fetch w).
Proof.
  intros Hw. unfold Runtime.tick. cbv zeta. apply frame_commit.
  apply (map_fold_weak_ind (fun r _ => W r)).
  - eapply W_frame; [| | | exact Hw]; reflexivity.
  - intros i x m r _ Hr. apply frame_fire, Hr.
Qed.

Lemma frame_unmount (w : world) : W w -> W (unmount w).
Proof.
  intros Hw. unfold Runtime.unmount. destruct (mounted w); [| assumption].
  eapply W_frame; [| | | apply frame_runCleanup, Hw]; reflexivity.
Qed.

(** A step keeps [W] when the handler of the event, if there is one,
    leads to a world where [W] holds. *)
Lemma frame_step (w : world) (i : @Runtime.input E) :
  W w ->
  match i with
  | Dispatch e =>
      mounted w = true ->
      W (set_page (fst (handle e (comp w) (loc w)))
           (snd (handle e (comp w) (loc w))) w)
  | _ => True
  end ->
  W (Runtime.step selected fetchKey begin_fetch handle w i).
Proof.
  intros Hw Hi. destruct i as [e | |]; simpl.
  - unfold Runtime.dispatch. destruct (mounted w) eqn:Hm;
      [| eapply W_frame; [| | | exact Hw]; reflexivity].
    specialize (Hi eq_refl). destruct (handle e (comp w) (loc w)) as [st b].
    apply frame_commit, Hi.
  - apply frame_tick, Hw.
  - apply frame_unmount, Hw.
Qed.

End MachineFrame.

(** ** The day filter and the requests *)

Section FilterAlike.

Variable API_BASE_URL : string.
Variable LocalTZA : Z -> bool -> Z.

Import Runtime.

Local Abbreviation world := (@Runtime.world Filter.state number).
Local Abbreviation fstep := (FilterPage.step API_BASE_URL LocalTZA).
Local Abbreviation fbegin := (FilterPage.begin_fetch API_BASE_URL LocalTZA).
Local Abbreviation fsettled := (Runtime.settled Filter.selectedAppId FilterPage.fetchKey).
Local Abbreviation alike := FilterPage.alike_but_days.
Local Abbreviation forget := FilterPage.forget_days.

Ltac filter_cbn :=
  cbn [fst snd Filter.apps Filter.selectedAppId Filter.customAppId Filter.reviews
       Filter.loadingApps Filter.loadingReviews Filter.error Filter.reviewFilterDays
       Filter.setApps Filter.setSelectedAppId Filter.setCustomAppId Filter.setReviews
       Filter.setLoadingApps Filter.setLoadingReviews Filter.setError
       Filter.setReviewFilterDays FilterPage.forget_days].

Ltac world_cbn :=
  cbn [comp loc now timers next_timer cleanup deps calls requests mounted
       set_page set_loc set_now set_cleanup set_deps clearInterval setInterval
       fst snd].

Ltac alike_fields :=
  repeat match goal with |- _ /\ _ => split end;
  first [assumption | reflexivity | congruence].

Lemma forget_fields (st1 st2 : Filter.state) :
  forget st1 = forget st2 <->
  Filter.apps st1 = Filter.apps st2 /\
  Filter.selectedAppId st1 = Filter.selectedAppId st2 /\
  Filter.customAppId st1 = Filter.customAppId st2 /\
  Filter.reviews st1 = Filter.reviews st2 /\
  Filter.loadingApps st1 = Filter.loadingApps st2 /\
  Filter.loadingReviews st1 = Filter.loadingReviews st2 /\
  Filter.error st1 = Filter.error st2.
Proof.
  split.
  - intros H.
    pose proof (f_equal Filter.apps H) as H1.
    pose proof (f_equal Filter.selectedAppId H) as H2.
    pose proof (f_equal Filter.customAppId H) as H3.
    pose proof (f_equal Filter.reviews H) as H4.
    pose proof (f_equal Filter.loadingApps H) as H5.
    pose proof (f_equal Filter.loadingReviews H) as H6.
    pose proof (f_equal Filter.error H) as H7.
    auto 10.
  - intros (H1 & H2 & H3 & H4 & H5 & H6 & H7).
    unfold FilterPage.forget_days, Filter.setReviewFilterDays.
    rewrite H1, H2, H3, H4, H5, H6, H7. reflexivity.
Qed.

(** The handlers other than those of the filter read nothing of
    [reviewFilterDays] and do not write it. *)
Lemma alike_handle (e : Filter.event) (st1 st2 : Filter.state) (b : browser) :
  FilterPage.keeps_filter (Dispatch e) = true ->
  forget st1 = forget st2 ->
  forget (fst (Filter.handle e st1 b)) = forget (fst (Filter.handle e st2 b)) /\
  snd (Filter.handle e st1 b) = snd (Filter.handle e st2 b) /\
  Filter.reviewFilterDays (fst (Filter.handle e st1 b)) = Filter.reviewFilterDays st1 /\
  Filter.reviewFilterDays (fst (Filter.handle e st2 b)) = Filter.reviewFilterDays st2.
Proof.
  intros Hk Hf. apply forget_fields in Hf.
  destruct Hf as (H1 & H2 & H3 & H4 & H5 & H6 & H7).
  destruct e as [r | r | path | appId | value | | parsed |];
    try discriminate Hk; cbn [Filter.handle fst snd].
  - unfold Filter.fetchApps_resume. cbv zeta. destruct r as [response | err].
    + destruct (getAppIdFromUrl b) as [u |].
      * destruct (truthy u).
        -- destruct (Filter.appExists (Service.apps_items response) u);
             (split; [apply forget_fields; filter_cbn; auto 10 | repeat split]).
        -- split; [apply forget_fields; filter_cbn; auto 10 | repeat split].
      * split; [apply forget_fields; filter_cbn; auto 10 | repeat split].
    + split; [apply forget_fields; filter_cbn; auto 10 | repeat split].
  - unfold Filter.fetchReviews_resume. cbv zeta. destruct r as [response | err];
      (split; [apply forget_fields; filter_cbn; auto 10 | repeat split]).
  - unfold Filter.handlePopState. rewrite H1.
    destruct (getAppIdFromUrl (traverse path b)) as [u |].
    + destruct (truthy u).
      * destruct (Filter.appExists (Filter.apps st2) u);
          (split; [apply forget_fields; filter_cbn; auto 10 | repeat split]).
      * split; [apply forget_fields; filter_cbn; auto 10 | repeat split].
    + split; [apply forget_fields; filter_cbn; auto 10 | repeat split].
  - unfold Filter.handleAppSelect. cbn [fst snd].
    split; [apply forget_fields; filter_cbn; auto 10 | repeat split].
  - split; [apply forget_fields; filter_cbn; auto 10 | repeat split].
  - unfold Filter.handleCustomAppIdSubmit. cbv zeta. rewrite H3.
    destruct (negb (isNaN (parseInt (Filter.customAppId st2)))
              && gt_zero (parseInt (Filter.customAppId st2))); cbn [fst snd];
      (split; [apply forget_fields; filter_cbn; auto 10 | repeat split]).
Qed.

Lemma alike_call (k1 k2 a : number) (w1 w2 : world) :
  alike w1 w2 ->
  Filter.setDate_back LocalTZA (now w1) k1 <> None ->
  Filter.setDate_back LocalTZA (now w1) k2 <> None ->
  alike (Runtime.callFetchReviews fbegin k1 a w1)
        (Runtime.callFetchReviews fbegin k2 a w2).
Proof.
  intros (Hc & Hl & Hn & Hnx & Hcl & Hca & Hr & Hm & Ht) V1 V2.
  unfold Runtime.callFetchReviews, FilterPage.begin_fetch,
    Filter.fetchReviews_requests, Filter.fetchReviews_begin.
  rewrite <- Hn.
  destruct (Filter.setDate_back LocalTZA (now w1) k1); [| contradiction].
  destruct (Filter.setDate_back LocalTZA (now w1) k2); [| contradiction].
  cbn [fst snd]. unfold FilterPage.alike_but_days. world_cbn.
  apply forget_fields in Hc. destruct Hc as (H1 & H2 & H3 & H4 & H5 & H6 & H7).
  split; [apply forget_fields; filter_cbn; auto 10 |].
  rewrite Hca, Hr. auto 10.
Qed.

Lemma alike_runCleanup (w1 w2 : world) :
  alike w1 w2 -> alike (runCleanup w1) (runCleanup w2).
Proof.
  intros (Hc & Hl & Hn & Hnx & Hcl & Hca & Hr & Hm & Ht).
  unfold Runtime.runCleanup. rewrite Hcl. destruct (cleanup w2) as [tid |] eqn:Hc2.
  - unfold FilterPage.alike_but_days. world_cbn. rewrite !fmap_delete, Ht. auto 10.
  - rewrite <- Hc2 in Hcl. unfold FilterPage.alike_but_days. auto 10.
Qed.

Lemma alike_pollingEffect (w1 w2 : world) :
  alike w1 w2 ->
  Filter.setDate_back LocalTZA (now w1) (Filter.reviewFilterDays (comp w1)) <> None ->
  Filter.setDate_back LocalTZA (now w1) (Filter.reviewFilterDays (comp w2)) <> None ->
  alike (Runtime.pollingEffect Filter.selectedAppId FilterPage.fetchKey fbegin w1)
        (Runtime.pollingEffect Filter.selectedAppId FilterPage.fetchKey fbegin w2).
Proof.
  intros Ha V1 V2. unfold Runtime.pollingEffect.
  pose proof Ha as (Hc & _). apply forget_fields in Hc. destruct Hc as (_ & Hsel & _).
  rewrite Hsel. destruct (Filter.selectedAppId (comp w2)) as [a |].
  - unfold FilterPage.fetchKey.
    pose proof (alike_call _ _ a w1 w2 Ha V1 V2) as Hcall.
    remember (Runtime.callFetchReviews fbegin (Filter.reviewFilterDays (comp w1)) a w1)
      as x1 eqn:E1. clear E1.
    remember (Runtime.callFetchReviews fbegin (Filter.reviewFilterDays (comp w2)) a w2)
      as x2 eqn:E2. clear E2.
    destruct Hcall as (Hc & Hl & Hn & Hnx & Hcl & Hca & Hr & Hm & Ht).
    unfold FilterPage.alike_but_days. world_cbn.
    rewrite !fmap_insert, Ht, Hn, Hnx. unfold FilterPage.timer_shape at 1 3.
    cbn [due cb_appId]. auto 10.
  - destruct Ha as (Hc & Hl & Hn & Hnx & Hcl & Hca & Hr & Hm & Ht).
    unfold FilterPage.alike_but_days. world_cbn. auto 10.
Qed.

Lemma alike_commit (w1 w2 : world) :
  alike w1 w2 ->
  (mounted w2 = true ->
   (deps w1 = Some (Runtime.current_deps Filter.selectedAppId FilterPage.fetchKey w1) <->
    deps w2 = Some (Runtime.current_deps Filter.selectedAppId FilterPage.fetchKey w2))) ->
  Filter.setDate_back LocalTZA (now w1) (Filter.reviewFilterDays (comp w1)) <> None ->
  Filter.setDate_back LocalTZA (now w1) (Filter.reviewFilterDays (comp w2)) <> None ->
  alike (Runtime.commit Filter.selectedAppId FilterPage.fetchKey fbegin w1)
        (Runtime.commit Filter.selectedAppId FilterPage.fetchKey fbegin w2).
Proof.
  intros Ha Hiff V1 V2. unfold Runtime.commit.
  pose proof Ha as (_ & _ & _ & _ & _ & _ & _ & Hm & _). rewrite Hm.
  destruct (mounted w2); [| exact Ha]. specialize (Hiff eq_refl).
  destruct (decide (deps w1 = Some _)) as [E1 | N1];
    destruct (decide (deps w2 = Some _)) as [E2 | N2].
  - exact Ha.
  - exfalso. apply N2, Hiff, E1.
  - exfalso. apply N1, Hiff, E2.
  - pose proof (alike_runCleanup w1 w2 Ha) as Hr.
    assert (V1' : Filter.setDate_back LocalTZA (now (runCleanup w1))
                    (Filter.reviewFilterDays (comp (runCleanup w1))) <> None).
    { unfold Runtime.runCleanup. destruct (cleanup w1); exact V1. }
    assert (V2' : Filter.setDate_back LocalTZA (now (runCleanup w1))
                    (Filter.reviewFilterDays (comp (runCleanup w2))) <> None).
    { unfold Runtime.runCleanup. destruct (cleanup w1); destruct (cleanup w2); exact V2. }
    pose proof (alike_pollingEffect _ _ Hr V1' V2') as Hp.
    destruct Hp as (Hc & Hl & Hn & Hnx & Hcl & Hca & Hrq & Hmo & Ht).
    unfold FilterPage.alike_but_days. world_cbn. auto 10.
Qed.

(** One step of two settled pages that are alike. *)
Lemma alike_step (w1 w2 : world) (i : @Runtime.input Filter.event) :
  fsettled w1 -> fsettled w2 -> alike w1 w2 ->
  FilterPage.keeps_filter i = true ->
  (forall t, now w1 <= t <= now w1 + Z.of_nat (Runtime.count_ticks [i]) ->
             Filter.setDate_back LocalTZA t (Filter.reviewFilterDays (comp w1)) <> None /\
             Filter.setDate_back LocalTZA t (Filter.reviewFilterDays (comp w2)) <> None) ->
  alike (fstep w1 i) (fstep w2 i) /\
  Filter.reviewFilterDays (comp (fstep w1 i)) = Filter.reviewFilterDays (comp w1) /\
  Filter.reviewFilterDays (comp (fstep w2 i)) = Filter.reviewFilterDays (comp w2).
Proof.
  intros Hs1 Hs2 Ha Hk Hv.
  assert (Hd1 : Filter.reviewFilterDays (comp (fstep w1 i))
                = Filter.reviewFilterDays (comp w1)).
  { unfold FilterPage.step.
    apply (frame_step Filter.selectedAppId FilterPage.fetchKey fbegin Filter.handle
             (fun x => Filter.reviewFilterDays (comp x) = Filter.reviewFilterDays (comp w1))).
    - intros x x' Hc _ _ Hx. rewrite Hc. exact Hx.
    - intros k a x Hx. rewrite call_comp.
      pose proof (filter_begin_key API_BASE_URL LocalTZA k (now x) a (comp x)) as Hkey.
      unfold FilterPage.fetchKey in Hkey. rewrite Hkey. exact Hx.
    - reflexivity.
    - destruct i as [e | |]; [| exact I | exact I]. intros _.
      cbn [comp set_page].
      apply (alike_handle e (comp w1) (comp w1) (loc w1) Hk eq_refl). }
  assert (Hd2 : Filter.reviewFilterDays (comp (fstep w2 i))
                = Filter.reviewFilterDays (comp w2)).
  { unfold FilterPage.step.
    apply (frame_step Filter.selectedAppId FilterPage.fetchKey fbegin Filter.handle
             (fun x => Filter.reviewFilterDays (comp x) = Filter.reviewFilterDays (comp w2))).
    - intros x x' Hc _ _ Hx. rewrite Hc. exact Hx.
    - intros k a x Hx. rewrite call_comp.
      pose proof (filter_begin_key API_BASE_URL LocalTZA k (now x) a (comp x)) as Hkey.
      unfold FilterPage.fetchKey in Hkey. rewrite Hkey. exact Hx.
    - reflexivity.
    - destruct i as [e | |]; [| exact I | exact I]. intros _.
      cbn [comp set_page].
      apply (alike_handle e (comp w2) (comp w2) (loc w2) Hk eq_refl). }
  split; [| split; assumption].
  pose proof Ha as (Hc & Hl & Hn & Hnx & Hcl & Hca & Hr & Hm & Ht).
  unfold FilterPage.step. destruct i as [e | |]; cbn [Runtime.step].
  - (* an event *)
    destruct (Hv (now w1) ltac:(cbn; lia)) as [V1 V2].
    unfold Runtime.dispatch. rewrite Hm. destruct (mounted w2) eqn:Hm2.
    + destruct (alike_handle e (comp w1) (comp w2) (loc w1) Hk Hc)
        as (Hf & Hb & Hk1 & Hk2).
      rewrite <- Hl.
      destruct (Filter.handle e (comp w1) (loc w1)) as [st1 b1].
      destruct (Filter.handle e (comp w2) (loc w1)) as [st2 b2].
      cbn [fst snd] in Hf, Hb, Hk1, Hk2. subst b2.
      apply alike_commit.
      * unfold FilterPage.alike_but_days. world_cbn. alike_fields.
      * intros _. world_cbn. destruct Hs1 as [D1 _]. destruct Hs2 as [D2 _].
        rewrite (D1 Hm), (D2 Hm2). unfold Runtime.current_deps, FilterPage.fetchKey.
        world_cbn. rewrite Hk1, Hk2.
        apply forget_fields in Hf. destruct Hf as (_ & Hsel' & _).
        apply forget_fields in Hc. destruct Hc as (_ & Hsel & _).
        rewrite Hsel, Hsel'. split; intros [= E]; rewrite E; reflexivity.
      * world_cbn. rewrite Hk1. exact V1.
      * world_cbn. rewrite Hk2. exact V2.
    + unfold FilterPage.alike_but_days. world_cbn. rewrite Hl. alike_fields.
  - (* a tick *)
    destruct (Hv (now w1 + 1) ltac:(cbn; lia)) as [V1' V2'].
    unfold Runtime.tick. cbv zeta. world_cbn. rewrite <- Hn.
    destruct Hs1 as [D1 S1]. destruct Hs2 as [D2 S2].
    assert (Ha' : alike (set_now (now w1 + 1) w1) (set_now (now w1 + 1) w2)).
    { unfold FilterPage.alike_but_days. world_cbn. alike_fields. }
    rewrite Hcl in S1. destruct (cleanup w2) as [tid |] eqn:Hc2.
    + destruct S1 as (M1 & _ & a1 & d1 & Hsel1 & Ht1 & _).
      destruct S2 as (M2 & _ & a2 & d2 & Hsel2 & Ht2 & _).
      assert (Hsh : d1 = d2 /\ a1 = a2).
      { pose proof (f_equal (fun m => m !! tid) Ht) as Hlk. cbv beta in Hlk.
        rewrite !lookup_fmap, Ht1, Ht2, !lookup_singleton_eq in Hlk.
        cbn in Hlk. injection Hlk as -> ->. auto. }
      destruct Hsh as [<- <-].
      rewrite Ht1, Ht2, !map_fold_singleton.
      unfold Runtime.fire. cbn [due cb_appId cb_fetch]. world_cbn.
      unfold FilterPage.fetchKey.
      destruct (d1 =? now w1 + 1).
      * pose proof (alike_call (Filter.reviewFilterDays (comp w1))
                      (Filter.reviewFilterDays (comp w2)) a1 _ _ Ha' V1' V2') as Hcall.
        pose proof (call_frame (fbegin) (Filter.reviewFilterDays (comp w1)) a1
                      (set_now (now w1 + 1) w1)) as F1.
        pose proof (call_frame (fbegin) (Filter.reviewFilterDays (comp w2)) a1
                      (set_now (now w1 + 1) w2)) as F2.
        pose proof (call_deps Filter.selectedAppId FilterPage.fetchKey fbegin
                      (filter_begin_selected API_BASE_URL LocalTZA)
                      (filter_begin_key API_BASE_URL LocalTZA)
                      (Filter.reviewFilterDays (comp w1)) a1
                      (set_now (now w1 + 1) w1)) as C1.
        pose proof (call_deps Filter.selectedAppId FilterPage.fetchKey fbegin
                      (filter_begin_selected API_BASE_URL LocalTZA)
                      (filter_begin_key API_BASE_URL LocalTZA)
                      (Filter.reviewFilterDays (comp w2)) a1
                      (set_now (now w1 + 1) w2)) as C2.
        cbv zeta in F1, F2.
        remember (Runtime.callFetchReviews fbegin (Filter.reviewFilterDays (comp w1)) a1
                    (set_now (now w1 + 1) w1)) as x1 eqn:E1. clear E1.
        remember (Runtime.callFetchReviews fbegin (Filter.reviewFilterDays (comp w2)) a1
                    (set_now (now w1 + 1) w2)) as x2 eqn:E2. clear E2.
        destruct F1 as (_ & Fn1 & Ft1 & _ & _ & Fd1 & Fm1).
        destruct F2 as (_ & Fn2 & Ft2 & _ & _ & Fd2 & Fm2).
        cbn [now timers deps mounted set_now] in Fn1, Ft1, Fd1, Fm1, Fn2, Ft2, Fd2, Fm2.
        destruct Hcall as (Gc & Gl & Gn & Gnx & Gcl & Gca & Gr & Gm & Gt).
        apply alike_commit.
        -- unfold FilterPage.alike_but_days. world_cbn.
           rewrite Ft1, Ft2, Ht1, Ht2, !alter_singleton_eq, !map_fmap_singleton.
           unfold FilterPage.timer_shape. cbn [due cb_appId]. alike_fields.
        -- intros _. world_cbn. rewrite Fd1, Fd2, (D1 M1), (D2 M2).
           unfold Runtime.current_deps in *. world_cbn.
           change (comp (set_now (now w1 + 1) w1)) with (comp w1) in C1.
           change (comp (set_now (now w1 + 1) w2)) with (comp w2) in C2.
           rewrite C1, C2. split; reflexivity.
        -- world_cbn. rewrite Fn1.
           unfold Runtime.current_deps in C1.
           change (comp (set_now (now w1 + 1) w1)) with (comp w1) in C1.
           injection C1 as _ K1. unfold FilterPage.fetchKey in K1. rewrite K1. exact V1'.
        -- world_cbn. rewrite Fn1.
           unfold Runtime.current_deps in C2.
           change (comp (set_now (now w1 + 1) w2)) with (comp w2) in C2.
           injection C2 as _ K2. unfold FilterPage.fetchKey in K2. rewrite K2. exact V2'.
      * apply alike_commit.
        -- exact Ha'.
        -- intros _. world_cbn. rewrite (D1 M1), (D2 M2). split; reflexivity.
        -- exact V1'.
        -- exact V2'.
    + destruct S1 as [Ht1 _]. destruct S2 as [Ht2 _].
      rewrite Ht1, Ht2, !map_fold_empty.
      apply alike_commit.
      * exact Ha'.
      * world_cbn. intros Hm2.
        assert (Hm1 : mounted w1 = true) by congruence.
        rewrite (D1 Hm1), (D2 Hm2). split; reflexivity.
      * exact V1'.
      * exact V2'.
  - (* unmount *)
    unfold Runtime.unmount. rewrite Hm. destruct (mounted w2); [| exact Ha].
    pose proof (alike_runCleanup w1 w2 Ha) as Hrc.
    destruct Hrc as (Gc & Gl & Gn & Gnx & Gcl & Gca & Gr & Gm & Gt).
    unfold FilterPage.alike_but_days. world_cbn. alike_fields.
Qed.

Lemma filter_step_now (w : world) (i : @Runtime.input Filter.event) :
  fsettled w ->
  now (fstep w i) = now w + Z.of_nat (Runtime.count_ticks [i]).
Proof.
  intros Hs. unfold FilterPage.step. destruct i as [e | |]; cbn [Runtime.step].
  - destruct (mounted w) eqn:Hm.
    + pose proof (dispatch_frame Filter.selectedAppId FilterPage.fetchKey fbegin
                    Filter.handle (filter_begin_selected API_BASE_URL LocalTZA)
                    (filter_begin_key API_BASE_URL LocalTZA) w e Hs Hm) as Hd.
      cbv zeta in Hd. destruct Hd as (_ & Hn & _). cbn [Runtime.step] in Hn.
      rewrite Hn. cbn. lia.
    + rewrite (dispatch_unmounted Filter.selectedAppId FilterPage.fetchKey fbegin
                 Filter.handle e w Hm). cbn. lia.
  - pose proof (tick_spec Filter.selectedAppId FilterPage.fetchKey fbegin
                  (filter_begin_selected API_BASE_URL LocalTZA)
                  (filter_begin_key API_BASE_URL LocalTZA) w Hs) as Ht.
    cbv zeta in Ht. destruct Ht as (_ & Hn & _). rewrite Hn. cbn. lia.
  - pose proof (unmount_spec Filter.selectedAppId FilterPage.fetchKey w Hs) as Hu.
    cbv zeta in Hu. destruct Hu as (_ & _ & _ & Hn & _). rewrite Hn. cbn. lia.
Qed.

(** Two settled pages that are alike stay alike through inputs that do
    not write the filter, while the cut-off dates are valid. *)
Lemma alike_fold (inputs : list (@Runtime.input Filter.event)) :
  forall w1 w2 : world,
    fsettled w1 -> fsettled w2 -> alike w1 w2 ->
    forallb FilterPage.keeps_filter inputs = true ->
    (forall t, now w1 <= t <= now w1 + Z.of_nat (Runtime.count_ticks inputs) ->
               Filter.setDate_back LocalTZA t (Filter.reviewFilterDays (comp w1)) <> None /\
               Filter.setDate_back LocalTZA t (Filter.reviewFilterDays (comp w2)) <> None) ->
    alike (fold_left fstep inputs w1) (fold_left fstep inputs w2).
Proof.
  induction inputs as [| i rest IH]; intros w1 w2 Hs1 Hs2 Ha Hk Hv; [exact Ha |].
  cbn [fold_left]. cbn [forallb] in Hk. apply andb_true_iff in Hk as [Hki Hkr].
  assert (Hc : Z.of_nat (Runtime.count_ticks (i :: rest))
               = Z.of_nat (Runtime.count_ticks [i])
                 + Z.of_nat (Runtime.count_ticks rest)).
  { destruct i; cbn [Runtime.count_ticks]; lia. }
  destruct (alike_step w1 w2 i Hs1 Hs2 Ha Hki) as (Ha' & Hd1 & Hd2).
  { intros t Ht. apply Hv. lia. }
  apply IH.
  - apply (step_settled Filter.selectedAppId FilterPage.fetchKey fbegin Filter.handle
             (filter_begin_selected API_BASE_URL LocalTZA)
             (filter_begin_key API_BASE_URL LocalTZA)), Hs1.
  - apply (step_settled Filter.selectedAppId FilterPage.fetchKey fbegin Filter.handle
             (filter_begin_selected API_BASE_URL LocalTZA)
             (filter_begin_key API_BASE_URL LocalTZA)), Hs2.
  - exact Ha'.
  - exact Hkr.
  - intros t Ht. rewrite Hd1, Hd2. apply Hv.
    rewrite (filter_step_now w1 i Hs1) in Ht. lia.
Qed.

End FilterAlike.

(** C8, as amended.  Whenever the cut-off date computed from
    [reviewFilterDays] is a valid date, [fetchReviews] of the component
    with the day filter requests the same URL as [fetchReviews] of the
    plain component, for every [appId]; two calls of [fetchReviews]
    that differ only in [reviewFilterDays], both with a valid cut-off
    date, request the same URL and end with the same reviews, error and
    loading flag; and two pages with the day filter that are alike
    except for the value of [reviewFilterDays] stay alike, with the same
    calls of [fetchReviews], the same requests and the same reviews,
    error and selection, through every sequence of inputs that does not
    change the filter, as long as the cut-off dates are valid. *)
Theorem review_filter_noninterference (API_BASE_URL : string)
  (LocalTZA : Z -> bool -> Z) (now : Z) (appId : number) :
  (forall days,
      Filter.setDate_back LocalTZA now days <> None ->
      Filter.fetchReviews_requests API_BASE_URL LocalTZA days now appId
      = Plain.fetchReviews_requests API_BASE_URL appId) /\
  (forall days1 days2 fetchR st,
      Filter.setDate_back LocalTZA now days1 <> None ->
      Filter.setDate_back LocalTZA now days2 <> None ->
      let run days :=
        Filter.fetchReviews API_BASE_URL LocalTZA fetchR days now appId
          (Filter.setReviewFilterDays days st) in
      Filter.fetchReviews_requests API_BASE_URL LocalTZA days1 now appId
      = Filter.fetchReviews_requests API_BASE_URL LocalTZA days2 now appId /\
      Filter.reviews (run days1) = Filter.reviews (run days2) /\
      Filter.error (run days1) = Filter.error (run days2) /\
      Filter.loadingReviews (run days1) = Filter.loadingReviews (run days2)) /\
  (forall (w1 w2 : @Runtime.world Filter.state number) inputs,
      Runtime.settled Filter.selectedAppId FilterPage.fetchKey w1 ->
      Runtime.settled Filter.selectedAppId FilterPage.fetchKey w2 ->
      FilterPage.alike_but_days w1 w2 ->
      forallb FilterPage.keeps_filter inputs = true ->
      (forall t,
          Runtime.now w1 <= t <= Runtime.now w1 + Z.of_nat (Runtime.count_ticks inputs) ->
          Filter.setDate_back LocalTZA t (Filter.reviewFilterDays (Runtime.comp w1))
          <> None /\
          Filter.setDate_back LocalTZA t (Filter.reviewFilterDays (Runtime.comp w2))
          <> None) ->
      let w1' := fold_left (FilterPage.step API_BASE_URL LocalTZA) inputs w1 in
      let w2' := fold_left (FilterPage.step API_BASE_URL LocalTZA) inputs w2 in
      FilterPage.alike_but_days w1' w2' /\
      Runtime.calls w1' = Runtime.calls w2' /\
      Runtime.requests w1' = Runtime.requests w2' /\
      Filter.reviews (Runtime.comp w1') = Filter.reviews (Runtime.comp w2') /\
      Filter.error (Runtime.comp w1') = Filter.error (Runtime.comp w2') /\
      Filter.loadingReviews (Runtime.comp w1')
      = Filter.loadingReviews (Runtime.comp w2') /\
      Filter.selectedAppId (Runtime.comp w1')
      = Filter.selectedAppId (Runtime.comp w2')).
Proof.
  split; [| split].
  - intros days Hv. unfold Filter.fetchReviews_requests, Plain.fetchReviews_requests.
    destruct (Filter.setDate_back LocalTZA now days); [reflexivity | contradiction].
  - intros days1 days2 fetchR st H1 H2. cbv zeta.
    unfold Filter.fetchReviews_requests, Filter.fetchReviews, Filter.fetchReviews_begin.
    destruct (Filter.setDate_back LocalTZA now days1); [| contradiction].
    destruct (Filter.setDate_back LocalTZA now days2); [| contradiction].
    unfold Filter.fetchReviews_resume.
    destruct (Service.getReviews API_BASE_URL fetchR appId); repeat split.
  - intros w1 w2 inputs Hs1 Hs2 Ha Hk Hv. cbv zeta.
    pose proof (alike_fold API_BASE_URL LocalTZA inputs w1 w2 Hs1 Hs2 Ha Hk Hv) as Hf.
    split; [exact Hf |].
    destruct Hf as (Hc & _ & _ & _ & _ & Hca & Hr & _).
    apply forget_fields in Hc. destruct Hc as (_ & Hsel & _ & Hrev & _ & Hlr & Herr).
    auto 10.
Qed.

Lemma review_filter_noninterference_witness :
  let w1 := FilterPage.run Samples.base Samples.UTC 0 Samples.origin
              [Runtime.Dispatch (Filter.AppsSettled (Fulfilled Samples.apps_loaded));
               Runtime.Dispatch (Filter.ChangeDays (Fin 7));
               Runtime.Dispatch (Filter.SelectApp (Fin 5))] in
  let w2 := FilterPage.run Samples.base Samples.UTC 0 Samples.origin
              [Runtime.Dispatch (Filter.AppsSettled (Fulfilled Samples.apps_loaded));
               Runtime.Dispatch (Filter.ChangeDays (Fin 30));
               Runtime.Dispatch (Filter.SelectApp (Fin 5))] in
  let inputs := [Runtime.Tick;
                 Runtime.Dispatch (Filter.ReviewsSettled
                                     (Fulfilled (Service.mkGetReviewsResponse
                                                   [Samples.review1])));
                 Runtime.Dispatch (Filter.PopState "/app/7")] in
  Filter.fetchReviews_requests Samples.base Samples.UTC (Fin 30) 1790000000000 (Fin 5)
  = Plain.fetchReviews_requests Samples.base (Fin 5) /\
  Runtime.requests (fold_left (FilterPage.step Samples.base Samples.UTC) inputs w1)
  = Runtime.requests (fold_left (FilterPage.step Samples.base Samples.UTC) inputs w2).
Proof.
  cbv zeta.
  destruct (review_filter_noninterference Samples.base Samples.UTC 1790000000000 (Fin 5))
    as (Hurl & _ & Hrun).
  split.
  - apply Hurl. vm_compute. discriminate.
  - apply Hrun.
    + apply filter_settled.
    + apply filter_settled.
    + vm_compute. repeat split.
    + reflexivity.
    + intros t Ht.
      assert (Hn : Runtime.now
                     (FilterPage.run Samples.base Samples.UTC 0 Samples.origin
                        [Runtime.Dispatch
                           (Filter.AppsSettled (Fulfilled Samples.apps_loaded));
                         Runtime.Dispatch (Filter.ChangeDays (Fin 7));
                         Runtime.Dispatch (Filter.SelectApp (Fin 5))]) = 0)
        by (vm_compute; reflexivity).
      rewrite Hn in Ht. cbn [Runtime.count_ticks Z.of_nat] in Ht.
      assert (Hd1 : Filter.reviewFilterDays
                      (Runtime.comp
                         (FilterPage.run Samples.base Samples.UTC 0 Samples.origin
                            [Runtime.Dispatch
                               (Filter.AppsSettled (Fulfilled Samples.apps_loaded));
                             Runtime.Dispatch (Filter.ChangeDays (Fin 7));
                             Runtime.Dispatch (Filter.SelectApp (Fin 5))])) = Fin 7)
        by (vm_compute; reflexivity).
      assert (Hd2 : Filter.reviewFilterDays
                      (Runtime.comp
                         (FilterPage.run Samples.base Samples.UTC 0 Samples.origin
                            [Runtime.Dispatch
                               (Filter.AppsSettled (Fulfilled Samples.apps_loaded));
                             Runtime.Dispatch (Filter.ChangeDays (Fin 30));
                             Runtime.Dispatch (Filter.SelectApp (Fin 5))])) = Fin 30)
        by (vm_compute; reflexivity).
      rewrite Hd1, Hd2.
      unfold Filter.setDate_back, Samples.UTC, Filter.TimeClip. cbv zeta.
      split;
        match goal with |- context [?x <=? Filter.MAX_TIME] =>
          destruct (Z.leb_spec x Filter.MAX_TIME);
            [discriminate | unfold Filter.MAX_TIME, Filter.msPerDay in *; lia]
        end.
Defined.

(** C8 as stated fails for a filter of 200000000 days: the date falls
    out of the range of [Date], [toISOString] throws, and the run issues
    no request and shows an error, while the run with 10 days issues
    one and receives the reviews. *)
Lemma review_filter_out_of_range :
  let fetchR := Samples.only "http://localhost:8000/api/reviews/5" Samples.ok_reviews in
  let run days :=
    Filter.fetchReviews Samples.base Samples.UTC fetchR days 1790000000000 (Fin 5)
      (Filter.setReviewFilterDays days Filter.initial) in
  Filter.fetchReviews_requests Samples.base Samples.UTC (Fin 10) 1790000000000 (Fin 5)
  = ["http://localhost:8000/api/reviews/5"]%list /\
  Filter.fetchReviews_requests Samples.base Samples.UTC (Fin 200000000) 1790000000000 (Fin 5)
  = []%list /\
  Filter.reviews (run (Fin 10)) = [Samples.review1]%list /\
  Filter.reviews (run (Fin 200000000)) = []%list /\
  Filter.error (run (Fin 200000000)) = Some "Invalid time value".
Proof. vm_compute. repeat split. Qed.

(** * Further properties of the code *)

(** ** More on the service *)

(** X1.  [apiRequest] succeeds exactly when [fetch] resolves to a
    response that is ok and whose body decodes, and it then returns that
    body; in every other case it throws an [Error]. *)
Theorem apiRequest_success_iff (T : Type) (API_BASE_URL : string)
  (fetch : string -> outcome (Service.Response T)) (endpoint : string) :
  (forall v,
      Service.apiRequest API_BASE_URL fetch endpoint = Fulfilled v <->
      exists response,
        fetch (API_BASE_URL ++ endpoint) = Fulfilled response /\
        Service.ok response = true /\ Service.json response = Fulfilled v) /\
  ((forall v, Service.apiRequest API_BASE_URL fetch endpoint <> Fulfilled v) ->
   exists m, Service.apiRequest API_BASE_URL fetch endpoint = Rejected (Error m)).
Proof.
  unfold Service.apiRequest, Service.apiRequest_try, Service.request_url.
  destruct (fetch (API_BASE_URL ++ endpoint)) as [response | e] eqn:Hf.
  - destruct (Service.ok response) eqn:Hok; cbn [negb].
    + destruct (Service.json response) as [v' | [m |]] eqn:Hj; split.
      * intros v. split.
        -- intros [= <-]. exists response. auto.
        -- intros (r & [= <-] & _ & Hv). congruence.
      * intros Hno. exfalso. apply (Hno v'). reflexivity.
      * intros v. split; [discriminate |].
        intros (r & [= <-] & _ & Hv). congruence.
      * eauto.
      * intros v. split; [discriminate |].
        intros (r & [= <-] & _ & Hv). congruence.
      * eauto.
    + assert (Hrej : exists m,
                 match
                   (if Service.status response =? 422
                    then match Service.errorData response with
                         | Fulfilled data =>
                             Rejected (Error ("Validation Error: "
                               ++ join ", " (map Service.msg (Service.detail data))))
                         | Rejected e => Rejected e
                         end
                    else Rejected (Error ("HTTP error! status: "
                               ++ Number_toString (Fin (Service.status response)))))
                 with
                 | Fulfilled v => @Fulfilled T v
                 | Rejected (Error m) => Rejected (Error m)
                 | Rejected NotAnError => Rejected (Error "An unexpected error occurred")
                 end = Rejected (Error m)).
      { destruct (Service.status response =? 422); [| eauto].
        destruct (Service.errorData response) as [data | [m |]]; eauto. }
      destruct Hrej as [m Hm]. rewrite Hm. split.
      * intros v. split; [discriminate |].
        intros (r & [= <-] & Hok' & _). congruence.
      * eauto.
  - split.
    + intros v. split.
      * destruct e; discriminate.
      * intros (r & Hr & _). discriminate Hr.
    + destruct e; eauto.
Qed.

Lemma apiRequest_success_iff_witness :
  Service.apiRequest Samples.base
    (Samples.only "http://localhost:8000/api/reviews/5" Samples.ok_reviews)
    "/api/reviews/5"
  = Fulfilled (Service.mkGetReviewsResponse [Samples.review1]).
Proof.
  apply (proj1 (apiRequest_success_iff _ Samples.base
                  (Samples.only "http://localhost:8000/api/reviews/5" Samples.ok_reviews)
                  "/api/reviews/5")).
  exists Samples.ok_reviews. repeat split.
Defined.

Section UrlsDistinct.

Lemma append_inj_l (p x y : string) : p ++ x = p ++ y -> x = y.
Proof.
  induction p as [| c p IH]; simpl; [auto |]. intros [= H]. auto.
Qed.

Lemma Number_toString_reads_back (z : Z) :
  0 <= z < 10 ^ 21 -> representable z ->
  roundToDouble (digits_value 0 (Number_toString (Fin z))) = Fin z.
Proof.
  intros Hz Hr. unfold Number_toString.
  destruct (Z.eqb_spec z 0) as [-> | Hne]; [reflexivity |].
  destruct (Z.ltb_spec z 0); [lia |].
  apply toString_pos_reads_back; [lia | assumption].
Qed.

End UrlsDistinct.

(** X2.  Two app ids that are Numbers from 0 to below 10^21 and differ
    are requested at different URLs, and no reviews URL is the URL of
    the app list. *)
Theorem reviews_urls_distinct (API_BASE_URL : string) :
  (forall a b,
      0 <= a < 10 ^ 21 -> representable a ->
      0 <= b < 10 ^ 21 -> representable b ->
      Service.request_url API_BASE_URL (Service.reviews_endpoint (Fin a))
      = Service.request_url API_BASE_URL (Service.reviews_endpoint (Fin b)) ->
      a = b) /\
  (forall appId,
      Service.request_url API_BASE_URL (Service.reviews_endpoint appId)
      <> Service.request_url API_BASE_URL Service.apps_endpoint).
Proof.
  unfold Service.request_url, Service.reviews_endpoint, Service.apps_endpoint. split.
  - intros a b Ha Hra Hb Hrb Heq.
    apply append_inj_l in Heq. apply (append_inj_l "/api/reviews/") in Heq.
    pose proof (Number_toString_reads_back a Ha Hra) as H1.
    pose proof (Number_toString_reads_back b Hb Hrb) as H2.
    rewrite Heq in H1. congruence.
  - intros appId Heq. apply append_inj_l in Heq. discriminate Heq.
Qed.

Lemma reviews_urls_distinct_witness :
  Service.request_url Samples.base (Service.reviews_endpoint (Fin 5))
  <> Service.request_url Samples.base (Service.reviews_endpoint (Fin 7)).
Proof.
  intros Heq.
  apply (proj1 (reviews_urls_distinct Samples.base) 5 7) in Heq.
  - discriminate Heq.
  - split; [discriminate | reflexivity].
  - vm_compute. reflexivity.
  - split; [discriminate | reflexivity].
  - vm_compute. reflexivity.
Defined.

(** ** More on the custom id form *)

Section ParseFacts.

Lemma parseInt_leading_digits (ds rest : string) :
  ds <> "" -> all_digits ds = true -> no_leading_digit rest = true ->
  parseInt (ds ++ rest) = roundToDouble (digits_value 0 ds).
Proof.
  intros Hne Hd Hr. unfold parseInt.
  destruct ds as [| c ds]; [congruence |].
  pose proof Hd as Hd'. simpl in Hd'. apply andb_true_iff in Hd' as [Hc _].
  destruct (is_digit_plain c Hc) as (Hw & Hm & Hp).
  change (String c ds ++ rest) with (String c (ds ++ rest)).
  cbn [trim_start]. rewrite Hw, Hm, Hp.
  change (String c (ds ++ rest)) with (String c ds ++ rest).
  rewrite span_digits_unique by assumption. reflexivity.
Qed.

Lemma roundToDouble_not_negative (m : Z) :
  0 <= m -> gt_zero (negate (roundToDouble m)) = false.
Proof.
  intros Hm. unfold roundToDouble.
  destruct (Z.log2 m + 1 <=? 53).
  - simpl. apply Z.ltb_ge. lia.
  - set (sh := Z.log2 m + 1 - 53).
    set (q := Z.shiftr m sh).
    assert (Hq : 0 <= q) by (apply Z.shiftr_nonneg; assumption).
    destruct ((2 ^ (sh - 1) <? m - Z.shiftl q sh)
              || ((m - Z.shiftl q sh =? 2 ^ (sh - 1)) && Z.odd q));
      destruct (2 ^ 1024 <=? _); try reflexivity; simpl; apply Z.ltb_ge;
      match goal with |- - Z.shiftl ?x _ <= 0 =>
        assert (0 <= Z.shiftl x sh) by (apply Z.shiftl_nonneg; lia); lia end.
Qed.

Lemma parseInt_minus (s : string) : gt_zero (parseInt (String "-" s)) = false.
Proof.
  unfold parseInt. cbn [trim_start].
  change (is_whitespace "-") with false. cbn iota.
  change (Ascii.eqb "-" "-") with true. cbn iota.
  pose proof (span_digits_spec s) as (_ & Hd & _).
  destruct (span_digits s) as [ds rest]. cbn [fst] in Hd.
  destruct ds as [| c ds]; [reflexivity |].
  apply roundToDouble_not_negative, digits_value_nonneg; [assumption | lia].
Qed.

Lemma parseInt_bad_start (c : ascii) (s : string) :
  is_digit c = false -> is_whitespace c = false ->
  Ascii.eqb c "+" = false -> Ascii.eqb c "-" = false ->
  parseInt (String c s) = NaN.
Proof.
  intros Hd Hw Hp Hm. unfold parseInt. cbn [trim_start]. rewrite Hw, Hm, Hp.
  cbn [span_digits]. rewrite Hd. reflexivity.
Qed.

Lemma submit_rejected (st : Filter.state) (b : browser) :
  gt_zero (parseInt (Filter.customAppId st)) = false ->
  Filter.handleCustomAppIdSubmit st b
  = (Filter.setError (Some Filter.invalid_app_id_message) st, b).
Proof.
  intros Hg. unfold Filter.handleCustomAppIdSubmit. rewrite Hg, andb_false_r.
  reflexivity.
Qed.

End ParseFacts.

(** X3.  The custom id form reads only the leading digits of its
    input: when the input is a non-empty run of digits followed by
    anything that does not begin with a digit (as in ["12.7"] or
    ["1e3"]), and the digits denote a positive integer up to 2^53 - 1,
    submitting selects that integer, empties the input and pushes
    ["/app/"] followed by its decimal digits without leading zeros. *)
Theorem submit_reads_leading_digits (st : Filter.state) (b : browser)
  (ds rest : string) :
  Filter.customAppId st = ds ++ rest ->
  ds <> "" -> all_digits ds = true -> no_leading_digit rest = true ->
  0 < digits_value 0 ds <= MAX_SAFE_INTEGER ->
  let st' := fst (Filter.handleCustomAppIdSubmit st b) in
  let b' := snd (Filter.handleCustomAppIdSubmit st b) in
  Filter.selectedAppId st' = Some (Fin (digits_value 0 ds)) /\
  Filter.customAppId st' = "" /\
  Filter.error st' = Filter.error st /\
  pathname b' = "/app/" ++ decimal (digits_value 0 ds) /\
  getAppIdFromUrl b' = Some (Fin (digits_value 0 ds)).
Proof.
  intros Hc Hne Hd Hr Hv. cbv zeta.
  assert (Hp : parseInt (Filter.customAppId st) = Fin (digits_value 0 ds)).
  { rewrite Hc, parseInt_leading_digits by assumption.
    apply roundToDouble_safe. lia. }
  rewrite (submit_positive st b _ Hp) by lia. cbn [fst snd].
  rewrite Number_toString_safe by lia. unfold pushState. cbn [pathname].
  repeat split. apply getAppIdFromUrl_decimal. lia.
Qed.

Lemma submit_reads_leading_digits_witness :
  let st := Filter.setCustomAppId "0012.7" Filter.initial in
  Filter.selectedAppId (fst (Filter.handleCustomAppIdSubmit st Samples.origin))
  = Some (Fin 12) /\
  pathname (snd (Filter.handleCustomAppIdSubmit st Samples.origin)) = "/app/12".
Proof.
  cbv zeta.
  destruct (submit_reads_leading_digits
              (Filter.setCustomAppId "0012.7" Filter.initial) Samples.origin
              "0012" ".7" eq_refl ltac:(discriminate) eq_refl eq_refl
              ltac:(vm_compute; split; [reflexivity | discriminate]))
    as (H1 & _ & _ & H4 & _).
  exact (conj H1 H4).
Defined.

(** X4.  The custom id form rejects, with the message about a valid
    app id and without touching the selection, the input or the URL:
    the empty input, every input that begins with a minus sign, every
    input whose first character is neither a digit, white space nor a
    sign, and every input whose leading digits denote zero. *)
Theorem submit_rejects (st : Filter.state) (b : browser) :
  (Filter.customAppId st = "" \/
   (exists s, Filter.customAppId st = String "-" s) \/
   (exists c s, Filter.customAppId st = String c s /\
                is_digit c = false /\ is_whitespace c = false /\
                Ascii.eqb c "+" = false /\ Ascii.eqb c "-" = false) \/
   (exists ds rest, Filter.customAppId st = ds ++ rest /\ ds <> "" /\
                    all_digits ds = true /\ no_leading_digit rest = true /\
                    digits_value 0 ds = 0)) ->
  let st' := fst (Filter.handleCustomAppIdSubmit st b) in
  let b' := snd (Filter.handleCustomAppIdSubmit st b) in
  Filter.error st' = Some "Please enter a valid app ID (positive number)" /\
  Filter.selectedAppId st' = Filter.selectedAppId st /\
  Filter.customAppId st' = Filter.customAppId st /\
  Filter.reviews st' = Filter.reviews st /\
  b' = b.
Proof.
  intros Hbad. cbv zeta. rewrite submit_rejected; [repeat split |].
  destruct Hbad as [-> | [(s & ->) | [(c & s & -> & Hd & Hw & Hp & Hm)
                                       | (ds & rest & -> & Hne & Hd & Hr & Hz)]]].
  - reflexivity.
  - apply parseInt_minus.
  - rewrite parseInt_bad_start by assumption. reflexivity.
  - rewrite parseInt_leading_digits by assumption. rewrite Hz. reflexivity.
Qed.

Lemma submit_rejects_witness :
  Filter.error (fst (Filter.handleCustomAppIdSubmit Filter.initial Samples.origin))
  = Some "Please enter a valid app ID (positive number)" /\
  Filter.error (fst (Filter.handleCustomAppIdSubmit
                       (Filter.setCustomAppId "-12" Filter.initial) Samples.origin))
  = Some "Please enter a valid app ID (positive number)".
Proof.
  split.
  - apply (submit_rejects Filter.initial Samples.origin). left. reflexivity.
  - apply (submit_rejects (Filter.setCustomAppId "-12" Filter.initial) Samples.origin).
    right. left. exists "12". reflexivity.
Defined.

(** X5.  In the component with the custom id form, an id in the URL
    that is positive, at most 2^53 - 1 and not the id of a listed app
    is put into the custom input as its decimal digits, both when the
    app list arrives and on [popstate], and [selectedAppId] is left
    alone, respectively set to null; submitting the form as it then
    stands selects that id and pushes ["/app/"] followed by it. *)
Theorem prefill_then_submit (st : Filter.state) (b : browser) (N : Z) :
  0 < N <= MAX_SAFE_INTEGER ->
  (forall response,
      getAppIdFromUrl b = Some (Fin N) ->
      Filter.appExists (Service.apps_items response) (Fin N) = false ->
      let st1 := Filter.fetchApps_resume (Fulfilled response) b st in
      Filter.selectedAppId st1 = Filter.selectedAppId st /\
      Filter.customAppId st1 = decimal N /\
      Filter.selectedAppId (fst (Filter.handleCustomAppIdSubmit st1 b)) = Some (Fin N) /\
      Filter.customAppId (fst (Filter.handleCustomAppIdSubmit st1 b)) = "" /\
      pathname (snd (Filter.handleCustomAppIdSubmit st1 b)) = "/app/" ++ decimal N) /\
  (forall path,
      getAppIdFromUrl (traverse path b) = Some (Fin N) ->
      Filter.appExists (Filter.apps st) (Fin N) = false ->
      let b1 := traverse path b in
      let st1 := Filter.handlePopState b1 st in
      Filter.selectedAppId st1 = None /\
      Filter.customAppId st1 = decimal N /\
      Filter.selectedAppId (fst (Filter.handleCustomAppIdSubmit st1 b1)) = Some (Fin N) /\
      Filter.customAppId (fst (Filter.handleCustomAppIdSubmit st1 b1)) = "" /\
      pathname (snd (Filter.handleCustomAppIdSubmit st1 b1)) = "/app/" ++ decimal N).
Proof.
  intros HN.
  assert (Ht : truthy (Fin N) = true).
  { unfold truthy. destruct (Z.eqb_spec N 0); [lia | reflexivity]. }
  assert (Hs : Number_toString (Fin N) = decimal N)
    by (apply Number_toString_safe; lia).
  split.
  - intros response Hu Hex. cbv zeta.
    assert (Hc : Filter.customAppId (Filter.fetchApps_resume (Fulfilled response) b st)
                 = decimal N).
    { unfold Filter.fetchApps_resume. rewrite Hu, Ht, Hex, Hs. reflexivity. }
    assert (Hp : parseInt (Filter.customAppId
                             (Filter.fetchApps_resume (Fulfilled response) b st))
                 = Fin N) by (rewrite Hc; apply parseInt_decimal; lia).
    rewrite (submit_positive _ b N Hp) by lia. rewrite Hs. cbn [fst snd].
    split; [| auto].
    unfold Filter.fetchApps_resume. rewrite Hu, Ht, Hex. reflexivity.
  - intros path Hu Hex. cbv zeta.
    assert (Hc : Filter.customAppId (Filter.handlePopState (traverse path b) st)
                 = decimal N).
    { unfold Filter.handlePopState. rewrite Hu, Ht, Hex, Hs. reflexivity. }
    assert (Hp : parseInt (Filter.customAppId
                             (Filter.handlePopState (traverse path b) st))
                 = Fin N) by (rewrite Hc; apply parseInt_decimal; lia).
    rewrite (submit_positive _ (traverse path b) N Hp) by lia. rewrite Hs. cbn [fst snd].
    split; [| auto].
    unfold Filter.handlePopState. rewrite Hu, Ht, Hex. reflexivity.
Qed.

Lemma prefill_then_submit_witness :
  let b := mkBrowser "/app/9" [] in
  let st1 := Filter.fetchApps_resume (Fulfilled Samples.apps_loaded) b
               (Filter.fetchApps_begin Filter.initial) in
  Filter.customAppId st1 = "9" /\
  Filter.selectedAppId (fst (Filter.handleCustomAppIdSubmit st1 b)) = Some (Fin 9).
Proof.
  cbv zeta.
  destruct (proj1 (prefill_then_submit (Filter.fetchApps_begin Filter.initial)
                     (mkBrowser "/app/9" []) 9
                     ltac:(vm_compute; split; [reflexivity | discriminate]))
              Samples.apps_loaded eq_refl eq_refl) as (_ & H2 & H3 & _).
  exact (conj H2 H3).
Defined.

(** X6.  Selecting app A and then app B from the dropdown pushes the
    two paths in that order, and going back to the path of A selects A
    again without pushing anything: always in the plain component, and
    in the component with the custom id form when A is the id of a
    listed app (the custom input is then emptied).  A and B are
    positive integers up to 2^53 - 1. *)
Theorem back_restores_selection (A B : Z) (b : browser) :
  0 < A <= MAX_SAFE_INTEGER -> 0 < B <= MAX_SAFE_INTEGER ->
  (forall st,
      let r1 := Plain.handleAppSelect (Fin A) st b in
      let r2 := Plain.handleAppSelect (Fin B) (fst r1) (snd r1) in
      let b3 := traverse ("/app/" ++ decimal A) (snd r2) in
      pushed (snd r2) = ("/app/" ++ decimal B) :: ("/app/" ++ decimal A) :: pushed b /\
      Plain.selectedAppId (fst r2) = Some (Fin B) /\
      Plain.selectedAppId (Plain.handlePopState b3 (fst r2)) = Some (Fin A) /\
      pushed b3 = pushed (snd r2)) /\
  (forall st,
      Filter.appExists (Filter.apps st) (Fin A) = true ->
      let r1 := Filter.handleAppSelect (Fin A) st b in
      let r2 := Filter.handleAppSelect (Fin B) (fst r1) (snd r1) in
      let b3 := traverse ("/app/" ++ decimal A) (snd r2) in
      pushed (snd r2) = ("/app/" ++ decimal B) :: ("/app/" ++ decimal A) :: pushed b /\
      Filter.selectedAppId (fst r2) = Some (Fin B) /\
      Filter.selectedAppId (Filter.handlePopState b3 (fst r2)) = Some (Fin A) /\
      Filter.customAppId (Filter.handlePopState b3 (fst r2)) = "" /\
      pushed b3 = pushed (snd r2)).
Proof.
  intros HA HB.
  assert (Ht : truthy (Fin A) = true).
  { unfold truthy. destruct (Z.eqb_spec A 0); [lia | reflexivity]. }
  split.
  - intros st. cbv zeta. unfold Plain.handleAppSelect. cbn [fst snd].
    rewrite !updateUrl_safe by assumption. unfold pushState. cbn [pushed].
    repeat split. unfold Plain.handlePopState, traverse.
    rewrite getAppIdFromUrl_decimal by lia. reflexivity.
  - intros st Hex. cbv zeta. unfold Filter.handleAppSelect. cbn [fst snd].
    rewrite !updateUrl_safe by assumption. unfold pushState. cbn [pushed].
    assert (Hp : forall st', Filter.apps st' = Filter.apps st ->
               Filter.handlePopState
                 (traverse ("/app/" ++ decimal A)
                    {| pathname := "/app/" ++ decimal B;
                       pushed := ("/app/" ++ decimal B)
                                 :: ("/app/" ++ decimal A) :: pushed b |}) st'
               = Filter.setCustomAppId "" (Filter.setSelectedAppId (Some (Fin A)) st')).
    { intros st' Ha. unfold Filter.handlePopState, traverse.
      rewrite getAppIdFromUrl_decimal by lia. rewrite Ht, Ha, Hex. reflexivity. }
    rewrite Hp by reflexivity. repeat split.
Qed.

Lemma back_restores_selection_witness :
  let r1 := Plain.handleAppSelect (Fin 5) Plain.initial Samples.origin in
  let r2 := Plain.handleAppSelect (Fin 7) (fst r1) (snd r1) in
  Plain.selectedAppId (Plain.handlePopState (traverse "/app/5" (snd r2)) (fst r2))
  = Some (Fin 5).
Proof.
  cbv zeta.
  destruct (proj1 (back_restores_selection 5 7 Samples.origin
                     ltac:(vm_compute; split; [reflexivity | discriminate])
                     ltac:(vm_compute; split; [reflexivity | discriminate]))
              Plain.initial) as (_ & _ & H3 & _).
  exact H3.
Defined.

(** ** What the two fetch functions leave behind *)

Section FetchFacts.

Lemma apiRequest_rejects_Error (T : Type) (API_BASE_URL : string)
  (fetch : string -> outcome (Service.Response T)) (endpoint : string) (e : thrown) :
  Service.apiRequest API_BASE_URL fetch endpoint = Rejected e ->
  exists m, e = Error m.
Proof.
  unfold Service.apiRequest.
  destruct (Service.apiRequest_try API_BASE_URL fetch endpoint) as [v | [m |]];
    intros [= <-]; eauto.
Qed.

End FetchFacts.

(** X7.  Whatever the network does, [fetchApps] and [fetchReviews] end
    with their loading flag false, and the text they store in [error]
    is always the message of the [Error] that [apiRequest] threw (or,
    with the day filter, the message of the invalid date): the fallback
    texts ["Failed to fetch apps"] and ["Failed to fetch reviews"] are
    never stored for their own sake.  A failure leaves the list of apps,
    the selection and the reviews as they were. *)
Theorem fetch_outcomes (API_BASE_URL : string) (LocalTZA : Z -> bool -> Z)
  (fetchA : string -> outcome (Service.Response Service.GetAppsResponse))
  (fetchR : string -> outcome (Service.Response Service.GetReviewsResponse)) :
  (forall b st,
      let st' := Plain.fetchApps API_BASE_URL fetchA b st in
      Plain.loadingApps st' = false /\
      match Service.getApps API_BASE_URL fetchA with
      | Fulfilled r =>
          Plain.error st' = None /\ Plain.apps st' = Service.apps_items r
      | Rejected e =>
          exists m, e = Error m /\ Plain.error st' = Some m /\
                    Plain.apps st' = Plain.apps st /\
                    Plain.selectedAppId st' = Plain.selectedAppId st
      end) /\
  (forall appId st,
      let st' := Plain.fetchReviews API_BASE_URL fetchR appId st in
      Plain.loadingReviews st' = false /\
      Plain.selectedAppId st' = Plain.selectedAppId st /\
      match Service.getReviews API_BASE_URL fetchR appId with
      | Fulfilled r =>
          Plain.error st' = None /\ Plain.reviews st' = Service.reviews_items r
      | Rejected e =>
          exists m, e = Error m /\ Plain.error st' = Some m /\
                    Plain.reviews st' = Plain.reviews st
      end) /\
  (forall b st,
      let st' := Filter.fetchApps API_BASE_URL fetchA b st in
      Filter.loadingApps st' = false /\
      match Service.getApps API_BASE_URL fetchA with
      | Fulfilled r =>
          Filter.error st' = None /\ Filter.apps st' = Service.apps_items r
      | Rejected e =>
          exists m, e = Error m /\ Filter.error st' = Some m /\
                    Filter.apps st' = Filter.apps st /\
                    Filter.selectedAppId st' = Filter.selectedAppId st /\
                    Filter.customAppId st' = Filter.customAppId st
      end) /\
  (forall days now appId st,
      let st' := Filter.fetchReviews API_BASE_URL LocalTZA fetchR days now appId st in
      Filter.loadingReviews st' = false /\
      Filter.selectedAppId st' = Filter.selectedAppId st /\
      Filter.reviewFilterDays st' = Filter.reviewFilterDays st /\
      match Filter.setDate_back LocalTZA now days with
      | None =>
          Filter.error st' = Some Filter.invalid_time_message /\
          Filter.reviews st' = Filter.reviews st
      | Some _ =>
          match Service.getReviews API_BASE_URL fetchR appId with
          | Fulfilled r =>
              Filter.error st' = None /\ Filter.reviews st' = Service.reviews_items r
          | Rejected e =>
              exists m, e = Error m /\ Filter.error st' = Some m /\
                        Filter.reviews st' = Filter.reviews st
          end
      end).
Proof.
  split; [| split; [| split]].
  - intros b st. cbv zeta. unfold Plain.fetchApps, Service.getApps.
    destruct (Service.apiRequest API_BASE_URL fetchA Service.apps_endpoint)
      as [r | e] eqn:Hr.
    + unfold Plain.fetchApps_resume. cbv zeta.
      destruct (truthy_opt (getAppIdFromUrl b)); repeat split.
    + destruct (apiRequest_rejects_Error _ _ _ _ _ Hr) as [m ->].
      split; [reflexivity |]. exists m. repeat split.
  - intros appId st. cbv zeta. unfold Plain.fetchReviews, Service.getReviews.
    destruct (Service.apiRequest API_BASE_URL fetchR (Service.reviews_endpoint appId))
      as [r | e] eqn:Hr.
    + repeat split.
    + destruct (apiRequest_rejects_Error _ _ _ _ _ Hr) as [m ->].
      split; [reflexivity |]. split; [reflexivity |]. exists m. repeat split.
  - intros b st. cbv zeta. unfold Filter.fetchApps, Service.getApps.
    destruct (Service.apiRequest API_BASE_URL fetchA Service.apps_endpoint)
      as [r | e] eqn:Hr.
    + unfold Filter.fetchApps_resume. cbv zeta.
      destruct (getAppIdFromUrl b) as [u |]; [| repeat split].
      destruct (truthy u); [| repeat split].
      destruct (Filter.appExists (Service.apps_items r) u); repeat split.
    + destruct (apiRequest_rejects_Error _ _ _ _ _ Hr) as [m ->].
      split; [reflexivity |]. exists m. repeat split.
  - intros days now appId st. cbv zeta.
    unfold Filter.fetchReviews, Filter.fetchReviews_begin, Service.getReviews.
    destruct (Filter.setDate_back LocalTZA now days) as [v |].
    + destruct (Service.apiRequest API_BASE_URL fetchR (Service.reviews_endpoint appId))
        as [r | e] eqn:Hr.
      * repeat split.
      * destruct (apiRequest_rejects_Error _ _ _ _ _ Hr) as [m ->].
        split; [reflexivity |]. split; [reflexivity |]. split; [reflexivity |].
        exists m. repeat split.
    + repeat split.
Qed.

(** ** The cut-off date of the day filter *)

(** X8.  With a local time offset of at most one day either way, the
    cut-off date of [fetchReviews] is a valid date as long as [now]
    minus the filter in days stays two days inside the range of [Date],
    and the reviews URL is then requested once; two days beyond that
    range the date is invalid, no request is made and the error is the
    message of the invalid date.  Where the offset is the same at both
    ends, the cut-off is exactly that many days before [now]. *)
Theorem cutoff_date_range (API_BASE_URL : string) (LocalTZA : Z -> bool -> Z)
  (now d : Z) (appId : number) :
  (forall t u, Z.abs (LocalTZA t u) <= Filter.msPerDay) ->
  (Z.abs (now - d * Filter.msPerDay) <= Filter.MAX_TIME - 2 * Filter.msPerDay ->
   (exists v, Filter.setDate_back LocalTZA now (Fin d) = Some v /\
              Z.abs (v - (now - d * Filter.msPerDay)) <= 2 * Filter.msPerDay) /\
   Filter.fetchReviews_requests API_BASE_URL LocalTZA (Fin d) now appId
   = [Service.request_url API_BASE_URL (Service.reviews_endpoint appId)]) /\
  (Filter.MAX_TIME + 2 * Filter.msPerDay < Z.abs (now - d * Filter.msPerDay) ->
   Filter.fetchReviews_requests API_BASE_URL LocalTZA (Fin d) now appId = [] /\
   forall fetchR st,
     let st' := Filter.fetchReviews API_BASE_URL LocalTZA fetchR (Fin d) now appId st in
     Filter.error st' = Some Filter.invalid_time_message /\
     Filter.loadingReviews st' = false /\
     Filter.reviews st' = Filter.reviews st) /\
  (LocalTZA now true
   = LocalTZA (now + LocalTZA now true - d * Filter.msPerDay) false ->
   Filter.setDate_back LocalTZA now (Fin d)
   = Filter.TimeClip (now - d * Filter.msPerDay)).
Proof.
  intros Hz.
  pose proof (Hz now true) as H1.
  pose proof (Hz (now + LocalTZA now true - d * Filter.msPerDay) false) as H2.
  split; [| split].
  - intros Hin.
    assert (Hv : Filter.setDate_back LocalTZA now (Fin d)
                 = Some (now + LocalTZA now true - d * Filter.msPerDay
                         - LocalTZA (now + LocalTZA now true - d * Filter.msPerDay)
                             false)).
    { unfold Filter.setDate_back, Filter.TimeClip. cbv zeta.
      destruct (Z.leb_spec
                  (Z.abs (now + LocalTZA now true - d * Filter.msPerDay
                          - LocalTZA (now + LocalTZA now true - d * Filter.msPerDay)
                              false)) Filter.MAX_TIME) as [_ | Hgt];
        [reflexivity |].
      unfold Filter.msPerDay, Filter.MAX_TIME in *. lia. }
    split.
    + eexists. split; [exact Hv |]. unfold Filter.msPerDay in *. lia.
    + unfold Filter.fetchReviews_requests. rewrite Hv. reflexivity.
  - intros Hout.
    assert (Hv : Filter.setDate_back LocalTZA now (Fin d) = None).
    { unfold Filter.setDate_back, Filter.TimeClip. cbv zeta.
      destruct (Z.leb_spec
                  (Z.abs (now + LocalTZA now true - d * Filter.msPerDay
                          - LocalTZA (now + LocalTZA now true - d * Filter.msPerDay)
                              false)) Filter.MAX_TIME) as [Hle | _];
        [| reflexivity].
      unfold Filter.msPerDay, Filter.MAX_TIME in *. lia. }
    split.
    + unfold Filter.fetchReviews_requests. rewrite Hv. reflexivity.
    + intros fetchR st. cbv zeta.
      unfold Filter.fetchReviews, Filter.fetchReviews_begin. rewrite Hv.
      repeat split.
  - intros Heq. unfold Filter.setDate_back. cbv zeta. rewrite <- Heq.
    f_equal. lia.
Qed.

Lemma cutoff_date_range_witness :
  Filter.fetchReviews_requests Samples.base Samples.UTC (Fin 365) 1790000000000 (Fin 5)
  = [Service.request_url Samples.base (Service.reviews_endpoint (Fin 5))].
Proof.
  apply (proj1 (cutoff_date_range Samples.base Samples.UTC 1790000000000 365 (Fin 5)
                  ltac:(intros; vm_compute; discriminate))).
  vm_compute. discriminate.
Defined.

(** ** The filter input *)

Section DaysInput.

Import Inputs.

Lemma is_digit_not_x (c : ascii) :
  is_digit c = true -> Ascii.eqb c "x" || Ascii.eqb c "X" = false.
Proof.
  intros Hc.
  destruct (Ascii.eqb_spec c "x") as [-> | _]; [discriminate Hc |].
  destruct (Ascii.eqb_spec c "X") as [-> | _]; [discriminate Hc |].
  reflexivity.
Qed.

(** Without a radix [parseInt] reads a text that begins with a digit as
    it does with radix 10, unless the text begins with [0x] or [0X]. *)
Lemma parseInt_auto_unsigned (c : ascii) (s' : string) :
  is_digit c = true ->
  (forall x s3, c = "0"%char -> s' = String x s3 ->
                Ascii.eqb x "x" || Ascii.eqb x "X" = false) ->
  parseInt_auto (String c s') = parseInt (String c s').
Proof.
  intros Hc Hx. destruct (is_digit_plain c Hc) as (Hw & Hm & Hp).
  unfold parseInt_auto, parseInt. cbn [trim_start]. rewrite Hw, Hm, Hp.
  destruct s' as [| x s3].
  - destruct c as [[] [] [] [] [] [] [] []]; try discriminate Hc;
      destruct (span_digits (String _ _)) as [ds r]; destruct ds; reflexivity.
  - destruct c as [[] [] [] [] [] [] [] []]; try discriminate Hc;
      try rewrite (Hx x s3 eq_refl eq_refl);
      destruct (span_digits (String _ _)) as [ds r]; destruct ds; reflexivity.
Qed.

Lemma parseInt_auto_minus (c : ascii) (s' : string) :
  is_digit c = true ->
  parseInt_auto (String "-" (String c s')) = negate (parseInt_auto (String c s')).
Proof.
  intros Hc. destruct (is_digit_plain c Hc) as (Hw & Hm & Hp).
  unfold parseInt_auto. cbn [trim_start]. rewrite Hw, Hm, Hp.
  change (is_whitespace "-") with false. cbn iota.
  change (Ascii.eqb "-" "-") with true. cbn iota. reflexivity.
Qed.

(** The digits of a number followed by text that begins with no digit
    and no [x]: [parseInt] without a radix reads the digits. *)
Lemma parseInt_auto_leading_digits (ds rest : string) :
  ds <> "" -> all_digits ds = true -> no_leading_digit rest = true ->
  (forall x s3, rest = String x s3 -> Ascii.eqb x "x" || Ascii.eqb x "X" = false) ->
  parseInt_auto (ds ++ rest) = roundToDouble (digits_value 0 ds).
Proof.
  intros Hne Hd Hr Hx. rewrite <- (parseInt_leading_digits ds rest Hne Hd Hr).
  destruct ds as [| c ds]; [congruence |].
  pose proof Hd as Hd'. simpl in Hd'. apply andb_true_iff in Hd' as [Hc Hds].
  change (String c ds ++ rest) with (String c (ds ++ rest)).
  apply parseInt_auto_unsigned; [assumption |].
  intros x s3 _ Hs. destruct ds as [| y ds'].
  - apply (Hx x s3). exact Hs.
  - change (String y ds' ++ rest) with (String y (ds' ++ rest)) in Hs.
    injection Hs as -> _. simpl in Hds. apply andb_true_iff in Hds as [Hy _].
    apply is_digit_not_x, Hy.
Qed.

Lemma decimal_head (z : Z) :
  0 <= z -> exists c s', decimal z = String c s' /\ is_digit c = true.
Proof.
  intros Hz. pose proof (decimal_digits z Hz) as Hd.
  pose proof (decimal_nonempty z) as Hne.
  destruct (decimal z) as [| c s']; [congruence |].
  simpl in Hd. apply andb_true_iff in Hd as [Hc _]. eauto.
Qed.

End DaysInput.

(** X9.  The filter input stores whatever integer its text begins
    with: for a text made of the digits of a non-zero integer of
    magnitude up to 2^53 - 1, with or without a minus sign and with or
    without a fraction after a point, [reviewFilterDays] becomes that
    integer, whether or not it lies between the [min] and [max] of the
    input; an empty text and a text that reads as zero store 1.  No
    other cell of the state changes. *)
Theorem days_input_keeps_integer (st : Filter.state) :
  (forall z frac,
      z <> 0 -> is_safe z ->
      Filter.reviewFilterDays (Inputs.onDaysChange (Inputs.integer_text z) st) = Fin z /\
      Filter.reviewFilterDays
        (Inputs.onDaysChange (Inputs.integer_text z ++ String "." frac) st) = Fin z) /\
  (forall frac,
      Filter.reviewFilterDays (Inputs.onDaysChange "" st) = Fin 1 /\
      Filter.reviewFilterDays (Inputs.onDaysChange "0" st) = Fin 1 /\
      Filter.reviewFilterDays (Inputs.onDaysChange (String "." frac) st) = Fin 1 /\
      Filter.reviewFilterDays (Inputs.onDaysChange (String "0" (String "." frac)) st)
      = Fin 1) /\
  (forall value,
      let st' := Inputs.onDaysChange value st in
      Filter.selectedAppId st' = Filter.selectedAppId st /\
      Filter.customAppId st' = Filter.customAppId st /\
      Filter.apps st' = Filter.apps st /\ Filter.reviews st' = Filter.reviews st /\
      Filter.loadingApps st' = Filter.loadingApps st /\
      Filter.loadingReviews st' = Filter.loadingReviews st /\
      Filter.error st' = Filter.error st /\
      truthy (Filter.reviewFilterDays st') = true).
Proof.
  split; [| split].
  - intros z frac Hz Hs. unfold is_safe in Hs.
    assert (Hpos : forall p rest,
               0 < p <= MAX_SAFE_INTEGER ->
               no_leading_digit rest = true ->
               (forall x s3, rest = String x s3 ->
                             Ascii.eqb x "x" || Ascii.eqb x "X" = false) ->
               Inputs.parseInt_auto (decimal p ++ rest) = Fin p).
    { intros p rest Hp Hr Hx.
      rewrite parseInt_auto_leading_digits;
        [| apply decimal_nonempty | apply decimal_digits; lia | exact Hr | exact Hx].
      rewrite decimal_value by lia. apply roundToDouble_safe. lia. }
    assert (Hdot : forall x s3, String "." frac = String x s3 ->
                                Ascii.eqb x "x" || Ascii.eqb x "X" = false).
    { intros x s3 [= <- _]. reflexivity. }
    assert (Hnil : forall x s3, "" = String x s3 ->
                                Ascii.eqb x "x" || Ascii.eqb x "X" = false).
    { intros x s3 [=]. }
    assert (Hany : forall rest,
               no_leading_digit rest = true ->
               (forall x s3, rest = String x s3 ->
                             Ascii.eqb x "x" || Ascii.eqb x "X" = false) ->
               Inputs.parseInt_auto (Inputs.integer_text z ++ rest) = Fin z).
    { intros rest Hr Hx. unfold Inputs.integer_text.
      destruct (Z.ltb_spec z 0) as [Hneg | Hnn].
      - destruct (decimal_head (- z) ltac:(lia)) as (c & s' & Hdec & Hc).
        change (String "-" (decimal (- z)) ++ rest)
          with (String "-" (decimal (- z) ++ rest)).
        pose proof (Hpos (- z) rest ltac:(lia) Hr Hx) as Hp.
        rewrite Hdec in *.
        change (String c s' ++ rest) with (String c (s' ++ rest)) in *.
        rewrite parseInt_auto_minus by assumption. rewrite Hp. simpl.
        f_equal. lia.
      - apply Hpos; [lia | assumption | assumption]. }
    assert (Ht : truthy (Fin z) = true).
    { unfold truthy. destruct (Z.eqb_spec z 0); [contradiction | reflexivity]. }
    unfold Inputs.onDaysChange. cbv zeta. split.
    + rewrite <- (append_nil_r (Inputs.integer_text z)).
      rewrite (Hany "" eq_refl Hnil), Ht. reflexivity.
    + rewrite (Hany (String "." frac) eq_refl Hdot), Ht. reflexivity.
  - intros frac. repeat split.
  - intros value. cbv zeta. unfold Inputs.onDaysChange. cbv zeta.
    destruct (truthy (Inputs.parseInt_auto value)) eqn:Ht; repeat split; assumption.
Qed.

Lemma days_input_keeps_integer_witness :
  Filter.reviewFilterDays (Inputs.onDaysChange "-3" Filter.initial) = Fin (-3) /\
  Filter.reviewFilterDays (Inputs.onDaysChange "1000.5" Filter.initial) = Fin 1000.
Proof.
  split.
  - exact (proj1 (proj1 (days_input_keeps_integer Filter.initial) (-3) ""
                    ltac:(discriminate)
                    ltac:(vm_compute; split; discriminate))).
  - exact (proj2 (proj1 (days_input_keeps_integer Filter.initial) 1000 "5"
                    ltac:(discriminate)
                    ltac:(vm_compute; split; discriminate))).
Defined.

(** ** More on the page at run time *)

Section MachineMore.

Context {S E K : Type} `{EqDecision K} `{Navigation E}.

Variable selected : S -> option number.
Variable fetchKey : S -> K.
Variable begin_fetch : K -> Z -> number -> S -> S * list string.
Variable handle : E -> S -> browser -> S * browser.

Hypothesis begin_selected :
  forall k t a st, selected (fst (begin_fetch k t a st)) = selected st.
Hypothesis begin_key :
  forall k t a st, fetchKey (fst (begin_fetch k t a st)) = fetchKey st.

Import Runtime.

Local Abbreviation world := (@Runtime.world S K).
Local Abbreviation step := (Runtime.step selected fetchKey begin_fetch handle).
Local Abbreviation settled := (Runtime.settled selected fetchKey).

Lemma commit_loc (w : world) :
  loc (Runtime.commit selected fetchKey begin_fetch w) = loc w.
Proof.
  unfold Runtime.commit. destruct (mounted w); [| reflexivity].
  destruct (decide _); [reflexivity |].
  unfold Runtime.pollingEffect, Runtime.runCleanup, Runtime.callFetchReviews.
  destruct (cleanup w); cbn;
    match goal with |- context [selected ?x] => destruct (selected x) end;
    cbn; try reflexivity;
    match goal with |- context [begin_fetch ?k ?t ?a ?s] =>
      destruct (begin_fetch k t a s) end; reflexivity.
Qed.

(** An event that changes the selection to [a]: the effect calls
    [fetchReviews(a)] at once and installs the only timer. *)
Lemma select_restarts (w : world) (e : E) (a : number) :
  settled w -> mounted w = true ->
  selected (fst (handle e (comp w) (loc w))) = Some a ->
  selected (comp w) <> Some a ->
  let w' := step w (Dispatch e) in
  loc w' = snd (handle e (comp w) (loc w)) /\
  selected (comp w') = Some a /\
  calls w' = (calls w ++ [(now w, a)])%list /\
  timers w' = {[ next_timer w :=
                   mkTimer (now w + REFRESH_INTERVAL) a
                     (fetchKey (fst (handle e (comp w) (loc w)))) ]}.
Proof.
  intros Hs Hm Hsel Hne. cbv zeta. cbn [Runtime.step].
  rewrite (dispatch_mounted selected fetchKey begin_fetch handle e w Hm).
  pose proof (commit_set_page selected fetchKey begin_fetch begin_selected begin_key
                w (fst (handle e (comp w) (loc w))) (snd (handle e (comp w) (loc w)))
                Hs Hm) as Hc.
  cbv zeta in Hc. destruct Hc as (_ & _ & _ & Hd & Hcase).
  split; [rewrite commit_loc; reflexivity |].
  split.
  { unfold Runtime.current_deps in Hd. cbn [comp set_page] in Hd.
    injection Hd as Hd _. rewrite Hd. exact Hsel. }
  destruct Hcase as [[Heq _] | [_ Hcalls]].
  - exfalso. unfold Runtime.current_deps in Heq. cbn [comp set_page] in Heq.
    injection Heq as Heq _. congruence.
  - rewrite Hsel in Hcalls. exact Hcalls.
Qed.

(** What the browser does on its own pushes no entry. *)
Hypothesis move_pushed : forall e b, pushed (browser_move e b) = pushed b.

(** Once the component is unmounted nothing of it runs any more; the
    browser may still move the location. *)
Lemma unmounted_step (w : world) (i : @Runtime.input E) :
  settled w -> mounted w = false ->
  let w' := step w i in
  settled w' /\ mounted w' = false /\ comp w' = comp w /\
  pushed (loc w') = pushed (loc w) /\
  calls w' = calls w /\ requests w' = requests w /\ timers w' = ∅.
Proof.
  intros Hs Hm. cbv zeta.
  assert (Ht : timers w = ∅ /\ cleanup w = None).
  { destruct Hs as [_ Hc]. destruct (cleanup w) as [tid |].
    - destruct Hc as (Hm' & _). congruence.
    - destruct Hc as (Ht & _). auto. }
  destruct Ht as (Ht & Hc).
  destruct i as [e | |]; cbn [Runtime.step].
  - rewrite (dispatch_unmounted selected fetchKey begin_fetch handle e w Hm).
    split; [exact Hs |]. cbn [mounted comp loc calls requests timers set_loc].
    rewrite move_pushed. repeat split; assumption || reflexivity.
  - unfold Runtime.tick. cbv zeta. cbn [timers set_now]. rewrite Ht, map_fold_empty.
    unfold Runtime.commit. cbn [mounted set_now]. rewrite Hm.
    cbn [comp loc calls requests timers set_now].
    split; [| repeat split; assumption || reflexivity].
    destruct Hs as [Hd _]. split.
    + cbn [mounted set_now]. intros Hm'. congruence.
    + cbn [cleanup set_now]. rewrite Hc. cbn [timers set_now mounted].
      split; [assumption | intros Hm'; congruence].
  - unfold Runtime.unmount. rewrite Hm.
    split; [exact Hs |]. repeat split; assumption || reflexivity.
Qed.

Lemma unmounted_run (inputs : list (@Runtime.input E)) :
  forall w : world,
    settled w -> mounted w = false ->
    let w' := fold_left step inputs w in
    mounted w' = false /\ comp w' = comp w /\ pushed (loc w') = pushed (loc w) /\
    calls w' = calls w /\ requests w' = requests w /\ timers w' = ∅.
Proof.
  induction inputs as [| i rest IH]; intros w Hs Hm; cbv zeta.
  - destruct Hs as [_ Hc]. destruct (cleanup w) as [tid |].
    + destruct Hc as (Hm' & _). congruence.
    + destruct Hc as (Ht & _). repeat split; assumption || reflexivity.
  - cbn [fold_left].
    destruct (unmounted_step w i Hs Hm) as (Hs' & Hm' & H1 & H2 & H3 & H4 & _).
    destruct (IH _ Hs' Hm') as (G0 & G1 & G2 & G3 & G4 & G5).
    repeat split; congruence.
Qed.

End MachineMore.

(** ** Predicates that every run of the machine keeps *)

Section MachineRuns.

Context {S E K : Type} `{EqDecision K} `{Navigation E}.

Variable selected : S -> option number.
Variable fetchKey : S -> K.
Variable begin_fetch : K -> Z -> number -> S -> S * list string.
Variable handle : E -> S -> browser -> S * browser.
Variable mount_state : S.
Variable mount_requests : list string.

Import Runtime.

Local Abbreviation world := (@Runtime.world S K).

Variable W : world -> Prop.

Hypothesis W_frame :
  forall w w' : world,
    comp w' = comp w -> calls w' = calls w -> requests w' = requests w ->
    W w -> W w'.

Hypothesis W_call :
  forall k a (w : world), W w -> W (Runtime.callFetchReviews begin_fetch k a w).

Hypothesis W_handle :
  forall e (w : world),
    W w -> W (set_page (fst (handle e (comp w) (loc w)))
                (snd (handle e (comp w) (loc w))) w).

Lemma frame_fold (inputs : list (@Runtime.input E)) :
  forall w : world,
    W w -> W (fold_left (Runtime.step selected fetchKey begin_fetch handle) inputs w).
Proof.
  induction inputs as [| i rest IH]; intros w Hw; [exact Hw |].
  cbn [fold_left]. apply IH.
  apply (frame_step selected fetchKey begin_fetch handle W W_frame W_call w i Hw).
  destruct i; [| exact I | exact I]. intros _. apply W_handle, Hw.
Qed.

Lemma frame_run (t0 : Z) (b0 : browser) (inputs : list (@Runtime.input E)) :
  W {| comp := mount_state; loc := b0; now := t0; timers := ∅;
       next_timer := 1; cleanup := None; deps := None; calls := [];
       requests := map (pair t0) mount_requests; mounted := true |} ->
  W (Runtime.run selected fetchKey begin_fetch handle mount_state mount_requests
       t0 b0 inputs).
Proof.
  intros H0. unfold Runtime.run. apply frame_fold. unfold Runtime.mount.
  apply (frame_commit selected fetchKey begin_fetch W W_frame W_call), H0.
Qed.

End MachineRuns.

(** X10.  [handleAppSelect] called with 0 or NaN (0 is what
    [Number] makes of the value of the placeholder option) selects that
    id all the same: the path pushed is ["/"], but [selectedAppId] is
    not null, so the polling effect calls [fetchReviews] with it at once
    and installs its timer, and where the reviews would be the plain
    page renders the bare number. *)
Theorem falsy_id_is_polled (API_BASE_URL : string) (LocalTZA : Z -> bool -> Z)
  (t0 : Z) (b0 : browser) (n : number) :
  truthy n = false ->
  (forall inputs,
      let w := PlainPage.run API_BASE_URL t0 b0 inputs in
      Runtime.mounted w = true ->
      Plain.selectedAppId (Runtime.comp w) <> Some n ->
      let w' := PlainPage.step API_BASE_URL w (Runtime.Dispatch (Plain.SelectApp n)) in
      pathname (Runtime.loc w') = "/" /\
      Plain.selectedAppId (Runtime.comp w') = Some n /\
      Runtime.calls w' = (Runtime.calls w ++ [(Runtime.now w, n)])%list /\
      Runtime.timers w'
      = {[ Runtime.next_timer w :=
             Runtime.mkTimer (Runtime.now w + REFRESH_INTERVAL) n tt ]} /\
      View.reviews_section (View.render_plain (Runtime.comp w'))
      = View.Bare (Number_toString n)) /\
  (forall inputs,
      let w := FilterPage.run API_BASE_URL LocalTZA t0 b0 inputs in
      Runtime.mounted w = true ->
      Filter.selectedAppId (Runtime.comp w) <> Some n ->
      let w' := FilterPage.step API_BASE_URL LocalTZA w
                  (Runtime.Dispatch (Filter.SelectApp n)) in
      pathname (Runtime.loc w') = "/" /\
      Filter.selectedAppId (Runtime.comp w') = Some n /\
      Runtime.calls w' = (Runtime.calls w ++ [(Runtime.now w, n)])%list /\
      Runtime.timers w'
      = {[ Runtime.next_timer w :=
             Runtime.mkTimer (Runtime.now w + REFRESH_INTERVAL) n
               (Filter.reviewFilterDays (Runtime.comp w)) ]}).
Proof.
  intros Hn. split.
  - intros inputs w Hm Hne. cbv zeta. unfold PlainPage.step.
    destruct (select_restarts Plain.selectedAppId PlainPage.fetchKey
                (PlainPage.begin_fetch API_BASE_URL) Plain.handle
                (plain_begin_selected API_BASE_URL) (plain_begin_key API_BASE_URL)
                w (Plain.SelectApp n) n
                (plain_settled API_BASE_URL t0 b0 inputs) Hm eq_refl Hne)
      as (Hl & Hsel & Hc & Ht).
    split; [| split; [exact Hsel | split; [exact Hc | split; [exact Ht |]]]].
    + rewrite Hl. cbn [Plain.handle Plain.handleAppSelect snd].
      unfold updateUrl. rewrite Hn. reflexivity.
    + unfold View.render_plain. cbn [View.reviews_section]. rewrite Hsel.
      unfold View.reviews_slot. rewrite Hn. reflexivity.
  - intros inputs w Hm Hne. cbv zeta. unfold FilterPage.step.
    destruct (select_restarts Filter.selectedAppId FilterPage.fetchKey
                (FilterPage.begin_fetch API_BASE_URL LocalTZA) Filter.handle
                (filter_begin_selected API_BASE_URL LocalTZA)
                (filter_begin_key API_BASE_URL LocalTZA)
                w (Filter.SelectApp n) n
                (filter_settled API_BASE_URL LocalTZA t0 b0 inputs) Hm eq_refl Hne)
      as (Hl & Hsel & Hc & Ht).
    split; [| split; [exact Hsel | split; [exact Hc | exact Ht]]].
    rewrite Hl. cbn [Filter.handle Filter.handleAppSelect snd].
    unfold updateUrl. rewrite Hn. reflexivity.
Qed.

Lemma falsy_id_is_polled_witness :
  let w := PlainPage.run Samples.base 0 Samples.origin
             [Runtime.Dispatch (Plain.AppsSettled (Fulfilled Samples.apps_loaded))] in
  let w' := PlainPage.step Samples.base w (Runtime.Dispatch (Plain.SelectApp (Fin 0))) in
  Runtime.calls w' = (Runtime.calls w ++ [(Runtime.now w, Fin 0)])%list /\
  View.reviews_section (View.render_plain (Runtime.comp w')) = View.Bare "0".
Proof.
  cbv zeta.
  destruct (proj1 (falsy_id_is_polled Samples.base Samples.UTC 0 Samples.origin (Fin 0)
                     eq_refl)
              [Runtime.Dispatch (Plain.AppsSettled (Fulfilled Samples.apps_loaded))]%list
              ltac:(vm_compute; reflexivity) ltac:(vm_compute; discriminate))
    as (_ & _ & H3 & _ & H5).
  exact (conj H3 H5).
Defined.

(** X11.  Choosing again the app that is already selected leaves
    the polling alone: no call of [fetchReviews], no request, and the
    timer stays as it is with its next firing time; the history still
    gets one more entry with the same path.  The id is a positive
    integer up to 2^53 - 1. *)
Theorem reselect_keeps_timer (API_BASE_URL : string) (LocalTZA : Z -> bool -> Z)
  (t0 : Z) (b0 : browser) (A : Z) :
  0 < A <= MAX_SAFE_INTEGER ->
  (forall inputs,
      let w := PlainPage.run API_BASE_URL t0 b0 inputs in
      Runtime.mounted w = true ->
      Plain.selectedAppId (Runtime.comp w) = Some (Fin A) ->
      let w' := PlainPage.step API_BASE_URL w
                  (Runtime.Dispatch (Plain.SelectApp (Fin A))) in
      Runtime.timers w' = Runtime.timers w /\
      Runtime.calls w' = Runtime.calls w /\
      Runtime.requests w' = Runtime.requests w /\
      Plain.selectedAppId (Runtime.comp w') = Some (Fin A) /\
      pushed (Runtime.loc w') = ("/app/" ++ decimal A) :: pushed (Runtime.loc w)) /\
  (forall inputs,
      let w := FilterPage.run API_BASE_URL LocalTZA t0 b0 inputs in
      Runtime.mounted w = true ->
      Filter.selectedAppId (Runtime.comp w) = Some (Fin A) ->
      let w' := FilterPage.step API_BASE_URL LocalTZA w
                  (Runtime.Dispatch (Filter.SelectApp (Fin A))) in
      Runtime.timers w' = Runtime.timers w /\
      Runtime.calls w' = Runtime.calls w /\
      Runtime.requests w' = Runtime.requests w /\
      Filter.selectedAppId (Runtime.comp w') = Some (Fin A) /\
      pushed (Runtime.loc w') = ("/app/" ++ decimal A) :: pushed (Runtime.loc w)).
Proof.
  intros HA. split.
  - intros inputs w Hm Hsel. cbv zeta.
    pose proof (dispatch_same_deps Plain.selectedAppId PlainPage.fetchKey
                  (PlainPage.begin_fetch API_BASE_URL) Plain.handle
                  (plain_begin_selected API_BASE_URL) (plain_begin_key API_BASE_URL)
                  w (Plain.SelectApp (Fin A))
                  (plain_settled API_BASE_URL t0 b0 inputs) Hm) as Hd.
    cbv zeta in Hd.
    specialize (Hd ltac:(cbn; symmetry; exact Hsel) eq_refl).
    unfold PlainPage.step. rewrite Hd.
    cbn [Runtime.timers Runtime.calls Runtime.requests Runtime.comp Runtime.loc
         Runtime.set_page Plain.handle Plain.handleAppSelect fst snd].
    rewrite updateUrl_safe by assumption. repeat split.
  - intros inputs w Hm Hsel. cbv zeta.
    pose proof (dispatch_same_deps Filter.selectedAppId FilterPage.fetchKey
                  (FilterPage.begin_fetch API_BASE_URL LocalTZA) Filter.handle
                  (filter_begin_selected API_BASE_URL LocalTZA)
                  (filter_begin_key API_BASE_URL LocalTZA)
                  w (Filter.SelectApp (Fin A))
                  (filter_settled API_BASE_URL LocalTZA t0 b0 inputs) Hm) as Hd.
    cbv zeta in Hd.
    specialize (Hd ltac:(cbn; symmetry; exact Hsel) eq_refl).
    unfold FilterPage.step. rewrite Hd.
    cbn [Runtime.timers Runtime.calls Runtime.requests Runtime.comp Runtime.loc
         Runtime.set_page Filter.handle Filter.handleAppSelect fst snd].
    rewrite updateUrl_safe by assumption. repeat split.
Qed.

Lemma reselect_keeps_timer_witness :
  let w := PlainPage.run Samples.base 0 Samples.origin
             [Runtime.Dispatch (Plain.AppsSettled (Fulfilled Samples.apps_loaded));
              Runtime.Dispatch (Plain.SelectApp (Fin 5))] in
  let w' := PlainPage.step Samples.base w (Runtime.Dispatch (Plain.SelectApp (Fin 5))) in
  Runtime.timers w' = Runtime.timers w /\ Runtime.calls w' = Runtime.calls w.
Proof.
  cbv zeta.
  destruct (proj1 (reselect_keeps_timer Samples.base Samples.UTC 0 Samples.origin 5
                     ltac:(vm_compute; split; [reflexivity | discriminate]))
              [Runtime.Dispatch (Plain.AppsSettled (Fulfilled Samples.apps_loaded));
               Runtime.Dispatch (Plain.SelectApp (Fin 5))]%list
              ltac:(vm_compute; reflexivity) ltac:(vm_compute; reflexivity))
    as (H1 & H2 & _).
  exact (conj H1 H2).
Defined.

Lemma plain_move_pushed (e : Plain.event) (b : browser) :
  pushed (browser_move e b) = pushed b.
Proof. destruct e; reflexivity. Qed.

Lemma filter_move_pushed (e : Filter.event) (b : browser) :
  pushed (browser_move e b) = pushed b.
Proof. destruct e; reflexivity. Qed.

(** X12.  After the component is unmounted nothing of it runs any
    more: whatever inputs follow (ticks of the clock, settlements of
    requests still under way, navigation), there is no timer, no further
    call of [fetchReviews], no further request, the state stays as it
    was and nothing is pushed to the history.  The browser itself
    still moves the location on a navigation. *)
Theorem unmount_is_final (API_BASE_URL : string) (LocalTZA : Z -> bool -> Z)
  (t0 : Z) (b0 : browser) :
  (forall before after,
      let w := PlainPage.run API_BASE_URL t0 b0 (before ++ [Runtime.Unmount]) in
      let w' := PlainPage.run API_BASE_URL t0 b0
                  (before ++ Runtime.Unmount :: after) in
      Runtime.mounted w = false /\
      Runtime.timers w' = ∅ /\ Runtime.calls w' = Runtime.calls w /\
      Runtime.requests w' = Runtime.requests w /\
      Runtime.comp w' = Runtime.comp w /\
      pushed (Runtime.loc w') = pushed (Runtime.loc w) /\
      forall path,
        Runtime.loc (PlainPage.step API_BASE_URL w
                       (Runtime.Dispatch (Plain.PopState path)))
        = traverse path (Runtime.loc w)) /\
  (forall before after,
      let w := FilterPage.run API_BASE_URL LocalTZA t0 b0
                 (before ++ [Runtime.Unmount]) in
      let w' := FilterPage.run API_BASE_URL LocalTZA t0 b0
                  (before ++ Runtime.Unmount :: after) in
      Runtime.mounted w = false /\
      Runtime.timers w' = ∅ /\ Runtime.calls w' = Runtime.calls w /\
      Runtime.requests w' = Runtime.requests w /\
      Runtime.comp w' = Runtime.comp w /\
      pushed (Runtime.loc w') = pushed (Runtime.loc w) /\
      forall path,
        Runtime.loc (FilterPage.step API_BASE_URL LocalTZA w
                       (Runtime.Dispatch (Filter.PopState path)))
        = traverse path (Runtime.loc w)).
Proof.
  split.
  - intros before after w w'.
    pose proof (plain_settled API_BASE_URL t0 b0 (before ++ [Runtime.Unmount])) as Hs.
    fold w in Hs.
    assert (Hm : Runtime.mounted w = false).
    { unfold w, PlainPage.run, Runtime.run. rewrite fold_left_app. cbn [fold_left].
      apply (unmount_spec Plain.selectedAppId PlainPage.fetchKey).
      apply (plain_settled API_BASE_URL t0 b0 before). }
    assert (Hw : w' = fold_left (PlainPage.step API_BASE_URL) after w).
    { unfold w', w, PlainPage.run, Runtime.run.
      change (Runtime.Unmount :: after) with ([Runtime.Unmount] ++ after)%list.
      rewrite app_assoc. rewrite (fold_left_app _ (before ++ [Runtime.Unmount])%list).
      reflexivity. }
    rewrite Hw.
    destruct (unmounted_run Plain.selectedAppId PlainPage.fetchKey
                (PlainPage.begin_fetch API_BASE_URL) Plain.handle plain_move_pushed
                after w Hs Hm)
      as (_ & G1 & G2 & G3 & G4 & G5).
    split; [exact Hm |].
    split; [exact G5 |]. split; [exact G3 |]. split; [exact G4 |].
    split; [exact G1 |]. split; [exact G2 |].
    intros path. unfold PlainPage.step. cbn [Runtime.step].
    rewrite (dispatch_unmounted Plain.selectedAppId PlainPage.fetchKey
               (PlainPage.begin_fetch API_BASE_URL) Plain.handle
               (Plain.PopState path) w Hm).
    reflexivity.
  - intros before after w w'.
    pose proof (filter_settled API_BASE_URL LocalTZA t0 b0
                  (before ++ [Runtime.Unmount])) as Hs.
    fold w in Hs.
    assert (Hm : Runtime.mounted w = false).
    { unfold w, FilterPage.run, Runtime.run. rewrite fold_left_app. cbn [fold_left].
      apply (unmount_spec Filter.selectedAppId FilterPage.fetchKey).
      apply (filter_settled API_BASE_URL LocalTZA t0 b0 before). }
    assert (Hw : w' = fold_left (FilterPage.step API_BASE_URL LocalTZA) after w).
    { unfold w', w, FilterPage.run, Runtime.run.
      change (Runtime.Unmount :: after) with ([Runtime.Unmount] ++ after)%list.
      rewrite app_assoc. rewrite (fold_left_app _ (before ++ [Runtime.Unmount])%list).
      reflexivity. }
    rewrite Hw.
    destruct (unmounted_run Filter.selectedAppId FilterPage.fetchKey
                (FilterPage.begin_fetch API_BASE_URL LocalTZA) Filter.handle
                filter_move_pushed after w Hs Hm)
      as (_ & G1 & G2 & G3 & G4 & G5).
    split; [exact Hm |].
    split; [exact G5 |]. split; [exact G3 |]. split; [exact G4 |].
    split; [exact G1 |]. split; [exact G2 |].
    intros path. unfold FilterPage.step. cbn [Runtime.step].
    rewrite (dispatch_unmounted Filter.selectedAppId FilterPage.fetchKey
               (FilterPage.begin_fetch API_BASE_URL LocalTZA) Filter.handle
               (Filter.PopState path) w Hm).
    reflexivity.
Qed.

(** ** What the handlers of the two pages keep *)

Section HandlerFacts.

Lemma filter_handle_days (e : Filter.event) (st : Filter.state) (b : browser) :
  truthy (Filter.reviewFilterDays st) = true ->
  truthy (Filter.reviewFilterDays (fst (Filter.handle e st b))) = true.
Proof.
  intros Hd. destruct e as [r | r | path | appId | value | | parsed |];
    cbn [Filter.handle fst].
  - unfold Filter.fetchApps_resume. cbv zeta. destruct r as [response | err].
    + destruct (getAppIdFromUrl b) as [u |]; [| exact Hd].
      destruct (truthy u); [| exact Hd].
      destruct (Filter.appExists (Service.apps_items response) u); exact Hd.
    + exact Hd.
  - unfold Filter.fetchReviews_resume. cbv zeta. destruct r; exact Hd.
  - unfold Filter.handlePopState.
    destruct (getAppIdFromUrl (traverse path b)) as [u |]; [| exact Hd].
    destruct (truthy u); [| exact Hd].
    destruct (Filter.appExists (Filter.apps st) u); exact Hd.
  - exact Hd.
  - exact Hd.
  - unfold Filter.handleCustomAppIdSubmit. cbv zeta.
    destruct (negb (isNaN (parseInt (Filter.customAppId st)))
              && gt_zero (parseInt (Filter.customAppId st))); exact Hd.
  - cbn. destruct (truthy parsed) eqn:Hp; [exact Hp | reflexivity].
  - reflexivity.
Qed.

Lemma truthy_text_some (x : option string) :
  View.truthy_text x = true <-> exists e, x = Some e /\ e <> "".
Proof.
  unfold View.truthy_text. split.
  - destruct x as [e |]; [| discriminate]. intros He. exists e. split; [reflexivity |].
    intros ->. discriminate He.
  - intros (e & -> & Hne). apply negb_true_iff, String.eqb_neq, Hne.
Qed.

(** The events of the page with the custom id form that can clear a
    truthy [error] are the settlements of requests. *)
Lemma filter_handle_error (e : Filter.event) (st : Filter.state) (b : browser) :
  View.truthy_text (Filter.error st) = true ->
  (forall r, e <> Filter.AppsSettled (Fulfilled r)) ->
  (forall r, e <> Filter.ReviewsSettled (Fulfilled r)) ->
  e <> Filter.AppsSettled (Rejected (Error "")) ->
  e <> Filter.ReviewsSettled (Rejected (Error "")) ->
  View.truthy_text (Filter.error (fst (Filter.handle e st b))) = true.
Proof.
  intros He H1 H2 H3 H4.
  destruct e as [r | r | path | appId | value | | parsed |];
    cbn [Filter.handle fst].
  - destruct r as [response | [m |]].
    + exfalso. apply (H1 response). reflexivity.
    + cbn. apply negb_true_iff, String.eqb_neq. intros ->. apply H3. reflexivity.
    + reflexivity.
  - destruct r as [response | [m |]].
    + exfalso. apply (H2 response). reflexivity.
    + cbn. apply negb_true_iff, String.eqb_neq. intros ->. apply H4. reflexivity.
    + reflexivity.
  - unfold Filter.handlePopState.
    destruct (getAppIdFromUrl (traverse path b)) as [u |]; [| exact He].
    destruct (truthy u); [| exact He].
    destruct (Filter.appExists (Filter.apps st) u); exact He.
  - exact He.
  - exact He.
  - unfold Filter.handleCustomAppIdSubmit. cbv zeta.
    destruct (negb (isNaN (parseInt (Filter.customAppId st)))
              && gt_zero (parseInt (Filter.customAppId st))); [exact He | reflexivity].
  - exact He.
  - exact He.
Qed.

Lemma filter_begin_error (LocalTZA : Z -> bool -> Z) (days : number) (now : Z)
  (st : Filter.state) :
  View.truthy_text (Filter.error st) = true ->
  View.truthy_text
    (Filter.error (fst (Filter.fetchReviews_begin LocalTZA days now st))) = true.
Proof.
  intros He. unfold Filter.fetchReviews_begin. cbv zeta.
  destruct (Filter.setDate_back LocalTZA now days); [exact He | reflexivity].
Qed.

Lemma plain_handle_reviews (e : Plain.event) (st : Plain.state) (b : browser) :
  (forall r, e <> Plain.ReviewsSettled (Fulfilled r)) ->
  Plain.reviews (fst (Plain.handle e st b)) = Plain.reviews st.
Proof.
  intros H1. destruct e as [r | r | path | appId]; cbn [Plain.handle fst].
  - unfold Plain.fetchApps_resume. cbv zeta. destruct r as [response | err].
    + destruct (truthy_opt (getAppIdFromUrl b)); reflexivity.
    + reflexivity.
  - destruct r as [response | err]; [| reflexivity].
    exfalso. apply (H1 response). reflexivity.
  - reflexivity.
  - reflexivity.
Qed.

Lemma filter_handle_reviews (e : Filter.event) (st : Filter.state) (b : browser) :
  (forall r, e <> Filter.ReviewsSettled (Fulfilled r)) ->
  Filter.reviews (fst (Filter.handle e st b)) = Filter.reviews st.
Proof.
  intros H1. destruct e as [r | r | path | appId | value | | parsed |];
    cbn [Filter.handle fst]; try reflexivity.
  - unfold Filter.fetchApps_resume. cbv zeta. destruct r as [response | err].
    + destruct (getAppIdFromUrl b) as [u |]; [| reflexivity].
      destruct (truthy u); [| reflexivity].
      destruct (Filter.appExists (Service.apps_items response) u); reflexivity.
    + reflexivity.
  - destruct r as [response | err]; [| reflexivity].
    exfalso. apply (H1 response). reflexivity.
  - unfold Filter.handlePopState.
    destruct (getAppIdFromUrl (traverse path b)) as [u |]; [| reflexivity].
    destruct (truthy u); [| reflexivity].
    destruct (Filter.appExists (Filter.apps st) u); reflexivity.
  - unfold Filter.handleCustomAppIdSubmit. cbv zeta.
    destruct (negb (isNaN (parseInt (Filter.customAppId st)))
              && gt_zero (parseInt (Filter.customAppId st))); reflexivity.
Qed.

Lemma filter_begin_reviews (LocalTZA : Z -> bool -> Z) (days : number) (now : Z)
  (st : Filter.state) :
  Filter.reviews (fst (Filter.fetchReviews_begin LocalTZA days now st))
  = Filter.reviews st.
Proof.
  unfold Filter.fetchReviews_begin. cbv zeta.
  destruct (Filter.setDate_back LocalTZA now days); reflexivity.
Qed.

End HandlerFacts.

(** X13.  In the page with the day filter [reviewFilterDays] is never
    0 and never NaN, whatever the inputs: it starts as 10, the filter
    input replaces a value that is not truthy by 1, and nothing else
    writes it.  So every call of [fetchReviews], also one made by a
    timer, computes its cut-off date from a truthy number. *)
Theorem filter_days_never_falsy (API_BASE_URL : string) (LocalTZA : Z -> bool -> Z)
  (t0 : Z) (b0 : browser) (inputs : list (@Runtime.input Filter.event)) :
  let w := FilterPage.run API_BASE_URL LocalTZA t0 b0 inputs in
  truthy (Filter.reviewFilterDays (Runtime.comp w)) = true /\
  forall tid t, Runtime.timers w !! tid = Some t -> truthy (Runtime.cb_fetch t) = true.
Proof.
  cbv zeta.
  assert (Hd : truthy (Filter.reviewFilterDays
                         (Runtime.comp (FilterPage.run API_BASE_URL LocalTZA t0 b0 inputs)))
               = true).
  { unfold FilterPage.run.
    apply (frame_run Filter.selectedAppId FilterPage.fetchKey
             (FilterPage.begin_fetch API_BASE_URL LocalTZA) Filter.handle
             FilterPage.mount_state (FilterPage.mount_requests API_BASE_URL)
             (fun w => truthy (Filter.reviewFilterDays (Runtime.comp w)) = true)).
    - intros w w' Hc _ _ Hw. rewrite Hc. exact Hw.
    - intros k a w Hw. rewrite call_comp.
      pose proof (filter_begin_key API_BASE_URL LocalTZA k (Runtime.now w) a
                    (Runtime.comp w)) as Hk.
      unfold FilterPage.fetchKey in Hk. rewrite Hk. exact Hw.
    - intros e w Hw. cbn [Runtime.comp Runtime.set_page].
      apply filter_handle_days, Hw.
    - reflexivity. }
  split; [exact Hd |].
  intros tid t Hl.
  pose proof (filter_settled API_BASE_URL LocalTZA t0 b0 inputs) as [_ Hc].
  destruct (Runtime.cleanup _) as [interval |].
  - destruct Hc as (_ & _ & appId & d & _ & Ht & _). rewrite Ht in Hl.
    apply lookup_singleton_Some in Hl as [_ <-]. exact Hd.
  - destruct Hc as [Ht _]. rewrite Ht in Hl. rewrite lookup_empty in Hl. discriminate.
Qed.

Lemma filter_days_never_falsy_witness :
  let w := FilterPage.run Samples.base Samples.UTC 0 Samples.origin
             [Runtime.Dispatch (Filter.AppsSettled (Fulfilled Samples.apps_loaded));
              Runtime.Dispatch (Filter.SelectApp (Fin 5));
              Runtime.Dispatch (Filter.ChangeDays (Fin 0))] in
  Filter.reviewFilterDays (Runtime.comp w) = Fin 1 /\
  truthy (Runtime.cb_fetch (Runtime.mkTimer 2000 (Fin 5) (Fin 1))) = true.
Proof.
  cbv zeta. split; [vm_compute; reflexivity |].
  exact (proj2 (filter_days_never_falsy Samples.base Samples.UTC 0 Samples.origin
                  [Runtime.Dispatch (Filter.AppsSettled (Fulfilled Samples.apps_loaded));
                   Runtime.Dispatch (Filter.SelectApp (Fin 5));
                   Runtime.Dispatch (Filter.ChangeDays (Fin 0))]%list)
           2%nat (Runtime.mkTimer 2000 (Fin 5) (Fin 1))
           ltac:(vm_compute; reflexivity)).
Defined.


(** X15.  In the page with the custom id form an error stays on
    screen until a request settles: while [error] is a non-empty text
    the component renders the error alone, and no tick of the clock (the
    polling goes on and [fetchReviews] does not clear the error before
    its request), no navigation and no other user event changes that.
    Only the settlement of a request can: a fulfilled one, or one
    rejected with an [Error] whose message is empty. *)
Theorem filter_error_persists (API_BASE_URL : string) (LocalTZA : Z -> bool -> Z)
  (w : @Runtime.world Filter.state number) (i : @Runtime.input Filter.event) :
  View.truthy_text (Filter.error (Runtime.comp w)) = true ->
  (forall r, i <> Runtime.Dispatch (Filter.AppsSettled (Fulfilled r))) ->
  (forall r, i <> Runtime.Dispatch (Filter.ReviewsSettled (Fulfilled r))) ->
  i <> Runtime.Dispatch (Filter.AppsSettled (Rejected (Error ""))) ->
  i <> Runtime.Dispatch (Filter.ReviewsSettled (Rejected (Error ""))) ->
  let w' := FilterPage.step API_BASE_URL LocalTZA w i in
  exists e,
    Filter.error (Runtime.comp w') = Some e /\ e <> "" /\
    View.render_filter (Runtime.comp w') = View.ErrorOnly ("Error: " ++ e).
Proof.
  intros He H1 H2 H3 H4. cbv zeta.
  assert (Hw : View.truthy_text
                 (Filter.error
                    (Runtime.comp (FilterPage.step API_BASE_URL LocalTZA w i))) = true).
  { unfold FilterPage.step.
    apply (frame_step Filter.selectedAppId FilterPage.fetchKey
             (FilterPage.begin_fetch API_BASE_URL LocalTZA) Filter.handle
             (fun x => View.truthy_text (Filter.error (Runtime.comp x)) = true)).
    - intros x x' Hc _ _ Hx. rewrite Hc. exact Hx.
    - intros k a x Hx. rewrite call_comp. unfold FilterPage.begin_fetch. cbn [fst].
      apply filter_begin_error, Hx.
    - exact He.
    - destruct i as [e | |]; [| exact I | exact I]. intros _.
      cbn [Runtime.comp Runtime.set_page].
      apply filter_handle_error; [exact He | | | |].
      + intros r ->. apply (H1 r). reflexivity.
      + intros r ->. apply (H2 r). reflexivity.
      + intros ->. apply H3. reflexivity.
      + intros ->. apply H4. reflexivity. }
  pose proof Hw as Hw'. apply truthy_text_some in Hw' as (e & Hsome & Hne).
  exists e. split; [exact Hsome |]. split; [exact Hne |].
  unfold View.render_filter. rewrite Hw, Hsome. reflexivity.
Qed.

Lemma filter_error_persists_witness :
  let w := FilterPage.run Samples.base Samples.UTC 0 Samples.origin
             [Runtime.Dispatch (Filter.AppsSettled (Rejected (Error "Failed to fetch")))] in
  exists e,
    Filter.error (Runtime.comp (FilterPage.step Samples.base Samples.UTC w
                                  (Runtime.Dispatch (Filter.PopState "/app/5"))))
    = Some e /\ e <> "" /\
    View.render_filter
      (Runtime.comp (FilterPage.step Samples.base Samples.UTC w
                       (Runtime.Dispatch (Filter.PopState "/app/5"))))
    = View.ErrorOnly ("Error: " ++ e).
Proof.
  cbv zeta.
  apply (filter_error_persists Samples.base Samples.UTC
           (FilterPage.run Samples.base Samples.UTC 0 Samples.origin
              [Runtime.Dispatch (Filter.AppsSettled (Rejected (Error "Failed to fetch")))])
           (Runtime.Dispatch (Filter.PopState "/app/5"))).
  - vm_compute. reflexivity.
  - intros r. discriminate.
  - intros r. discriminate.
  - discriminate.
  - discriminate.
Defined.

(** X16.  In the plain page every call of [fetchReviews] clears the
    error: after any step during which [fetchReviews] was called (a
    firing of the timer, or an event that restarted the effect)
    [error] is null and [loadingReviews] is true. *)
Theorem plain_poll_clears_error (API_BASE_URL : string)
  (w : @Runtime.world Plain.state unit) (i : @Runtime.input Plain.event) :
  let w' := PlainPage.step API_BASE_URL w i in
  Runtime.calls w' <> Runtime.calls w ->
  Plain.error (Runtime.comp w') = None /\
  Plain.loadingReviews (Runtime.comp w') = true.
Proof.
  cbv zeta. intros Hc.
  assert (Hw : Runtime.calls (PlainPage.step API_BASE_URL w i) = Runtime.calls w \/
               (Plain.error (Runtime.comp (PlainPage.step API_BASE_URL w i)) = None /\
                Plain.loadingReviews (Runtime.comp (PlainPage.step API_BASE_URL w i))
                = true)).
  { unfold PlainPage.step.
    apply (frame_step Plain.selectedAppId PlainPage.fetchKey
             (PlainPage.begin_fetch API_BASE_URL) Plain.handle
             (fun x => Runtime.calls x = Runtime.calls w \/
                       (Plain.error (Runtime.comp x) = None /\
                        Plain.loadingReviews (Runtime.comp x) = true))).
    - intros x x' Hcomp Hcalls _ Hx. rewrite Hcomp, Hcalls. exact Hx.
    - intros k a x _. right. rewrite call_comp. split; reflexivity.
    - left. reflexivity.
    - destruct i as [e | |]; [| exact I | exact I]. intros _. left. reflexivity. }
  destruct Hw as [Hw | Hw]; [contradiction | exact Hw].
Qed.

Lemma plain_poll_clears_error_witness :
  let w := PlainPage.run Samples.base 0 (mkBrowser "/app/5" []) [] in
  let w' := PlainPage.step Samples.base w
              (Runtime.Dispatch (Plain.AppsSettled (Fulfilled Samples.apps_loaded))) in
  Plain.error (Runtime.comp w') = None /\
  Plain.loadingReviews (Runtime.comp w') = true.
Proof.
  cbv zeta.
  apply (plain_poll_clears_error Samples.base
           (PlainPage.run Samples.base 0 (mkBrowser "/app/5" []) [])
           (Runtime.Dispatch (Plain.AppsSettled (Fulfilled Samples.apps_loaded)))).
  vm_compute. discriminate.
Defined.

(** X17.  The list of reviews is replaced only by a fulfilled
    request for reviews: every other input to either page (a rejected
    request, the list of apps, navigation, a selection, the forms, a
    tick, unmounting) leaves [reviews] as it is.  In particular,
    after another app is chosen in the plain page, the reviews fetched
    for the previous one are rendered under the heading of the new one
    until a response arrives. *)
Theorem reviews_only_replaced_by_response (API_BASE_URL : string)
  (LocalTZA : Z -> bool -> Z) :
  (forall (w : @Runtime.world Plain.state unit) i,
      (forall r, i <> Runtime.Dispatch (Plain.ReviewsSettled (Fulfilled r))) ->
      Plain.reviews (Runtime.comp (PlainPage.step API_BASE_URL w i))
      = Plain.reviews (Runtime.comp w)) /\
  (forall (w : @Runtime.world Filter.state number) i,
      (forall r, i <> Runtime.Dispatch (Filter.ReviewsSettled (Fulfilled r))) ->
      Filter.reviews (Runtime.comp (FilterPage.step API_BASE_URL LocalTZA w i))
      = Filter.reviews (Runtime.comp w)) /\
  (forall t0 b0 inputs n,
      let w := PlainPage.run API_BASE_URL t0 b0 inputs in
      Runtime.mounted w = true ->
      let w' := PlainPage.step API_BASE_URL w (Runtime.Dispatch (Plain.SelectApp n)) in
      View.reviews_section (View.render_plain (Runtime.comp w'))
      = View.reviews_slot "No reviews found for this app." (Some n)
          (Plain.reviews (Runtime.comp w))).
Proof.
  assert (HP : forall (w : @Runtime.world Plain.state unit) i,
             (forall r, i <> Runtime.Dispatch (Plain.ReviewsSettled (Fulfilled r))) ->
             Plain.reviews (Runtime.comp (PlainPage.step API_BASE_URL w i))
             = Plain.reviews (Runtime.comp w)).
  { intros w i Hi. unfold PlainPage.step.
    apply (frame_step Plain.selectedAppId PlainPage.fetchKey
             (PlainPage.begin_fetch API_BASE_URL) Plain.handle
             (fun x => Plain.reviews (Runtime.comp x) = Plain.reviews (Runtime.comp w))).
    - intros x x' Hc _ _ Hx. rewrite Hc. exact Hx.
    - intros k a x Hx. rewrite call_comp. exact Hx.
    - reflexivity.
    - destruct i as [e | |]; [| exact I | exact I]. intros _.
      cbn [Runtime.comp Runtime.set_page]. apply plain_handle_reviews.
      intros r ->. apply (Hi r). reflexivity. }
  split; [exact HP |]. split.
  - intros w i Hi. unfold FilterPage.step.
    apply (frame_step Filter.selectedAppId FilterPage.fetchKey
             (FilterPage.begin_fetch API_BASE_URL LocalTZA) Filter.handle
             (fun x => Filter.reviews (Runtime.comp x) = Filter.reviews (Runtime.comp w))).
    + intros x x' Hc _ _ Hx. rewrite Hc. exact Hx.
    + intros k a x Hx. rewrite call_comp. unfold FilterPage.begin_fetch. cbn [fst].
      rewrite filter_begin_reviews. exact Hx.
    + reflexivity.
    + destruct i as [e | |]; [| exact I | exact I]. intros _.
      cbn [Runtime.comp Runtime.set_page]. apply filter_handle_reviews.
      intros r ->. apply (Hi r). reflexivity.
  - intros t0 b0 inputs n w Hm. cbv zeta.
    pose proof (dispatch_frame Plain.selectedAppId PlainPage.fetchKey
                  (PlainPage.begin_fetch API_BASE_URL) Plain.handle
                  (plain_begin_selected API_BASE_URL) (plain_begin_key API_BASE_URL)
                  w (Plain.SelectApp n)
                  (plain_settled API_BASE_URL t0 b0 inputs) Hm) as Hd.
    cbv zeta in Hd. destruct Hd as (_ & _ & _ & Hd).
    unfold Runtime.current_deps in Hd. injection Hd as Hsel.
    cbn [Plain.handle Plain.handleAppSelect fst Plain.setSelectedAppId
         Plain.selectedAppId] in Hsel.
    unfold View.render_plain. cbn [View.reviews_section].
    unfold PlainPage.step. cbn [Runtime.step]. rewrite Hsel.
    rewrite <- (HP w (Runtime.Dispatch (Plain.SelectApp n))) by (intros r; discriminate).
    reflexivity.
Qed.

Lemma reviews_only_replaced_by_response_witness :
  let w := PlainPage.run Samples.base 0 Samples.origin
             [Runtime.Dispatch (Plain.AppsSettled (Fulfilled Samples.apps_loaded));
              Runtime.Dispatch (Plain.SelectApp (Fin 5));
              Runtime.Dispatch (Plain.ReviewsSettled
                                  (Fulfilled (Service.mkGetReviewsResponse
                                                [Samples.review1])))] in
  Plain.reviews (Runtime.comp (PlainPage.step Samples.base w
                                 (Runtime.Dispatch (Plain.SelectApp (Fin 7)))))
  = Plain.reviews (Runtime.comp w).
Proof.
  cbv zeta.
  apply (proj1 (reviews_only_replaced_by_response Samples.base Samples.UTC)).
  intros r. discriminate.
Defined.

(** ** The location and the history *)

Section MachineLocation.

Context {S E K : Type} `{EqDecision K} `{Navigation E}.

Variable selected : S -> option number.
Variable fetchKey : S -> K.
Variable begin_fetch : K -> Z -> number -> S -> S * list string.
Variable handle : E -> S -> browser -> S * browser.

Import Runtime.

Local Abbreviation world := (@Runtime.world S K).

Lemma call_loc k a (w : world) :
  loc (Runtime.callFetchReviews begin_fetch k a w) = loc w.
Proof.
  unfold Runtime.callFetchReviews.
  destruct (begin_fetch k (now w) a (comp w)). reflexivity.
Qed.

Lemma fire_loc (tid : nat) (t : timer K) (w : world) :
  loc (Runtime.fire begin_fetch tid t w) = loc w.
Proof.
  unfold Runtime.fire. destruct (due t =? now w); [| reflexivity].
  cbn [loc]. apply call_loc.
Qed.

(** Only the handler of an event, or the browser itself, moves the
    location. *)
Lemma step_loc (w : world) (i : @Runtime.input E) :
  loc (Runtime.step selected fetchKey begin_fetch handle w i)
  = match i with
    | Dispatch e =>
        if mounted w then snd (handle e (comp w) (loc w))
        else browser_move e (loc w)
    | _ => loc w
    end.
Proof.
  destruct i as [e | |]; cbn [Runtime.step].
  - unfold Runtime.dispatch. destruct (mounted w); [| reflexivity].
    destruct (handle e (comp w) (loc w)) as [st b]. rewrite commit_loc. reflexivity.
  - unfold Runtime.tick. cbv zeta. rewrite commit_loc.
    apply (map_fold_weak_ind (fun (r : world) _ => loc r = loc w)).
    + reflexivity.
    + intros tid t m r _ Hr. rewrite fire_loc. exact Hr.
  - unfold Runtime.unmount. destruct (mounted w); [| reflexivity].
    cbn [loc]. unfold Runtime.runCleanup. destruct (cleanup w); reflexivity.
Qed.

End MachineLocation.

(** X18.  The components write the history only when an app is
    chosen: a step of either page that is neither a choice from the
    dropdown nor, with the custom id form, a submission leaves the
    pushed entries as they are, and unless it is a navigation it leaves
    the whole location as it is.  So the selection made from the URL
    when the list of apps arrives, the polling and the responses never
    push an entry. *)
Theorem history_written_only_by_selection (API_BASE_URL : string)
  (LocalTZA : Z -> bool -> Z) :
  (forall (w : @Runtime.world Plain.state unit) i,
      (forall n, i <> Runtime.Dispatch (Plain.SelectApp n)) ->
      let w' := PlainPage.step API_BASE_URL w i in
      pushed (Runtime.loc w') = pushed (Runtime.loc w) /\
      ((forall path, i <> Runtime.Dispatch (Plain.PopState path)) ->
       Runtime.loc w' = Runtime.loc w)) /\
  (forall (w : @Runtime.world Filter.state number) i,
      (forall n, i <> Runtime.Dispatch (Filter.SelectApp n)) ->
      i <> Runtime.Dispatch Filter.SubmitCustom ->
      let w' := FilterPage.step API_BASE_URL LocalTZA w i in
      pushed (Runtime.loc w') = pushed (Runtime.loc w) /\
      ((forall path, i <> Runtime.Dispatch (Filter.PopState path)) ->
       Runtime.loc w' = Runtime.loc w)).
Proof.
  split.
  - intros w i Hi. cbv zeta. unfold PlainPage.step. rewrite step_loc.
    destruct i as [e | |]; [| split; reflexivity | split; reflexivity].
    destruct (Runtime.mounted w).
    + destruct e as [r | r | path | n]; cbn [Plain.handle snd].
      * split; reflexivity.
      * split; reflexivity.
      * split; [reflexivity |]. intros Hp. exfalso. apply (Hp path). reflexivity.
      * exfalso. apply (Hi n). reflexivity.
    + split; [apply plain_move_pushed |].
      intros Hp. destruct e as [r | r | path | n]; try reflexivity.
      exfalso. apply (Hp path). reflexivity.
  - intros w i Hi Hsub. cbv zeta. unfold FilterPage.step. rewrite step_loc.
    destruct i as [e | |]; [| split; reflexivity | split; reflexivity].
    destruct (Runtime.mounted w).
    + destruct e as [r | r | path | n | value | | parsed |]; cbn [Filter.handle snd];
        try (split; reflexivity).
      * split; [reflexivity |]. intros Hp. exfalso. apply (Hp path). reflexivity.
      * exfalso. apply (Hi n). reflexivity.
      * exfalso. apply Hsub. reflexivity.
    + split; [apply filter_move_pushed |].
      intros Hp. destruct e as [r | r | path | n | value | | parsed |];
        try reflexivity.
      exfalso. apply (Hp path). reflexivity.
Qed.

Lemma history_written_only_by_selection_witness :
  let w := PlainPage.run Samples.base 0 (mkBrowser "/app/5" []) [] in
  let w' := PlainPage.step Samples.base w
              (Runtime.Dispatch (Plain.AppsSettled (Fulfilled Samples.apps_loaded))) in
  pushed (Runtime.loc w') = pushed (Runtime.loc w).
Proof.
  cbv zeta.
  apply (proj1 (history_written_only_by_selection Samples.base Samples.UTC)).
  intros n. discriminate.
Defined.

(** X19.  In the page with the day filter, a change of the filter
    input while an app is selected restarts the polling at once when the
    value stored differs from the one before: [fetchReviews] is called
    at that moment for the selected app and the only timer is a new one,
    due one interval later; when the value stored is the same, neither a
    call nor a change of the timer follows. *)
Theorem filter_change_refetches (API_BASE_URL : string) (LocalTZA : Z -> bool -> Z)
  (t0 : Z) (b0 : browser) (inputs : list (@Runtime.input Filter.event))
  (parsed a : number) :
  let w := FilterPage.run API_BASE_URL LocalTZA t0 b0 inputs in
  let days := if truthy parsed then parsed else Fin 1 in
  let w' := FilterPage.step API_BASE_URL LocalTZA w
              (Runtime.Dispatch (Filter.ChangeDays parsed)) in
  Runtime.mounted w = true ->
  Filter.selectedAppId (Runtime.comp w) = Some a ->
  (days <> Filter.reviewFilterDays (Runtime.comp w) ->
   Runtime.calls w' = (Runtime.calls w ++ [(Runtime.now w, a)])%list /\
   Runtime.timers w'
   = {[ Runtime.next_timer w :=
          Runtime.mkTimer (Runtime.now w + REFRESH_INTERVAL) a days ]}) /\
  (days = Filter.reviewFilterDays (Runtime.comp w) ->
   Runtime.calls w' = Runtime.calls w /\ Runtime.timers w' = Runtime.timers w).
Proof.
  cbv zeta. intros Hm Hsel.
  set (w := FilterPage.run API_BASE_URL LocalTZA t0 b0 inputs) in *.
  pose proof (filter_settled API_BASE_URL LocalTZA t0 b0 inputs) as Hs. fold w in Hs.
  split.
  - intros Hne. unfold FilterPage.step. cbn [Runtime.step].
    rewrite (dispatch_mounted Filter.selectedAppId FilterPage.fetchKey
               (FilterPage.begin_fetch API_BASE_URL LocalTZA) Filter.handle
               (Filter.ChangeDays parsed) w Hm).
    pose proof (commit_set_page Filter.selectedAppId FilterPage.fetchKey
                  (FilterPage.begin_fetch API_BASE_URL LocalTZA)
                  (filter_begin_selected API_BASE_URL LocalTZA)
                  (filter_begin_key API_BASE_URL LocalTZA) w
                  (fst (Filter.handle (Filter.ChangeDays parsed)
                          (Runtime.comp w) (Runtime.loc w)))
                  (snd (Filter.handle (Filter.ChangeDays parsed)
                          (Runtime.comp w) (Runtime.loc w)))
                  Hs Hm) as Hc.
    cbv zeta in Hc. destruct Hc as (_ & _ & _ & _ & [[Heq _] | [_ Hcalls]]).
    + exfalso. apply Hne. unfold Runtime.current_deps in Heq.
      cbn [Runtime.comp Runtime.set_page] in Heq. injection Heq as Heq.
      exact Heq.
    + cbn [Filter.handle fst Filter.selectedAppId Filter.setReviewFilterDays] in Hcalls.
      rewrite Hsel in Hcalls. exact Hcalls.
  - intros Heq.
    pose proof (dispatch_same_deps Filter.selectedAppId FilterPage.fetchKey
                  (FilterPage.begin_fetch API_BASE_URL LocalTZA) Filter.handle
                  (filter_begin_selected API_BASE_URL LocalTZA)
                  (filter_begin_key API_BASE_URL LocalTZA)
                  w (Filter.ChangeDays parsed) Hs Hm) as Hd.
    cbv zeta in Hd. specialize (Hd eq_refl Heq).
    unfold FilterPage.step. rewrite Hd. split; reflexivity.
Qed.

Lemma filter_change_refetches_witness :
  let w := FilterPage.run Samples.base Samples.UTC 0 Samples.origin
             [Runtime.Dispatch (Filter.AppsSettled (Fulfilled Samples.apps_loaded));
              Runtime.Dispatch (Filter.SelectApp (Fin 5)); Runtime.Tick] in
  let w' := FilterPage.step Samples.base Samples.UTC w
              (Runtime.Dispatch (Filter.ChangeDays (Fin 7))) in
  Runtime.calls w' = (Runtime.calls w ++ [(Runtime.now w, Fin 5)])%list.
Proof.
  cbv zeta.
  apply (proj1 (filter_change_refetches Samples.base Samples.UTC 0 Samples.origin
                  [Runtime.Dispatch (Filter.AppsSettled (Fulfilled Samples.apps_loaded));
                   Runtime.Dispatch (Filter.SelectApp (Fin 5)); Runtime.Tick]%list
                  (Fin 7) (Fin 5)
                  ltac:(vm_compute; reflexivity) ltac:(vm_compute; reflexivity))).
  vm_compute. discriminate.
Defined.

Section ErrorSticks.

Variable API_BASE_URL : string.
Variable LocalTZA : Z -> bool -> Z.

Lemma filter_step_error (w : @Runtime.world Filter.state number)
  (i : @Runtime.input Filter.event) :
  View.truthy_text (Filter.error (Runtime.comp w)) = true ->
  (forall r, i <> Runtime.Dispatch (Filter.AppsSettled r)) ->
  (forall r, i <> Runtime.Dispatch (Filter.ReviewsSettled r)) ->
  View.truthy_text
    (Filter.error (Runtime.comp (FilterPage.step API_BASE_URL LocalTZA w i))) = true.
Proof.
  intros He H1 H2. unfold FilterPage.step.
  apply (frame_step Filter.selectedAppId FilterPage.fetchKey
           (FilterPage.begin_fetch API_BASE_URL LocalTZA) Filter.handle
           (fun x => View.truthy_text (Filter.error (Runtime.comp x)) = true)).
  - intros x x' Hc _ _ Hx. rewrite Hc. exact Hx.
  - intros k a x Hx. rewrite call_comp. unfold FilterPage.begin_fetch. cbn [fst].
    apply filter_begin_error, Hx.
  - exact He.
  - destruct i as [e | |]; [| exact I | exact I]. intros _.
    cbn [Runtime.comp Runtime.set_page].
    apply filter_handle_error; [exact He | | | |].
    + intros r ->. apply (H1 (Fulfilled r)). reflexivity.
    + intros r ->. apply (H2 (Fulfilled r)). reflexivity.
    + intros ->. apply (H1 (Rejected (Error ""))). reflexivity.
    + intros ->. apply (H2 (Rejected (Error ""))). reflexivity.
Qed.

Lemma filter_fold_error (after : list (@Runtime.input Filter.event)) :
  forall w : @Runtime.world Filter.state number,
    View.truthy_text (Filter.error (Runtime.comp w)) = true ->
    Forall (fun i => (forall r, i <> Runtime.Dispatch (Filter.AppsSettled r)) /\
                     (forall r, i <> Runtime.Dispatch (Filter.ReviewsSettled r)))
      after ->
    View.truthy_text
      (Filter.error
         (Runtime.comp (fold_left (FilterPage.step API_BASE_URL LocalTZA) after w)))
    = true.
Proof.
  induction after as [| i rest IH]; intros w He Hall; [exact He |].
  cbn [fold_left]. inversion Hall as [| i' rest' [H1 H2] Hrest]; subst.
  apply IH; [| exact Hrest]. apply filter_step_error; assumption.
Qed.

End ErrorSticks.

(** X20.  In the page with the custom id form, once a submission
    of the custom id has been rejected the page shows an error alone for
    as long as no request settles: whatever ticks, navigation and other
    user events follow, the component keeps rendering an error and
    none of its controls, so the form cannot be used again. *)
Theorem rejected_submit_sticks (API_BASE_URL : string) (LocalTZA : Z -> bool -> Z)
  (t0 : Z) (b0 : browser) (before after : list (@Runtime.input Filter.event)) :
  let w := FilterPage.run API_BASE_URL LocalTZA t0 b0 before in
  let w1 := FilterPage.step API_BASE_URL LocalTZA w
              (Runtime.Dispatch Filter.SubmitCustom) in
  Runtime.mounted w = true ->
  gt_zero (parseInt (Filter.customAppId (Runtime.comp w))) = false ->
  Forall (fun i => (forall r, i <> Runtime.Dispatch (Filter.AppsSettled r)) /\
                   (forall r, i <> Runtime.Dispatch (Filter.ReviewsSettled r))) after ->
  View.render_filter (Runtime.comp w1)
  = View.ErrorOnly ("Error: " ++ Filter.invalid_app_id_message) /\
  Runtime.calls w1 = Runtime.calls w /\
  exists e,
    View.render_filter
      (Runtime.comp (fold_left (FilterPage.step API_BASE_URL LocalTZA) after w1))
    = View.ErrorOnly ("Error: " ++ e).
Proof.
  cbv zeta. intros Hm Hg Hall.
  set (w := FilterPage.run API_BASE_URL LocalTZA t0 b0 before) in *.
  pose proof (filter_settled API_BASE_URL LocalTZA t0 b0 before) as Hs. fold w in Hs.
  assert (Hstep : FilterPage.step API_BASE_URL LocalTZA w
                    (Runtime.Dispatch Filter.SubmitCustom)
                  = Runtime.set_page
                      (Filter.setError (Some Filter.invalid_app_id_message)
                         (Runtime.comp w)) (Runtime.loc w) w).
  { pose proof (dispatch_same_deps Filter.selectedAppId FilterPage.fetchKey
                  (FilterPage.begin_fetch API_BASE_URL LocalTZA) Filter.handle
                  (filter_begin_selected API_BASE_URL LocalTZA)
                  (filter_begin_key API_BASE_URL LocalTZA)
                  w Filter.SubmitCustom Hs Hm) as Hd.
    cbv zeta in Hd. cbn [Filter.handle] in Hd.
    rewrite (submit_rejected (Runtime.comp w) (Runtime.loc w) Hg) in Hd.
    exact (Hd eq_refl eq_refl). }
  rewrite Hstep. split; [reflexivity |]. split; [reflexivity |].
  pose proof (filter_fold_error API_BASE_URL LocalTZA after
                (Runtime.set_page
                   (Filter.setError (Some Filter.invalid_app_id_message)
                      (Runtime.comp w)) (Runtime.loc w) w) eq_refl Hall) as Hf.
  pose proof Hf as Hf'. apply truthy_text_some in Hf' as (e & Hsome & _).
  exists e. unfold View.render_filter. rewrite Hf, Hsome. reflexivity.
Qed.

Lemma rejected_submit_sticks_witness :
  let w := FilterPage.run Samples.base Samples.UTC 0 Samples.origin
             [Runtime.Dispatch (Filter.AppsSettled (Fulfilled Samples.apps_loaded));
              Runtime.Dispatch (Filter.ChangeCustom "-4")] in
  let w1 := FilterPage.step Samples.base Samples.UTC w
              (Runtime.Dispatch Filter.SubmitCustom) in
  View.render_filter (Runtime.comp w1)
  = View.ErrorOnly ("Error: " ++ Filter.invalid_app_id_message).
Proof.
  cbv zeta.
  apply (rejected_submit_sticks Samples.base Samples.UTC 0 Samples.origin
           [Runtime.Dispatch (Filter.AppsSettled (Fulfilled Samples.apps_loaded));
            Runtime.Dispatch (Filter.ChangeCustom "-4")]%list
           [Runtime.Tick; Runtime.Dispatch (Filter.PopState "/")]%list
           ltac:(vm_compute; reflexivity) ltac:(vm_compute; reflexivity)).
  repeat constructor; intros r; discriminate.
Defined.
